(** * COBOLDocPro: the documentation agent ([attached_assets/agent_fixed.py])

    A shallow embedding of [COBOLDocumentationAgent] and of the parts of
    Python it relies on (string methods, the [re] module on the six
    patterns the agent uses, dictionaries), followed by the properties
    of the documentation pipeline.

    Conventions.
    - A Python [str] is a [string]; a character is a code point below
      256.  The classes [\s] and [\w] and [str.strip]/[str.split] use
      Python's Unicode tables restricted to that range.
    - The preferences [dict] is a [gmap string pyval]; a dictionary
      inside a value keeps its insertion order and is an association
      list.
    - A call that may raise returns an [outcome]; the collaborators that
      live outside the file (LLM providers, the Mermaid validator, the
      JSON parser, the enrichment client, the tabbed viewer) are fields
      of a record describing the environment of one run. *)

From Stdlib Require Import String Ascii List Bool Arith NArith ZArith Lia.
From stdpp Require Import base option gmap strings list.

Open Scope string_scope.
Open Scope list_scope.
Open Scope stdpp_scope.

(** Appending to a literal computes. *)
#[global] Arguments String.append !s1 s2 : simpl nomatch.

(* ===================================================================== *)
(** ** Characters *)
(* ===================================================================== *)

Module Char.

Definition code (c : ascii) : N := N_of_ascii c.

Definition between (lo hi : N) (c : ascii) : bool :=
  ((lo <=? code c) && (code c <=? hi))%N.

(** [str.isspace] and the regex class [\s]: TAB..CR, FS..US, space,
    NEL (0x85) and NBSP (0xA0). *)
Definition is_space (c : ascii) : bool :=
  between 9 13 c || between 28 32 c || between 133 133 c || between 160 160 c.

(** [str.isalnum]: ASCII letters and digits, and the Latin-1 letters and
    numeric characters. *)
Definition is_alnum (c : ascii) : bool :=
  between 48 57 c || between 65 90 c || between 97 122 c
  || between 170 170 c || between 178 179 c || between 181 181 c
  || between 185 186 c || between 188 190 c || between 192 214 c
  || between 216 246 c || between 248 255 c.

(** The regex class [\w]. *)
Definition is_word (c : ascii) : bool :=
  is_alnum c || Ascii.eqb c "_".

(** The regex class [[\w-]]. *)
Definition is_word_or_dash (c : ascii) : bool :=
  is_word c || Ascii.eqb c "-".

(** The regex class [[\s\S]]: every character. *)
Definition any (c : ascii) : bool := is_space c || negb (is_space c).

(** The regex atom [.] without DOTALL: every character but the newline. *)
Definition dot (c : ascii) : bool := negb (Ascii.eqb c "010").

(** Simple lower-casing, as used by [re.IGNORECASE]. *)
Definition lower (c : ascii) : ascii :=
  if between 65 90 c || between 192 214 c || between 216 222 c
  then ascii_of_N (code c + 32) else c.

(** A literal character of a pattern. *)
Definition exactly (p : ascii) (c : ascii) : bool := Ascii.eqb c p.

(** A literal character of a pattern compiled with [re.IGNORECASE]. *)
Definition exactly_i (p : ascii) (c : ascii) : bool := Ascii.eqb (lower c) (lower p).

End Char.

(* ===================================================================== *)
(** ** Python strings *)
(* ===================================================================== *)

Module Str.

(** [len(s)] *)
Abbreviation len := String.length (only parsing).

(** [s[:n]] *)
Fixpoint take (n : nat) (s : string) : string :=
  match n, s with
  | S n', String c s' => String c (take n' s')
  | _, _ => ""
  end.

(** [s[n:]] *)
Fixpoint drop (n : nat) (s : string) : string :=
  match n, s with
  | S n', String _ s' => drop n' s'
  | _, _ => s
  end.

(** [s.startswith(p)] *)
Fixpoint startswith (p s : string) : bool :=
  match p, s with
  | "", _ => true
  | String a p', String b s' => Ascii.eqb a b && startswith p' s'
  | String _ _, "" => false
  end.

(** [sub in s] *)
Fixpoint contains (sub s : string) : bool :=
  startswith sub s ||
  match s with
  | "" => false
  | String _ s' => contains sub s'
  end.

(** [s.count(sub)] for a non-empty [sub]: occurrences are counted from
    the left and do not overlap.  [skip] is the number of characters
    still covered by the occurrence counted last. *)
Fixpoint count_from (sub : string) (skip : nat) (s : string) : nat :=
  match s with
  | "" => 0
  | String _ s' =>
      match skip with
      | S k => count_from sub k s'
      | O => if startswith sub s
             then S (count_from sub (len sub - 1) s')
             else count_from sub 0 s'
      end
  end.

Definition count (sub s : string) : nat := count_from sub 0 s.

(** [s.lstrip()] *)
Fixpoint lstrip (s : string) : string :=
  match s with
  | String c s' => if Char.is_space c then lstrip s' else s
  | "" => ""
  end.

(** [s.rstrip()] *)
Fixpoint rstrip (s : string) : string :=
  match s with
  | String c s' =>
      match rstrip s' with
      | "" => if Char.is_space c then "" else String c ""
      | r => String c r
      end
  | "" => ""
  end.

(** [s.strip()] *)
Definition strip (s : string) : string := rstrip (lstrip s).

(** [s.split()]: the maximal runs of non-space characters.  [cur] is the
    word being read. *)
Fixpoint split_from (cur : string) (s : string) : list string :=
  match s with
  | "" => match cur with "" => [] | _ => [cur] end
  | String c s' =>
      if Char.is_space c
      then match cur with
           | "" => split_from "" s'
           | _ => cur :: split_from "" s'
           end
      else split_from (cur +:+ String c "") s'
  end.

Definition split (s : string) : list string := split_from "" s.

(** All characters of [s] satisfy [p]. *)
Fixpoint all (p : ascii -> bool) (s : string) : bool :=
  match s with
  | "" => true
  | String c s' => p c && all p s'
  end.

(** Python truthiness of a string. *)
Definition truthy (s : string) : bool := negb (String.eqb s "").

End Str.

(* ===================================================================== *)
(** ** Exceptions *)
(* ===================================================================== *)

(** The exceptions the agent can meet.  [External msg] is an exception
    raised by a collaborator; [msg] is its [str()]. *)
Inductive exn : Type :=
| AttributeError
| TypeError
| KeyError (k : string)
| JSONDecodeError
| External (msg : string).

(** The result of a call: a value, or an exception on its way up. *)
Inductive outcome (A : Type) : Type :=
| Returned (a : A)
| Raised (e : exn).
Arguments Returned {A} a.
Arguments Raised {A} e.

#[export] Instance outcome_ret : MRet outcome := fun A a => Returned a.
#[export] Instance outcome_bind : MBind outcome := fun A B f m =>
  match m with
  | Returned a => f a
  | Raised e => Raised e
  end.

(** [try: body  except Exception as e: handler(e)] *)
Definition try_except {A : Type} (body : outcome A) (handler : exn -> outcome A)
    : outcome A :=
  match body with
  | Returned a => Returned a
  | Raised e => handler e
  end.

(** [str(e)] *)
Definition exn_str (e : exn) : string :=
  match e with
  | AttributeError => "AttributeError"
  | TypeError => "TypeError"
  | KeyError k => "'" +:+ k +:+ "'"
  | JSONDecodeError => "JSONDecodeError"
  | External msg => msg
  end.

(* ===================================================================== *)
(** ** The [re] module, restricted to what the agent's patterns use *)
(* ===================================================================== *)

Module Re.

(** Patterns.  Repetition is only applied to one-character classes in
    the agent's patterns, so [Star] and [LazyStar] carry a class. *)
Inductive regex : Type :=
| Eps
| Chr (p : ascii -> bool)
| Seq (r1 r2 : regex)
| Alt (r1 r2 : regex)
| Star (p : ascii -> bool)
| LazyStar (p : ascii -> bool)
| Group (n : nat) (r : regex)
| Bol
| Eol.

(** [p+], [p*?] and [r?] *)
Definition Plus (p : ascii -> bool) : regex := Seq (Chr p) (Star p).
Definition Opt (r : regex) : regex := Alt r Eps.

(** A literal, and a literal under [re.IGNORECASE]. *)
Fixpoint lit (s : string) : regex :=
  match s with
  | "" => Eps
  | String c s' => Seq (Chr (Char.exactly c)) (lit s')
  end.

Fixpoint lit_i (s : string) : regex :=
  match s with
  | "" => Eps
  | String c s' => Seq (Chr (Char.exactly_i c)) (lit_i s')
  end.

(** Captured groups, latest first. *)
Definition groups := list (nat * string).

Fixpoint group_of (g : groups) (n : nat) : option string :=
  match g with
  | [] => None
  | (m, s) :: g' => if Nat.eqb m n then Some s else group_of g' n
  end.

Section Matcher.
Context {R : Type}.

  (** A continuation receives the position reached, the text left and
      the groups captured so far; [None] makes the matcher backtrack. *)
Definition cont : Type := nat -> string -> groups -> option R.

Fixpoint star_greedy (p : ascii -> bool) (k : cont)
      (i : nat) (s : string) (g : groups) {struct s} : option R :=
    match s with
    | String c s' =>
        if p c
        then match star_greedy p k (S i) s' g with
             | Some r => Some r
             | None => k i s g
             end
        else k i s g
    | "" => k i s g
    end.

Fixpoint star_lazy (p : ascii -> bool) (k : cont)
      (i : nat) (s : string) (g : groups) {struct s} : option R :=
    match k i s g with
    | Some r => Some r
    | None =>
        match s with
        | String c s' => if p c then star_lazy p k (S i) s' g else None
        | "" => None
        end
    end.

  (** Backtracking matcher: alternatives are tried in the order Python
      tries them, and the first complete match wins. *)
Fixpoint exec (r : regex) (k : cont) (i : nat) (s : string) (g : groups)
      {struct r} : option R :=
    match r with
    | Eps => k i s g
    | Chr p =>
        match s with
        | String c s' => if p c then k (S i) s' g else None
        | "" => None
        end
    | Seq r1 r2 => exec r1 (exec r2 k) i s g
    | Alt r1 r2 =>
        match exec r1 k i s g with
        | Some x => Some x
        | None => exec r2 k i s g
        end
    | Star p => star_greedy p k i s g
    | LazyStar p => star_lazy p k i s g
    | Group n r1 =>
        exec r1 (fun i' s' g' => k i' s' ((n, Str.take (i' - i) s) :: g')) i s g
    | Bol => if Nat.eqb i 0 then k i s g else None
    | Eol =>
        match s with
        | "" => k i s g
        | String c "" => if Ascii.eqb c "010" then k i s g else None
        | _ => None
        end
    end.
End Matcher.

(** A match object: [m.start()], [m.end()] and the groups. *)
Record rmatch : Type := Match { m_start : nat; m_end : nat; m_groups : groups }.

(** [m.group(n)]; a group that took no part in the match is [None]. *)
Definition group (m : rmatch) (n : nat) : option string := group_of (m_groups m) n.

(** The pattern matched at position [i], where [s] is the text from [i]. *)
Definition match_at (r : regex) (i : nat) (s : string) : option rmatch :=
  exec r (fun e _ g => Some (Match i e g)) i s [].

(** [re.search]: the match at the leftmost position that has one. *)
Fixpoint search_from (r : regex) (i : nat) (s : string) : option rmatch :=
  match match_at r i s with
  | Some m => Some m
  | None =>
      match s with
      | String _ s' => search_from r (S i) s'
      | "" => None
      end
  end.

Definition search (r : regex) (s : string) : option rmatch := search_from r 0 s.

(** [re.finditer]: successive leftmost matches, each search resuming
    where the previous match ended.  [skip] counts the characters still
    inside the previous match.  The agent's patterns never match the
    empty string; after an empty match the scan moves on by one
    character. *)
Fixpoint finditer_from (r : regex) (i skip : nat) (s : string) {struct s}
    : list rmatch :=
  match skip with
  | S n =>
      match s with
      | String _ s' => finditer_from r (S i) n s'
      | "" => []
      end
  | O =>
      match match_at r i s with
      | Some m =>
          m :: match s with
               | String _ s' => finditer_from r (S i) (m_end m - i - 1) s'
               | "" => []
               end
      | None =>
          match s with
          | String _ s' => finditer_from r (S i) 0 s'
          | "" => []
          end
      end
  end.

Definition finditer (r : regex) (s : string) : list rmatch := finditer_from r 0 0 s.

(** [re.sub(pattern, f, s)] with a callable [f] that updates a variable
    of the enclosing function (a [nonlocal]) and may raise: the callable
    is a state transformer, applied to the matches from left to right;
    an exception it raises ends the substitution. *)
Section Sub.
Context {St : Type}.

Fixpoint sub_from (r : regex) (f : rmatch -> St -> outcome (string * St))
    (i skip : nat) (s : string) (st : St) {struct s} : outcome (string * St) :=
  match skip with
  | S n =>
      match s with
      | String _ s' => sub_from r f (S i) n s' st
      | "" => mret ("", st)
      end
  | O =>
      match match_at r i s with
      | Some m =>
          '(rep, st1) ← f m st;
          match s with
          | String c s' =>
              if Nat.eqb (m_end m) i
              then '(out, st2) ← sub_from r f (S i) 0 s' st1;
                   mret (rep +:+ String c out, st2)
              else '(out, st2) ← sub_from r f (S i) (m_end m - i - 1) s' st1;
                   mret (rep +:+ out, st2)
          | "" => mret (rep, st1)
          end
      | None =>
          match s with
          | String c s' =>
              '(out, st1) ← sub_from r f (S i) 0 s' st;
              mret (String c out, st1)
          | "" => mret ("", st)
          end
      end
  end.

Definition sub (r : regex) (f : rmatch -> St -> outcome (string * St))
    (s : string) (st : St) : outcome (string * St) :=
  sub_from r f 0 0 s st.
End Sub.

End Re.

Infix ">>" := Re.Seq (at level 60, right associativity).

(* ===================================================================== *)
(** ** Python values *)
(* ===================================================================== *)

(** The values that flow through the agent: what [json.loads] produces.
    A [PDict] lists its items in insertion order (the agent iterates
    over some of them); a well-formed one has distinct keys. *)
#[local] Set Warnings "-register-all".
Inductive pyval : Type :=
| PNone
| PBool (b : bool)
| PNum (z : Z)
| PStr (s : string)
| PList (l : list pyval)
| PDict (d : list (string * pyval)).

Module Py.

(** A dictionary: its items. *)
Definition dict : Type := list (string * pyval).

Fixpoint lookup (k : string) (d : dict) : option pyval :=
  match d with
  | [] => None
  | (k', v) :: d' => if String.eqb k' k then Some v else lookup k d'
  end.

(** [v == PStr s] for a string [s] *)
Definition eq_str (v : pyval) (s : string) : bool :=
  match v with
  | PStr s' => String.eqb s' s
  | _ => false
  end.

(** [k in v] for a string [k] *)
Definition contains (k : string) (v : pyval) : outcome bool :=
  match v with
  | PDict d => Returned (match lookup k d with Some _ => true | None => false end)
  | PList l => Returned (existsb (fun x => eq_str x k) l)
  | PStr s => Returned (Str.contains k s)
  | _ => Raised TypeError
  end.

(** [v[k]] for a string [k] *)
Definition getitem (v : pyval) (k : string) : outcome pyval :=
  match v with
  | PDict d =>
      match lookup k d with
      | Some x => Returned x
      | None => Raised (KeyError k)
      end
  | PList _ | PStr _ => Raised TypeError
  | _ => Raised TypeError
  end.

(** [v.get(k, default)] *)
Definition get (v : pyval) (k : string) (default : pyval) : outcome pyval :=
  match v with
  | PDict d => Returned (from_option id default (lookup k d))
  | _ => Raised AttributeError
  end.

(** [len(v)] *)
Definition len (v : pyval) : outcome nat :=
  match v with
  | PStr s => Returned (Str.len s)
  | PList l => Returned (length l)
  | PDict d => Returned (length d)
  | _ => Raised TypeError
  end.

(** Truthiness. *)
Definition truthy (v : pyval) : bool :=
  match v with
  | PNone => false
  | PBool b => b
  | PNum z => negb (Z.eqb z 0)
  | PStr s => Str.truthy s
  | PList l => negb (Nat.eqb (length l) 0)
  | PDict d => negb (Nat.eqb (length d) 0)
  end.

End Py.

(* ===================================================================== *)
(** ** The agent: preferences and memory *)
(* ===================================================================== *)

(** [self.user_preferences], [self.memory] and [self.llm_model] of a
    [COBOLDocumentationAgent].  [__init__] starts from empty preferences,
    so [llm_model] is its default until an attribute assignment changes
    it. *)
Record agent : Type := Agent {
  user_preferences : gmap string pyval;
  memory : list (string * pyval);
  llm_model : pyval
}.

Definition max_memory_items : nat := 10.

(** [set_user_preference(self, key, value)]: [self.user_preferences[key] = value] *)
Definition set_user_preference (self : agent) (key : string) (value : pyval) : agent :=
  Agent (<[key := value]> (user_preferences self)) (memory self) (llm_model self).

(** [get_user_preference(self, key, default)]: [self.user_preferences.get(key, default)] *)
Definition get_user_preference (self : agent) (key : string) (default : pyval) : pyval :=
  from_option id default (user_preferences self !! key).

(** [remember(self, item_type, content)]: append, then drop the oldest
    item when more than [max_memory_items] are held (time stamps are
    left out). *)
Definition remember (self : agent) (item_type : string) (content : pyval) : agent :=
  let mem := memory self ++ [(item_type, content)] in
  Agent (user_preferences self)
        (if Nat.ltb max_memory_items (length mem) then tail mem else mem)
        (llm_model self).

(** [__init__]: no preference is set yet, so the model is the default. *)
Definition init : agent :=
  Agent ∅ [] (PStr "llama-3.3-70b-versatile").

(* ===================================================================== *)
(** ** The heuristic pre-parse *)
(* ===================================================================== *)

(** [r'PROGRAM-ID\s*\.\s*([\w-]+)'] with [re.IGNORECASE] *)
Definition program_id_pattern : Re.regex :=
  Re.lit_i "PROGRAM-ID" >> Re.Star Char.is_space >> Re.Chr (Char.exactly ".")
  >> Re.Star Char.is_space >> Re.Group 1 (Re.Plus Char.is_word_or_dash).

(** [r'([\w-]+)\s+DIVISION'] with [re.IGNORECASE] *)
Definition division_pattern : Re.regex :=
  Re.Group 1 (Re.Plus Char.is_word_or_dash) >> Re.Plus Char.is_space
  >> Re.lit_i "DIVISION".

(** [match.group(n).strip()]: a group that did not take part in the
    match is [None], which has no [strip]. *)
Definition group_strip (m : Re.rmatch) (n : nat) : outcome string :=
  match Re.group m n with
  | Some s => Returned (Str.strip s)
  | None => Raised AttributeError
  end.

Definition _extract_program_id (cobol_code : string) : outcome string :=
  match Re.search program_id_pattern cobol_code with
  | Some program_id_match => group_strip program_id_match 1
  | None => Returned "Unknown"
  end.

(** The loop [for match in division_matches: divisions.append(...)] *)
Fixpoint append_divisions (division_matches : list Re.rmatch) (divisions : list string)
    : outcome (list string) :=
  match division_matches with
  | [] => Returned divisions
  | m :: rest =>
      name ← group_strip m 1;
      append_divisions rest (divisions ++ [name])
  end.

Definition _identify_divisions (cobol_code : string) : outcome (list string) :=
  append_divisions (Re.finditer division_pattern cobol_code) [].

(* ===================================================================== *)
(** ** Quality evaluation *)
(* ===================================================================== *)

(** The dictionary returned by both evaluators. *)
Record quality : Type := Quality {
  quality_score : nat;
  quality_level : string;
  quality_notes : list string
}.

(** ["low" if quality_score < 2 else "medium" if quality_score < 4 else "high"] *)
Definition level_of (quality_score : nat) : string :=
  if Nat.ltb quality_score 2 then "low"
  else if Nat.ltb quality_score 4 then "medium"
  else "high".

(** One [if cond: quality_score += 1  else: quality_notes.append(note)]. *)
Definition tally (cond : bool) (note : string) (acc : nat * list string)
    : nat * list string :=
  if cond then (fst acc + 1, snd acc) else (fst acc, snd acc ++ [note]).

(** [k in structured_data and len(structured_data.get(k, dflt)) > bound] *)
Definition present_and_longer (structured_data : pyval) (k : string)
    (dflt : pyval) (bound : nat) : outcome bool :=
  present ← Py.contains k structured_data;
  if present : bool then
    v ← Py.get structured_data k dflt;
    n ← Py.len v;
    mret (Nat.ltb bound n)
  else mret false.

(** ["program_id" in structured_data and structured_data["program_id"] != "Unknown"] *)
Definition has_program_id (structured_data : pyval) : outcome bool :=
  present ← Py.contains "program_id" structured_data;
  if present : bool then
    v ← Py.getitem structured_data "program_id";
    mret (negb (Py.eq_str v "Unknown"))
  else mret false.

Definition _evaluate_analysis_quality (structured_data : pyval) : outcome quality :=
  let acc := (0, []) in
  c1 ← has_program_id structured_data;
  let acc := tally c1 "Missing program ID" acc in
  c2 ← present_and_longer structured_data "description" (PStr "") 20;
  let acc := tally c2 "Description missing or too short" acc in
  c3 ← present_and_longer structured_data "divisions" (PDict []) 0;
  let acc := tally c3 "No divisions identified" acc in
  c4 ← present_and_longer structured_data "variables" (PDict []) 0;
  let acc := tally c4 "No variables identified" acc in
  c5 ← present_and_longer structured_data "flow_diagram" (PStr "") 50;
  let acc := tally c5 "Flow diagram missing or incomplete" acc in
  mret (Quality (fst acc) (level_of (fst acc)) (snd acc)).

(** The opening fence of a Mermaid block. *)
Definition mermaid_marker : string := "```mermaid".

Definition _evaluate_documentation_quality (documentation : string) : quality :=
  let acc := (0, []) in
  let acc := tally (Nat.ltb 1000 (Str.len documentation))
                   "Documentation is too short" acc in
  let acc := tally (Nat.ltb 3 (Str.count "#" documentation))
                   "Too few section headings" acc in
  let acc := tally (Nat.leb 2 (Str.count "```" documentation))
                   "No code examples included" acc in
  let acc := tally (Str.contains mermaid_marker documentation)
                   "No diagrams included" acc in
  let acc := tally (Nat.ltb 300 (length (Str.split documentation)))
                   "Insufficient explanation text" acc in
  Quality (fst acc) (level_of (fst acc)) (snd acc).

(* ===================================================================== *)
(** ** Thinking-process separation *)
(* ===================================================================== *)

Definition newline : ascii := "010".
Definition nl : string := String newline "".

(** [r'(^|\n)#\s+(.*?Documentation|Documentation for.*?)(\n|$)'] with
    [re.IGNORECASE] *)
Definition doc_title_pattern : Re.regex :=
  Re.Group 1 (Re.Alt Re.Bol (Re.Chr (Char.exactly newline)))
  >> Re.Chr (Char.exactly "#") >> Re.Plus Char.is_space
  >> Re.Group 2 (Re.Alt (Re.LazyStar Char.dot >> Re.lit_i "Documentation")
                        (Re.lit_i "Documentation for" >> Re.LazyStar Char.dot))
  >> Re.Group 3 (Re.Alt (Re.Chr (Char.exactly newline)) Re.Eol).

(** [r'(^|\n)#\s+'] *)
Definition first_heading_pattern : Re.regex :=
  Re.Group 1 (Re.Alt Re.Bol (Re.Chr (Char.exactly newline)))
  >> Re.Chr (Char.exactly "#") >> Re.Plus Char.is_space.

Definition thinking_heading : string :=
  nl +:+ nl +:+ "# Thinking Process" +:+ nl +:+ nl.

(** The body shared by the two branches: cut at [pos], strip both parts,
    and move a non-empty first part behind the second. *)
Definition split_at_heading (documentation : string) (pos : nat) : string :=
  let thinking_process := Str.strip (Str.take pos documentation) in
  let main_documentation := Str.strip (Str.drop pos documentation) in
  if Str.truthy thinking_process
  then main_documentation +:+ thinking_heading +:+ thinking_process
  else main_documentation.

Definition _separate_thinking_process (documentation : string) : string :=
  match Re.search doc_title_pattern documentation with
  | Some title_match => split_at_heading documentation (Re.m_start title_match)
  | None =>
      match Re.search first_heading_pattern documentation with
      | Some first_heading_match =>
          split_at_heading documentation (Re.m_start first_heading_match)
      | None => documentation
      end
  end.

(* ===================================================================== *)
(** ** The environment of a run *)
(* ===================================================================== *)

(** A prompt is a fixed template and the values interpolated into it;
    the wording of the templates is the provider's business. *)
Inductive prompt : Type :=
| AnalysisPrompt (parsed_structure : pyval) (cobol_code custom_instructions : string)
| DocumentationPrompt (custom_instructions : string) (structured_data : pyval)
    (mcp_context : string)
| GroqDocumentationPrompt (custom_instructions : string) (doc_prompt : prompt)
| EnhancePrompt (documentation : string).

(** The collaborators of the agent; each call either returns or raises. *)
Record world : Type := World {
  (** [llm_selector.get_providers()] *)
  get_providers : list string;
  (** [llm_selector.generate_text(prompt, provider, model, ...)] *)
  generate_text : prompt -> pyval -> pyval -> outcome string;
  (** [os.environ.get("GROQ_API_KEY")] *)
  GROQ_API_KEY : option string;
  (** [utils.groq_client.analyze_cobol_with_groq(cobol_code, model)] *)
  analyze_cobol_with_groq : string -> pyval -> outcome pyval;
  (** [utils.groq_client.generate_with_groq(prompt, model, ...)] *)
  generate_with_groq : prompt -> pyval -> outcome string;
  (** [json.loads] *)
  json_loads : string -> outcome pyval;
  (** [utils.mermaid_validator.validate_mermaid_syntax(code)]:
      [(is_valid, corrected_code, message)] *)
  validate_mermaid_syntax : string -> outcome (bool * string * string);
  (** [mcp_client.enrich_cobol_documentation(structured_data, audience_type)] *)
  enrich_cobol_documentation : pyval -> pyval -> outcome pyval;
  (** [utils.mermaid_viewer.enhance_markdown_with_tabs(documentation)] *)
  enhance_markdown_with_tabs : string -> outcome string;
  (** the text an f-string gives for a value that is not a string *)
  format_value : pyval -> string
}.

(** [f"{v}"] *)
Definition fmt (w : world) (v : pyval) : string :=
  match v with
  | PStr s => s
  | _ => format_value w v
  end.

(** [os.environ.get("GROQ_API_KEY")] as a condition *)
Definition has_groq_key (w : world) : bool :=
  match GROQ_API_KEY w with
  | Some k => Str.truthy k
  | None => false
  end.

(** [current_provider in llm_selector.get_providers()] *)
Definition provider_available (w : world) (current_provider : pyval) : bool :=
  existsb (fun p => Py.eq_str current_provider p) (get_providers w).

(* ===================================================================== *)
(** ** Diagram validation and enhancement *)
(* ===================================================================== *)

(** [r'```mermaid\s*([\s\S]*?)\s*```'] *)
Definition mermaid_pattern : Re.regex :=
  Re.lit mermaid_marker >> Re.Star Char.is_space >> Re.Group 1 (Re.LazyStar Char.any)
  >> Re.Star Char.is_space >> Re.lit "```".

(** [f"```mermaid\n{code}\n```"] *)
Definition mermaid_block (code : string) : string :=
  mermaid_marker +:+ nl +:+ code +:+ nl +:+ "```".

Definition default_diagram : string :=
  "flowchart TD" +:+ nl +:+ "    Empty[Empty Diagram] --> Placeholder[Placeholder]".

Definition basic_flowchart : string :=
  mermaid_marker +:+ nl +:+
  "flowchart TD" +:+ nl +:+
  "    Start([Start Program]) --> Init[Initialize Variables]" +:+ nl +:+
  "    Init --> Process[Process Data]" +:+ nl +:+
  "    Process --> Decision{Decision Point}" +:+ nl +:+
  "    Decision -->|Yes| Success[Success Path]" +:+ nl +:+
  "    Decision -->|No| Failure[Failure Path]" +:+ nl +:+
  "    Success --> End([End Program])" +:+ nl +:+
  "    Failure --> End" +:+ nl +:+
  "```".

(** [f"\n\n## Program Flow Diagram\n\n{basic_flowchart}\n"] *)
Definition basic_diagram_section : string :=
  nl +:+ nl +:+ "## Program Flow Diagram" +:+ nl +:+ nl +:+ basic_flowchart +:+ nl.

(** The callable of the first pass; the state is [has_valid_diagrams]. *)
Definition validate_diagram (w : world) (m : Re.rmatch) (has_valid_diagrams : bool)
    : outcome (string * bool) :=
  mermaid_code ← group_strip m 1;
  if negb (Str.truthy mermaid_code)
  then mret (mermaid_block default_diagram, has_valid_diagrams)
  else
    '(is_valid, corrected_code, message) ← validate_mermaid_syntax w mermaid_code;
    mret (mermaid_block corrected_code, true).

(** The callable of the correction loop; the state is [has_issues]. *)
Definition check_and_fix_diagram (w : world) (m : Re.rmatch) (has_issues : bool)
    : outcome (string * bool) :=
  mermaid_code ← group_strip m 1;
  if negb (Str.truthy mermaid_code)
  then mret (mermaid_block default_diagram, true)
  else
    '(is_valid, corrected_code, message) ← validate_mermaid_syntax w mermaid_code;
    mret (mermaid_block corrected_code,
          if String.eqb corrected_code mermaid_code then has_issues else true).

(** The first pass of [_enhance_with_diagrams]: every block found by
    the pattern is replaced by its validated form.  The result carries
    [has_valid_diagrams]. *)
Definition validation_pass (w : world) (documentation : string)
    : outcome (string * bool) :=
  if Str.contains mermaid_marker documentation
  then Re.sub mermaid_pattern (validate_diagram w) documentation false
  else mret (documentation, false).

(** The second step: a basic flow diagram is appended when the text has
    no Mermaid fence. *)
Definition fallback_diagram (documentation : string) (has_valid_diagrams : bool)
    (structured_data : pyval) : outcome (string * bool) :=
  if negb has_valid_diagrams && negb (Str.contains mermaid_marker documentation)
  then
    program_id ← Py.get structured_data "program_id" (PStr "Program");
    description ← Py.get structured_data "description" (PStr "COBOL Program");
    mret (documentation +:+ basic_diagram_section, true)
  else mret (documentation, has_valid_diagrams).

Definition max_attempts : nat := 2.

(** [while has_issues and attempts < max_attempts], with
    [attempts_left = max_attempts - attempts]. *)
Fixpoint correction_loop (w : world) (attempts_left : nat) (has_issues : bool)
    (enhanced_documentation : string) : outcome string :=
  match attempts_left with
  | O => mret enhanced_documentation
  | S n =>
      if has_issues
      then
        '(fixed, has_issues') ←
          Re.sub mermaid_pattern (check_and_fix_diagram w) enhanced_documentation false;
        correction_loop w n has_issues' fixed
      else mret enhanced_documentation
  end.

(** The body of the inner [try] of the third step. *)
Definition enhanced_or_original (w : world) (self : agent) (documentation : string)
    : outcome string :=
  enhanced_documentation ←
    generate_with_groq w (EnhancePrompt documentation) (llm_model self);
  if Str.truthy enhanced_documentation
  then
    enhanced_documentation ← correction_loop w max_attempts true enhanced_documentation;
    let original_count := Str.count mermaid_marker documentation in
    let enhanced_count := Str.count mermaid_marker enhanced_documentation in
    if Nat.ltb 0 enhanced_count
    then mret enhanced_documentation
    else mret documentation
  else mret documentation.

(** The third step: the LLM is asked for enhanced diagrams when the
    preferences ask for it; an exception leaves the text as it is. *)
Definition enhancement_pass (w : world) (self : agent) (documentation : string)
    : string :=
  let provider_preference := get_user_preference self "llm_provider" (PStr "groq") in
  if Py.truthy (get_user_preference self "enhanced_diagrams" (PBool true))
     && Py.truthy provider_preference
  then
    match enhanced_or_original w self documentation with
    | Returned d => d
    | Raised api_error => documentation
    end
  else documentation.

(** [_enhance_with_diagrams]: the outer [except] returns the text as it
    was assigned last. *)
Definition _enhance_with_diagrams (w : world) (self : agent)
    (documentation : string) (structured_data : pyval) : string :=
  match validation_pass w documentation with
  | Raised e => documentation
  | Returned (validated, has_valid_diagrams) =>
      match fallback_diagram validated has_valid_diagrams structured_data with
      | Raised e => validated
      | Returned (with_diagram, _) => enhancement_pass w self with_diagram
      end
  end.

(* ===================================================================== *)
(** ** Structure analysis *)
(* ===================================================================== *)

(** [k in v and elem in v[k]] *)
Definition nested_contains (v : pyval) (k elem : string) : outcome bool :=
  present ← Py.contains k v;
  if present : bool then
    inner ← Py.getitem v k;
    Py.contains elem inner
  else mret false.

Definition _identify_focus_areas (parsed_structure : pyval) : outcome (list string) :=
  let focus_areas := [] in
  has_data ← nested_contains parsed_structure "divisions" "DATA";
  let focus_areas := if has_data : bool then focus_areas ++ ["data_structures"] else focus_areas in
  has_procedure ← nested_contains parsed_structure "divisions" "PROCEDURE";
  let focus_areas := if has_procedure : bool then focus_areas ++ ["business_logic"] else focus_areas in
  mret (focus_areas ++ ["program_purpose"]).

(** The simplified structure used when the caller gives none. *)
Definition simplified_structure (cobol_code : string) : outcome pyval :=
  program_id ← _extract_program_id cobol_code;
  divisions ← _identify_divisions cobol_code;
  mret (PDict [("program_id", PStr program_id);
               ("divisions", PList (PStr <$> divisions))]).

Definition no_api_key_description : string :=
  "Error: No API keys available for any LLM provider".

Definition no_api_key_diagram : string :=
  "flowchart TD" +:+ nl +:+
  "    Error[Error: No API Keys] --> Action[Please configure API keys]".

Definition parse_failure_description : string :=
  "Could not automatically extract program description.".

(** The dictionary returned when no provider and no key is available. *)
Definition no_api_key_analysis (cobol_code : string) : outcome pyval :=
  program_id ← _extract_program_id cobol_code;
  divisions ← _identify_divisions cobol_code;
  mret (PDict [("program_id", PStr program_id);
               ("description", PStr no_api_key_description);
               ("divisions", PList (PStr <$> divisions));
               ("variables", PDict []);
               ("flow_diagram", PStr no_api_key_diagram)]).

(** The dictionary used when the reply cannot be parsed. *)
Definition parse_failure_analysis (cobol_code : string) : outcome pyval :=
  program_id ← _extract_program_id cobol_code;
  divisions ← _identify_divisions cobol_code;
  mret (PDict [("program_id", PStr program_id);
               ("description", PStr parse_failure_description);
               ("divisions", PList (PStr <$> divisions))]).

Definition analysis_instructions (self : agent) : string :=
  let detail_level := get_user_preference self "detail_level" PNone in
  let audience := get_user_preference self "audience" PNone in
  (if Py.eq_str detail_level "high"
   then "Provide highly detailed analysis with comprehensive breakdown of all code elements. "
   else if Py.eq_str detail_level "low"
   then "Provide a simplified overview focusing only on key program elements. "
   else "")
  +:+
  (if Py.eq_str audience "technical"
   then "Target audience is technical developers with COBOL expertise. "
   else if Py.eq_str audience "business"
   then "Target audience is business stakeholders with limited technical knowledge. "
   else "").

(** [r'```(?:json)?\s*([\s\S]*?)\s*```'] *)
Definition json_fence_pattern : Re.regex :=
  Re.lit "```" >> Re.Opt (Re.lit "json") >> Re.Star Char.is_space
  >> Re.Group 1 (Re.LazyStar Char.any) >> Re.Star Char.is_space >> Re.lit "```".

(** The text handed to [json.loads]: the content of the first fenced
    block of the reply if there is one, else the whole reply, stripped. *)
Definition payload (result : string) : outcome string :=
  match Re.search json_fence_pattern result with
  | Some json_match => group_strip json_match 1
  | None => mret (Str.strip result)
  end.

(** The inner [try]: find the payload and parse it; any exception gives
    the skeleton-derived fallback. *)
Definition parse_reply (w : world) (cobol_code result : string) : outcome pyval :=
  try_except
    (result ← payload result;
     json_loads w result)
    (fun json_error => parse_failure_analysis cobol_code).

(** What follows the parsing: the analysis is remembered and scored,
    then returned. *)
Definition remember_and_score (self : agent) (structured_data : pyval)
    : agent * outcome pyval :=
  match
    program_id ← Py.get structured_data "program_id" (PStr "Unknown");
    description ← Py.get structured_data "description" (PStr "No description available");
    mret (PDict [("program_id", program_id); ("description", description)])
  with
  | Raised e => (self, Raised e)
  | Returned content =>
      (remember self "cobol_analysis" content,
       _ ← _evaluate_analysis_quality structured_data;
       mret structured_data)
  end.

(** [analyze_cobol_structure]: the agent after the call and the outcome.
    The outer [except] logs and re-raises, so an exception of the body
    is the exception of the call. *)
Definition analyze_cobol_structure (w : world) (self : agent)
    (cobol_code : string) (parsed_structure : pyval) : agent * outcome pyval :=
  match
    (parsed_structure ←
       (if negb (Py.truthy parsed_structure)
        then simplified_structure cobol_code
        else mret parsed_structure);
     _ ← _identify_focus_areas parsed_structure;
     mret parsed_structure)
  with
  | Raised e => (self, Raised e)
  | Returned parsed_structure =>
      let custom_instructions := analysis_instructions self in
      let current_provider := get_user_preference self "llm_provider" (PStr "groq") in
      let current_model :=
        get_user_preference self "llm_model" (PStr "llama-3.3-70b-versatile") in
      if provider_available w current_provider then
        match
          result ← generate_text w
                     (AnalysisPrompt parsed_structure cobol_code custom_instructions)
                     current_provider current_model;
          parse_reply w cobol_code result
        with
        | Raised e => (self, Raised e)
        | Returned structured_data => remember_and_score self structured_data
        end
      else if Py.eq_str current_provider "groq" && has_groq_key w then
        (self, analyze_cobol_with_groq w cobol_code current_model)
      else if has_groq_key w then
        (self, analyze_cobol_with_groq w cobol_code (PStr "llama-3.3-70b-versatile"))
      else
        (self, no_api_key_analysis cobol_code)
  end.

(* ===================================================================== *)
(** ** Documentation generation *)
(* ===================================================================== *)

(** Iteration over a value: the keys of a dictionary, the elements of a
    list, the characters of a string. *)
Fixpoint chars (s : string) : list pyval :=
  match s with
  | "" => []
  | String c s' => PStr (String c "") :: chars s'
  end.

Definition iterate (v : pyval) : outcome (list pyval) :=
  match v with
  | PDict d => mret (PStr <$> (fst <$> d))
  | PList l => mret l
  | PStr s => mret (chars s)
  | _ => Raised TypeError
  end.

(** [v.items()] *)
Definition items (v : pyval) : outcome (list (string * pyval)) :=
  match v with
  | PDict d => mret d
  | _ => Raised AttributeError
  end.

Definition _plan_documentation_sections (w : world) (structured_data : pyval)
    : outcome (list string) :=
  let sections := ["Introduction"; "Program Overview"] in
  has_divisions ← Py.contains "divisions" structured_data;
  sections ←
    (if has_divisions : bool then
       divisions ← Py.get structured_data "divisions" (PDict []);
       names ← iterate divisions;
       mret (sections ++ ((fun division => fmt w division +:+ " Division") <$> names))
     else mret sections);
  has_variables ← present_and_longer structured_data "variables" (PDict []) 0;
  let sections :=
    if has_variables : bool then sections ++ ["Variables and Data Structures"] else sections in
  has_flow ← Py.contains "flow_diagram" structured_data;
  let sections := if has_flow : bool then sections ++ ["Program Flow"] else sections in
  mret (sections ++ ["Summary"]).

(** [v == True] *)
Definition eq_true (v : pyval) : bool :=
  match v with
  | PBool b => b
  | PNum z => Z.eqb z 1
  | _ => false
  end.

Definition documentation_instructions (self : agent) : string :=
  let style := get_user_preference self "documentation_style" PNone in
  (if Py.eq_str style "academic"
   then "Use a formal, academic style with precise terminology. "
   else if Py.eq_str style "conversational"
   then "Use a conversational style with accessible explanations. "
   else "")
  +:+
  (if eq_true (get_user_preference self "include_examples" PNone)
   then "Include practical examples for important code sections. "
   else "")
  +:+
  (if Py.eq_str (get_user_preference self "diagrams" PNone) "detailed"
   then "Create detailed diagrams explaining program flow and structure. "
   else "").

(** The document returned when no Groq key is configured. *)
Definition api_key_missing_document : string :=
  nl +:+ "# COBOL Program Documentation" +:+ nl +:+ nl +:+
  "## Error: API Key Missing" +:+ nl +:+ nl +:+
  "Documentation generation failed because no Groq API key is available." +:+ nl +:+ nl +:+
  "Please configure a GROQ_API_KEY in your environment settings." +:+ nl +:+ nl +:+
  mermaid_block no_api_key_diagram +:+ nl.

(** The document returned when the Groq call raises [groq_error]. *)
Definition groq_error_document (groq_error : exn) : string :=
  nl +:+ "# COBOL Program Documentation" +:+ nl +:+ nl +:+
  "## Error: Groq API Error" +:+ nl +:+ nl +:+
  "Documentation generation failed due to an error with the Groq API: "
  +:+ exn_str groq_error +:+ nl +:+ nl +:+
  "Please check your GROQ_API_KEY and try again." +:+ nl.

Definition _fallback_to_groq_for_documentation (w : world) (doc_prompt : prompt)
    (custom_instructions : string) : string :=
  if negb (has_groq_key w) then api_key_missing_document
  else
    match generate_with_groq w (GroqDocumentationPrompt custom_instructions doc_prompt)
            (PStr "llama-3.3-70b-versatile") with
    | Returned documentation => documentation
    | Raised groq_error => groq_error_document groq_error
    end.

Definition mcp_section_header : string :=
  nl +:+ nl +:+ "## Simplified Explanations" +:+ nl +:+ nl +:+
  "*The following explanations are designed for non-technical readers:*" +:+ nl +:+ nl.

(** [s + v] for a string [s]: defined when [v] is a string. *)
Definition concat_str (s : string) (v : pyval) : outcome string :=
  match v with
  | PStr s' => mret (s +:+ s')
  | _ => Raised TypeError
  end.

(** The loop over [construct_explanations.items()]. *)
Fixpoint add_constructs (w : world) (constructs : list (string * pyval))
    (mcp_section : string) : outcome string :=
  match constructs with
  | [] => mret mcp_section
  | (construct, explanation_data) :: rest =>
      explanation ← Py.get explanation_data "explanation" (PStr "");
      add_constructs w rest
        (if Py.truthy explanation
         then mcp_section +:+ "### " +:+ construct +:+ " Construct" +:+ nl +:+ nl
              +:+ fmt w explanation +:+ nl +:+ nl
         else mcp_section)
  end.

(** The loop over [visual_elements.items()]. *)
Fixpoint add_visuals (w : world) (elements : list (string * pyval))
    (mcp_section : string) : outcome string :=
  match elements with
  | [] => mret mcp_section
  | (element_name, element_data) :: rest =>
      has_visual ← Py.contains "visual_element" element_data;
      mcp_section ←
        (if has_visual : bool then
           title ← Py.get element_data "explanation" (PStr element_name);
           visual ← Py.getitem element_data "visual_element";
           mret (mcp_section +:+ "### " +:+ fmt w title +:+ nl +:+ nl
                 +:+ fmt w visual +:+ nl +:+ nl)
         else mret mcp_section);
      add_visuals w rest mcp_section
  end.

(** The section built by [_add_mcp_explanations]. *)
Definition mcp_section (w : world) (structured_data : pyval) : outcome string :=
  let mcp_section := mcp_section_header in
  has_mcp ← Py.contains "mcp_explanation" structured_data;
  mcp_section ←
    (if has_mcp : bool then
       mcp ← Py.getitem structured_data "mcp_explanation";
       explanation ← Py.get mcp "explanation" (PStr "");
       if Py.truthy explanation
       then text ← concat_str mcp_section explanation; mret (text +:+ nl +:+ nl)
       else mret mcp_section
     else mret mcp_section);
  has_constructs ← Py.contains "construct_explanations" structured_data;
  mcp_section ←
    (if has_constructs : bool then
       constructs ← Py.getitem structured_data "construct_explanations";
       construct_items ← items constructs;
       add_constructs w construct_items mcp_section
     else mret mcp_section);
  has_visuals ← Py.contains "visual_elements" structured_data;
  if has_visuals : bool then
    visuals ← Py.getitem structured_data "visual_elements";
    visual_items ← items visuals;
    add_visuals w visual_items mcp_section
  else mret mcp_section.

(** [_add_mcp_explanations]: the section is appended; an exception
    leaves the text as it is. *)
Definition _add_mcp_explanations (w : world) (documentation : string)
    (structured_data : pyval) : string :=
  match mcp_section w structured_data with
  | Returned section => documentation +:+ section
  | Raised e => documentation
  end.

(** The enrichment step: the enriched dictionary replaces the analysis;
    an exception (also the one met when the reply has no [keys]) keeps
    the analysis as it is. *)
Definition enriched (w : world) (structured_data audience_type : pyval) : pyval :=
  match enrich_cobol_documentation w structured_data audience_type with
  | Returned (PDict d) => PDict d
  | _ => structured_data
  end.

(** The text the provider chain gives for the documentation prompt. *)
Definition provider_documentation (w : world) (self : agent) (doc_prompt : prompt)
    (custom_instructions : string) : outcome string :=
  let current_provider := get_user_preference self "llm_provider" (PStr "groq") in
  let current_model :=
    get_user_preference self "llm_model" (PStr "llama-3.3-70b-versatile") in
  if provider_available w current_provider then
    generate_text w doc_prompt current_provider current_model
  else if Py.eq_str current_provider "groq" && has_groq_key w then
    match generate_with_groq w doc_prompt
            (if Py.truthy current_model then current_model
             else PStr "llama-3.1-8b-versatile") with
    | Returned documentation => mret documentation
    | Raised groq_error =>
        mret (_fallback_to_groq_for_documentation w doc_prompt custom_instructions)
    end
  else mret (_fallback_to_groq_for_documentation w doc_prompt custom_instructions).

(** The post-processing chain applied to the provider's text. *)
Definition post_process (w : world) (self : agent) (structured_data audience_type : pyval)
    (documentation : string) : outcome string :=
  let documentation :=
    if negb (Str.contains mermaid_marker documentation)
       || Py.truthy (get_user_preference self "enhanced_diagrams" (PBool false))
    then _enhance_with_diagrams w self documentation structured_data
    else documentation in
  with_explanations ←
    (if negb (Py.eq_str audience_type "technical")
     then Py.contains "construct_explanations" structured_data
     else mret false);
  let documentation :=
    if with_explanations : bool
    then _add_mcp_explanations w documentation structured_data
    else documentation in
  let documentation := _separate_thinking_process documentation in
  let documentation :=
    match enhance_markdown_with_tabs w documentation with
    | Returned tabbed => tabbed
    | Raised e => documentation
    end in
  mret documentation.

(** [generate_documentation]: the agent after the call and the outcome.
    As in [analyze_cobol_structure] the outer [except] re-raises. *)
Definition generate_documentation (w : world) (self : agent) (structured_data : pyval)
    : agent * outcome string :=
  match
    _ ← Py.get structured_data "program_id" (PStr "Unknown");
    _ ← _plan_documentation_sections w structured_data;
    let custom_instructions := documentation_instructions self in
    let audience_type := get_user_preference self "audience" (PStr "technical") in
    let structured_data := enriched w structured_data audience_type in
    has_mcp ← Py.contains "mcp_explanation" structured_data;
    mcp_context ←
      (if has_mcp : bool then
         mcp ← Py.getitem structured_data "mcp_explanation";
         explanation ← Py.get mcp "explanation" (PStr "");
         mret (nl +:+ nl +:+ "External knowledge about this COBOL program:" +:+ nl
               +:+ fmt w explanation +:+ nl)
       else mret "");
    let doc_prompt := DocumentationPrompt custom_instructions structured_data mcp_context in
    documentation ← provider_documentation w self doc_prompt custom_instructions;
    let _ := _evaluate_documentation_quality documentation in
    documentation ← post_process w self structured_data audience_type documentation;
    program_id ← Py.get structured_data "program_id" (PStr "Unknown");
    mret (documentation,
          PDict [("program_id", program_id);
                 ("doc_preview", PStr (Str.take 200 documentation +:+ "..."))])
  with
  | Raised e => (self, Raised e)
  | Returned (documentation, content) =>
      (remember self "documentation" content, Returned documentation)
  end.

(* ===================================================================== *)
(** ** Notions used to state the properties *)
(* ===================================================================== *)

(** A rubric: the criteria in the order they are checked, each with the
    note given when it is not met. *)
Definition rubric : Type := list (bool * string).

Definition satisfied (r : rubric) : nat := length (List.filter fst r).

Definition unmet_notes (r : rubric) : list string :=
  snd <$> List.filter (fun c => negb (fst c)) r.

(** The score of a rubric: the count of satisfied criteria, the level
    it gives and one note for each criterion that is not met. *)
Definition grade (r : rubric) : quality :=
  Quality (satisfied r) (level_of (satisfied r)) (unmet_notes r).

(** The values that have a length. *)
Definition sized (v : pyval) : bool :=
  match v with
  | PStr _ | PList _ | PDict _ => true
  | _ => false
  end.

Definition size (v : pyval) : nat :=
  match v with
  | PStr s => Str.len s
  | PList l => length l
  | PDict d => length d
  | _ => 0
  end.

(** A field is present and longer than [bound]. *)
Definition longer_than (d : Py.dict) (k : string) (bound : nat) : bool :=
  match Py.lookup k d with
  | Some v => Nat.ltb bound (size v)
  | None => false
  end.

(** The fields whose length the evaluator takes have one. *)
Definition sized_fields (d : Py.dict) : Prop :=
  forall k v, In k ["description"; "divisions"; "variables"; "flow_diagram"] ->
    Py.lookup k d = Some v -> sized v = true.

(** The five criteria on an analysis. *)
Definition analysis_rubric (d : Py.dict) : rubric :=
  [ (match Py.lookup "program_id" d with
     | Some v => negb (Py.eq_str v "Unknown")
     | None => false
     end, "Missing program ID");
    (longer_than d "description" 20, "Description missing or too short");
    (longer_than d "divisions" 0, "No divisions identified");
    (longer_than d "variables" 0, "No variables identified");
    (longer_than d "flow_diagram" 50, "Flow diagram missing or incomplete") ].

(** The five criteria on a documentation text: its length, the number
    of heading markers, a pair of code fences, a Mermaid fence, the
    number of words. *)
Definition documentation_rubric (documentation : string) : rubric :=
  [ (Nat.ltb 1000 (Str.len documentation), "Documentation is too short");
    (Nat.ltb 3 (Str.count "#" documentation), "Too few section headings");
    (Nat.leb 2 (Str.count "```" documentation), "No code examples included");
    (Str.contains mermaid_marker documentation, "No diagrams included");
    (Nat.ltb 300 (length (Str.split documentation)), "Insufficient explanation text") ].

(** *** What a pattern denotes

    [sem r i c rest g g']: at position [i], with [rest] following, the
    pattern [r] can match the text [c], turning the groups [g] into
    [g'].  This is the pattern read as a set of texts; the order in
    which [exec] tries the alternatives plays no part in it. *)
Inductive sem : Re.regex -> nat -> string -> string -> Re.groups -> Re.groups -> Prop :=
| sem_eps i rest g :
    sem Re.Eps i "" rest g g
| sem_chr p a i rest g :
    p a = true -> sem (Re.Chr p) i (String a "") rest g g
| sem_seq r1 r2 i c1 c2 rest g g1 g2 :
    sem r1 i c1 (c2 +:+ rest) g g1 ->
    sem r2 (i + Str.len c1) c2 rest g1 g2 ->
    sem (Re.Seq r1 r2) i (c1 +:+ c2) rest g g2
| sem_alt_l r1 r2 i c rest g g' :
    sem r1 i c rest g g' -> sem (Re.Alt r1 r2) i c rest g g'
| sem_alt_r r1 r2 i c rest g g' :
    sem r2 i c rest g g' -> sem (Re.Alt r1 r2) i c rest g g'
| sem_star p c i rest g :
    Str.all p c = true -> sem (Re.Star p) i c rest g g
| sem_lazy p c i rest g :
    Str.all p c = true -> sem (Re.LazyStar p) i c rest g g
| sem_group n r i c rest g g' :
    sem r i c rest g g' -> sem (Re.Group n r) i c rest g ((n, c) :: g')
| sem_bol rest g :
    sem Re.Bol 0 "" rest g g
| sem_eol i rest g :
    rest = "" \/ rest = nl -> sem Re.Eol i "" rest g g.

(** The pattern matches at the start of [s]. *)
Definition matches_prefix (r : Re.regex) (i : nat) (s : string) : Prop :=
  exists c rest g, s = c +:+ rest /\ sem r i c rest [] g.

(** Two texts are equal up to the case of their letters. *)
Fixpoint eq_i (a b : string) : bool :=
  match a, b with
  | "", "" => true
  | String x a', String y b' => Ascii.eqb (Char.lower x) (Char.lower y) && eq_i a' b'
  | _, _ => false
  end.

(** A blank text, and a name of the heuristic pre-parse. *)
Definition blank (s : string) : Prop := Str.all Char.is_space s = true.
Definition name_like (s : string) : Prop :=
  s <> "" /\ Str.all Char.is_word_or_dash s = true.

(** No two neighbours of the list are equal. *)
Definition adjacent_distinct (l : list string) : Prop :=
  forall i x y, l !! i = Some x -> l !! (S i) = Some y -> x <> y.

(** The text starts with a name, blanks and a DIVISION marker. *)
Definition division_at (s : string) : Prop :=
  exists name ws kw rest,
    s = name +:+ ws +:+ kw +:+ rest
    /\ name_like name /\ ws <> "" /\ blank ws /\ eq_i kw "DIVISION" = true.

(** The names a left-to-right scan gives: the leftmost place where a
    name is followed by a DIVISION marker gives the first name, and the
    scan goes on behind that marker.  Every match gives a name; none is
    dropped. *)
Inductive division_scan : string -> list string -> Prop :=
| scan_none s :
    (forall pre suf, s = pre +:+ suf -> ~ division_at suf) ->
    division_scan s []
| scan_match pre name ws kw rest names :
    name_like name -> ws <> "" -> blank ws -> eq_i kw "DIVISION" = true ->
    (forall pre' suf', pre +:+ name +:+ ws +:+ kw +:+ rest = pre' +:+ suf' ->
       Str.len pre' < Str.len pre -> ~ division_at suf') ->
    division_scan rest names ->
    division_scan (pre +:+ name +:+ ws +:+ kw +:+ rest) (name :: names).

(** The start of a line, as [(^|\n)] sees it at position [i]: the start
    of the text, or a newline. *)
Definition line_start (i : nat) (b : string) : Prop :=
  (b = "" /\ i = 0) \/ b = nl.

(** A top-level heading starts the text [s], which is at position [i]:
    a line start, [#] and at least one blank. *)
Definition heading_at (i : nat) (s : string) : Prop :=
  exists b ws rest,
    s = b +:+ "#" +:+ ws +:+ rest /\ line_start i b /\ ws <> "" /\ blank ws.

(** A title starts the text [s]: a top-level heading whose line ends
    with "Documentation" or goes on with "Documentation for", letters
    in either case. *)
Definition title_at (i : nat) (s : string) : Prop :=
  exists b ws x y rest,
    s = b +:+ "#" +:+ ws +:+ x +:+ y +:+ rest
    /\ line_start i b /\ ws <> "" /\ blank ws
    /\ ((Str.all Char.dot x = true /\ eq_i y "Documentation" = true)
        \/ (eq_i x "Documentation for" = true /\ Str.all Char.dot y = true))
    /\ (rest = "" \/ exists r, rest = nl +:+ r).

(** [P] holds at no position of the text, and at no position before
    the end of [pre]. *)
Definition nowhere (P : nat -> string -> Prop) (text : string) : Prop :=
  forall pre suf, text = pre +:+ suf -> ~ P (Str.len pre) suf.

Definition leftmost (P : nat -> string -> Prop) (text pre : string) : Prop :=
  forall pre' suf', text = pre' +:+ suf' -> Str.len pre' < Str.len pre ->
    ~ P (Str.len pre') suf'.

(** The text is cut at the end of [pre]: at the leftmost title if there
    is one, else at the leftmost top-level heading. *)
Definition cut_point (text pre main : string) : Prop :=
  text = pre +:+ main
  /\ ((title_at (Str.len pre) main /\ leftmost title_at text pre)
      \/ (nowhere title_at text /\ heading_at (Str.len pre) main
          /\ leftmost heading_at text pre)).

(** Modelled from the spec: [utils/mermaid_validator.py] is not among
    the sources.  The specification makes [validateOne] the judge of the
    five syntax rules: a diagram is valid when the validator accepts it
    and leaves it as it is. *)
Definition valid_diagram (w : world) (code : string) : Prop :=
  exists message, validate_mermaid_syntax w code = Returned (true, code, message).


Definition fence : string := "```".

(** The text has a fenced Mermaid block whose diagram is valid. *)
Definition has_valid_block (w : world) (text : string) : Prop :=
  exists before ws1 code ws2 after,
    text = before +:+ mermaid_marker +:+ ws1 +:+ code +:+ ws2 +:+ fence +:+ after
    /\ blank ws1 /\ blank ws2 /\ valid_diagram w code.

(** A Mermaid fence opens somewhere in the text and a fence closes it
    further on: a necessary condition for a fenced Mermaid block. *)
Fixpoint has_closed_block (text : string) : bool :=
  (Str.startswith mermaid_marker text
   && Str.contains fence (Str.drop (Str.len mermaid_marker) text))
  || match text with
     | "" => false
     | String _ text' => has_closed_block text'
     end.

(** *** Environments used in the examples *)

(** A validator: a diagram that declares its kind is accepted, any
    other is replaced by the placeholder. *)
Definition sample_validator (code : string) : outcome (bool * string * string) :=
  if Str.startswith "flowchart" code || Str.startswith "graph" code
  then Returned (true, code, "Valid")
  else Returned (false, default_diagram, "Replaced by the placeholder").

(** No provider is registered and no key is configured. *)
Definition offline : world :=
  World [] (fun _ _ _ => Raised (External "no provider"))
        None
        (fun _ _ => Raised (External "no key"))
        (fun _ _ => Raised (External "no key"))
        (fun _ => Raised JSONDecodeError)
        sample_validator
        (fun _ _ => Raised (External "enrichment unavailable"))
        (fun documentation => Returned documentation)
        (fun _ => "").

(** The provider "groq" is registered: [reply] is what it gives for the
    analysis or documentation prompt, [enhanced] what the Groq client
    gives, [loads] stands for [json.loads]. *)
Definition online (reply enhanced : outcome string) (loads : string -> outcome pyval)
    : world :=
  World ["groq"] (fun _ _ _ => reply)
        (Some "gsk")
        (fun _ _ => Raised (External "unused"))
        (fun _ _ => enhanced)
        loads
        sample_validator
        (fun _ _ => Raised (External "enrichment unavailable"))
        (fun documentation => Returned documentation)
        (fun _ => "").

(** [json.loads] on the two payloads of the examples. *)
Definition sample_loads (payload : string) : outcome pyval :=
  if String.eqb payload "{}" then Returned (PDict [])
  else Raised JSONDecodeError.

Definition sample_source : string :=
  "IDENTIFICATION DIVISION." +:+ nl +:+ "PROGRAM-ID. PAYROLL." +:+ nl +:+
  "PROCEDURE DIVISION." +:+ nl.

Definition sample_analysis : Py.dict :=
  [("program_id", PStr "PAYROLL");
   ("description", PStr "Computes the monthly payroll of every employee.");
   ("divisions", PDict [("PROCEDURE", PDict [])]);
   ("variables", PDict [("WS-TOTAL", PStr "running total")]);
   ("flow_diagram", PStr ("flowchart TD" +:+ nl +:+
      "    Start([Start]) --> Read[Read employee record]" +:+ nl +:+
      "    Read --> Pay[Compute pay]"))].

Definition diagram_ab : string := "flowchart TD" +:+ nl +:+ "    A --> B".
Definition diagram_cd : string := "flowchart TD" +:+ nl +:+ "    C --> D".

(** A documentation with two diagrams, and the enhanced text a provider
    gives for it, with one. *)
Definition two_diagrams : string :=
  "# Payroll" +:+ nl +:+ mermaid_block diagram_ab +:+ nl +:+ mermaid_block diagram_cd.

Definition one_diagram : string :=
  "# Payroll" +:+ nl +:+ mermaid_block diagram_ab.

(** A reply cut short inside its diagram: the block is never closed. *)
Definition truncated_reply : string :=
  "# Payroll Documentation" +:+ nl +:+ nl +:+ mermaid_marker +:+ nl +:+ diagram_ab.

(** The provider and the model a run uses, and the analysis prompt it
    sends for a structure. *)
Definition current_provider (self : agent) : pyval :=
  get_user_preference self "llm_provider" (PStr "groq").

Definition current_model (self : agent) : pyval :=
  get_user_preference self "llm_model" (PStr "llama-3.3-70b-versatile").

Definition analysis_prompt (self : agent) (cobol_code : string) (structure : pyval)
    : prompt :=
  AnalysisPrompt structure cobol_code (analysis_instructions self).

(** The analysis returned when no provider and no key is available, and
    the one returned when the reply cannot be parsed. *)
Definition error_analysis (program_id : string) (divisions : list string) : Py.dict :=
  [("program_id", PStr program_id);
   ("description", PStr no_api_key_description);
   ("divisions", PList (PStr <$> divisions));
   ("variables", PDict []);
   ("flow_diagram", PStr no_api_key_diagram)].

Definition fallback_analysis (program_id : string) (divisions : list string) : Py.dict :=
  [("program_id", PStr program_id);
   ("description", PStr parse_failure_description);
   ("divisions", PList (PStr <$> divisions))].

(** A callable of [re.sub] whose replacements all open a Mermaid fence. *)
Definition fenced_replacer {St : Type} (f : Re.rmatch -> St -> outcome (string * St))
    : Prop :=
  forall m st rep st', f m st = Returned (rep, st') ->
    Str.startswith mermaid_marker rep = true.

(** A text without blank characters. *)
Definition solid (m : string) : Prop :=
  m <> "" /\ Str.all (fun c => negb (Char.is_space c)) m = true.

(** Modelled from the spec: [utils/mermaid_viewer.py] is not among the
    sources.  The specification makes the tabbed view a purely additive
    markup transform: a Mermaid fence of its input is still in its
    output. *)
Definition tabs_additive (w : world) : Prop :=
  forall documentation tabbed,
    enhance_markdown_with_tabs w documentation = Returned tabbed ->
    Str.contains mermaid_marker documentation = true ->
    Str.contains mermaid_marker tabbed = true.

(** The body of a fenced block: the first closing fence after it is the
    one that follows it. *)
Definition fence_free (body : string) : Prop :=
  Str.contains fence (body +:+ "``") = false.


(** The diagrams of a text: the stripped content of the blocks that
    [mermaid_pattern] finds in it, from left to right. *)
Definition diagrams (text : string) : list string :=
  omap (fun m => Str.strip <$> Re.group m 1) (Re.finditer mermaid_pattern text).






(** A PROGRAM-ID paragraph starts the text: the marker with letters in
    either case, a full stop with blanks around it, and a name. *)
Definition program_id_at (s : string) : Prop :=
  exists kw ws1 ws2 id rest,
    s = kw +:+ ws1 +:+ "." +:+ ws2 +:+ id +:+ rest
    /\ eq_i kw "PROGRAM-ID" = true /\ blank ws1 /\ blank ws2 /\ name_like id.

(** The text cannot go on a name: it is empty, or starts with a
    character that is neither a word character nor a dash. *)
Definition ends_name (rest : string) : Prop :=
  match rest with
  | "" => True
  | String a _ => Char.is_word_or_dash a = false
  end.

(** No PROGRAM-ID paragraph starts anywhere in the text. *)
Definition no_program_id (cobol_code : string) : Prop :=
  forall pre suf, cobol_code = pre +:+ suf -> ~ program_id_at suf.

(** [id] is the identifier matched after the PROGRAM-ID marker: the
    name of the first PROGRAM-ID paragraph of the text, the whole of
    it, up to the first character that cannot go on a name. *)
Definition first_program_id (cobol_code id : string) : Prop :=
  exists pre kw ws1 ws2 rest,
    cobol_code = pre +:+ kw +:+ ws1 +:+ "." +:+ ws2 +:+ id +:+ rest
    /\ eq_i kw "PROGRAM-ID" = true /\ blank ws1 /\ blank ws2 /\ name_like id
    /\ ends_name rest
    /\ (forall pre' suf', cobol_code = pre' +:+ suf' -> Str.len pre' < Str.len pre ->
          ~ program_id_at suf').

(** What the pre-parse is to find in a text: the identifier of its
    first PROGRAM-ID paragraph, or "Unknown" when it has none. *)
Definition program_id_of (cobol_code program_id : string) : Prop :=
  (program_id = "Unknown" /\ no_program_id cobol_code)
  \/ first_program_id cobol_code program_id.

(** The structure the analysis works on: the one the caller passes, or,
    when that one is empty or [None], the skeleton of the pre-parse. *)
Definition used_structure (parsed_structure : pyval) (program_id : string)
    (divisions : list string) : pyval :=
  if Py.truthy parsed_structure then parsed_structure
  else PDict [("program_id", PStr program_id); ("divisions", PList (PStr <$> divisions))].

(** A structure a caller passes: the divisions of a parsed program. *)
Definition sample_structure : pyval :=
  PDict [("program_id", PStr "PAYROLL");
         ("divisions", PDict [("DATA", PDict []); ("PROCEDURE", PDict [])])].

(** [at_pos H]: the goal is [H] up to the arithmetic of the position. *)
Ltac at_pos H :=
  cbn [String.length] in H |- *;
  match type of H with
  | ?k ?b ?r ?g = ?x =>
      match goal with
      | |- k ?a r g = x => replace a with b by lia; exact H
      end
  end.

(* ===================================================================== *)
(** ** Notions used for the further properties *)
(* ===================================================================== *)

(** [run H]: one step of a computation known to return: the first call
    of [H] that can raise is split, and the raising case is closed. *)
Ltac run H :=
  lazymatch type of H with
  | context [mbind ?f ?c] =>
      destruct c eqn:?; cbn [mbind outcome_bind mret outcome_ret] in H;
      [| try discriminate H; try (by injection H)]
  end.

(** The names of the divisions of an analysis: the keys when the
    divisions are a dictionary (as the provider is asked to give them),
    the elements when they are a list of names (as the pre-parse gives
    them), none when the analysis has no divisions. *)
Definition divisions_named (d : Py.dict) (names : list string) : Prop :=
  match Py.lookup "divisions" d with
  | None => names = []
  | Some (PDict dv) => names = fst <$> dv
  | Some (PList l) => l = PStr <$> names
  | Some _ => False
  end.

(** [json.loads] on a reply that holds a JSON array. *)
Definition array_loads (payload : string) : outcome pyval :=
  if String.eqb payload "[]" then Returned (PList []) else Raised JSONDecodeError.

(** The last step of the post-processing: the tabbed view of a text, or
    the text itself when the viewer raises. *)
Definition tabbed (w : world) (documentation : string) : string :=
  match enhance_markdown_with_tabs w documentation with
  | Returned tabbed => tabbed
  | Raised e => documentation
  end.

(** A Groq key is configured, no provider is registered, and the Groq
    client raises [groq_error] on every call. *)
Definition failing_groq (groq_error : exn) : world :=
  World [] (fun _ _ _ => Raised (External "no provider"))
        (Some "gsk")
        (fun _ _ => Raised groq_error)
        (fun _ _ => Raised groq_error)
        (fun _ => Raised JSONDecodeError)
        sample_validator
        (fun _ _ => Raised (External "enrichment unavailable"))
        (fun documentation => Returned documentation)
        (fun _ => "").

(** A documentation text laid out as its diagram blocks: each block is
    the text that precedes it and the text between its fences; [tail]
    follows the last block. *)
Fixpoint document (blocks : list (string * string)) (tail : string) : string :=
  match blocks with
  | [] => tail
  | (gap, body) :: blocks' =>
      gap +:+ mermaid_marker +:+ body +:+ fence +:+ document blocks' tail
  end.

(** The layout is the one [mermaid_pattern] finds: no Mermaid fence
    outside the blocks, and no fence inside a block. *)
Definition well_fenced (blocks : list (string * string)) (tail : string) : Prop :=
  Forall (fun block => Str.contains mermaid_marker (fst block) = false
                       /\ fence_free (snd block)) blocks
  /\ Str.contains mermaid_marker tail = false.

(** Block by block: every block becomes what [h] gives for its stripped
    diagram, from left to right, and the text outside the blocks is
    kept. *)
Fixpoint replace_blocks {St : Type} (h : string -> St -> outcome (string * St))
    (blocks : list (string * string)) (tail : string) (st : St)
    : outcome (string * St) :=
  match blocks with
  | [] => mret (tail, st)
  | (gap, body) :: blocks' =>
      '(rep, st1) ← h (Str.strip body) st;
      '(out, st2) ← replace_blocks h blocks' tail st1;
      mret (gap +:+ rep +:+ out, st2)
  end.

(** What [validate_diagram] does with the stripped diagram of a match. *)
Definition validated_block (w : world) (mermaid_code : string) (has_valid_diagrams : bool)
    : outcome (string * bool) :=
  if negb (Str.truthy mermaid_code)
  then mret (mermaid_block default_diagram, has_valid_diagrams)
  else
    '(is_valid, corrected_code, message) ← validate_mermaid_syntax w mermaid_code;
    mret (mermaid_block corrected_code, true).

(** What [check_and_fix_diagram] does with the stripped diagram of a
    match. *)
Definition checked_block (w : world) (mermaid_code : string) (has_issues : bool)
    : outcome (string * bool) :=
  if negb (Str.truthy mermaid_code)
  then mret (mermaid_block default_diagram, true)
  else
    '(is_valid, corrected_code, message) ← validate_mermaid_syntax w mermaid_code;
    mret (mermaid_block corrected_code,
          if String.eqb corrected_code mermaid_code then has_issues else true).

(** A diagram the validator has nothing left to do on: it is not empty,
    has no blank around it and no fence inside, and the validator gives
    it back as it is. *)
Definition settled (w : world) (code : string) : Prop :=
  code <> "" /\ Str.strip code = code /\ fence_free (nl +:+ code +:+ nl)
  /\ exists is_valid message,
       validate_mermaid_syntax w code = Returned (is_valid, code, message).

(** A validator that accepts the two-line flowcharts of the examples and
    replaces any other diagram by the placeholder. *)
Definition strict_validator (code : string) : outcome (bool * string * string) :=
  if String.eqb code diagram_ab || String.eqb code default_diagram
  then Returned (true, code, "Valid")
  else Returned (false, default_diagram, "Replaced by the placeholder").

Definition strict : world :=
  World [] (fun _ _ _ => Raised (External "no provider"))
        None
        (fun _ _ => Raised (External "no key"))
        (fun _ _ => Raised (External "no key"))
        (fun _ => Raised JSONDecodeError)
        strict_validator
        (fun _ _ => Raised (External "enrichment unavailable"))
        (fun documentation => Returned documentation)
        (fun _ => "").



(** The agents that the methods of the class reach from a new one. *)
Inductive reachable : agent -> Prop :=
| reach_init : reachable init
| reach_set self key value :
    reachable self -> reachable (set_user_preference self key value)
| reach_remember self item_type content :
    reachable self -> reachable (remember self item_type content)
| reach_analyze w self cobol_code parsed_structure :
    reachable self ->
    reachable (fst (analyze_cobol_structure w self cobol_code parsed_structure))
| reach_generate w self structured_data :
    reachable self ->
    reachable (fst (generate_documentation w self structured_data)).


(* ===================================================================== *)
(** * Properties *)
(* ===================================================================== *)

(* ===================================================================== *)
(** ** Preferences *)
(* ===================================================================== *)

(** C10. A preference that was set is read back whatever the default;
    a key that was never set reads as the default; setting a key leaves
    every other key as it was.  Every key is accepted: both functions
    are total. *)
Theorem set_then_get_user_preference (self : agent) (k : string) (v d : pyval) :
  get_user_preference (set_user_preference self k v) k d = v
  /\ get_user_preference init k d = d
  /\ (forall k', user_preferences self !! k' = None -> get_user_preference self k' d = d)
  /\ (forall k', k' <> k ->
        user_preferences (set_user_preference self k v) !! k' = user_preferences self !! k'
        /\ get_user_preference (set_user_preference self k v) k' d
           = get_user_preference self k' d).
Proof.
  unfold get_user_preference, set_user_preference; simpl.
  repeat split.
  - by rewrite lookup_insert_eq.
  - intros k' Hk'. by rewrite Hk'.
  - by rewrite lookup_insert_ne.
  - by rewrite lookup_insert_ne.
Qed.

Lemma set_then_get_user_preference_witness :
  get_user_preference (set_user_preference init "audience" (PStr "business"))
    "audience" PNone = PStr "business"
  /\ get_user_preference init "detail_level" (PStr "medium") = PStr "medium"
  /\ get_user_preference (set_user_preference init "audience" (PStr "business"))
       "detail_level" (PStr "medium") = PStr "medium".
Proof.
  destruct (set_then_get_user_preference init "audience" (PStr "business") (PStr "medium"))
    as (_ & _ & Hunset & Hframe).
  split; [apply (set_then_get_user_preference init "audience" (PStr "business") PNone) |].
  split; [apply Hunset; reflexivity |].
  destruct (Hframe "detail_level") as [_ ->]; [discriminate |].
  apply Hunset; reflexivity.
Defined.

(* ===================================================================== *)
(** ** Quality evaluation *)
(* ===================================================================== *)

Lemma tally_chain (c1 c2 c3 c4 c5 : bool) (n1 n2 n3 n4 n5 : string) :
  let acc := tally c5 n5 (tally c4 n4 (tally c3 n3 (tally c2 n2 (tally c1 n1 (0, []))))) in
  Quality (fst acc) (level_of (fst acc)) (snd acc)
  = grade [(c1, n1); (c2, n2); (c3, n3); (c4, n4); (c5, n5)].
Proof. destruct c1, c2, c3, c4, c5; reflexivity. Qed.

Lemma present_and_longer_dict (d : Py.dict) (k : string) (dflt : pyval) (bound : nat) :
  (forall v, Py.lookup k d = Some v -> sized v = true) ->
  present_and_longer (PDict d) k dflt bound = Returned (longer_than d k bound).
Proof.
  intros Hsized. unfold present_and_longer, longer_than; simpl.
  destruct (Py.lookup k d) as [v|] eqn:Hk; simpl; [| reflexivity].
  specialize (Hsized v eq_refl). destruct v; try discriminate; reflexivity.
Qed.

Lemma has_program_id_dict (d : Py.dict) :
  has_program_id (PDict d)
  = Returned (match Py.lookup "program_id" d with
              | Some v => negb (Py.eq_str v "Unknown")
              | None => false
              end).
Proof.
  unfold has_program_id; simpl.
  destruct (Py.lookup "program_id" d) as [v|] eqn:Hk; reflexivity.
Qed.

Lemma analysis_quality_dict (d : Py.dict) :
  sized_fields d ->
  _evaluate_analysis_quality (PDict d) = Returned (grade (analysis_rubric d)).
Proof.
  intros Hsized. unfold _evaluate_analysis_quality.
  rewrite has_program_id_dict; simpl.
  rewrite !present_and_longer_dict;
    try (intros v Hv; apply (Hsized _ v) in Hv; [exact Hv | simpl; tauto]).
  simpl. unfold mret, outcome_ret. f_equal. apply tally_chain.
Qed.

Lemma documentation_quality_grade (documentation : string) :
  _evaluate_documentation_quality documentation
  = grade (documentation_rubric documentation).
Proof. unfold _evaluate_documentation_quality. apply tally_chain. Qed.

Lemma satisfied_le (r : rubric) : satisfied r <= length r.
Proof. unfold satisfied. apply List.filter_length_le. Qed.

Lemma satisfied_notes (r : rubric) :
  satisfied r + length (unmet_notes r) = length r.
Proof.
  unfold satisfied, unmet_notes. rewrite length_fmap.
  induction r as [|[[|] n] r IH]; simpl in *; lia.
Qed.

Lemma satisfied_all (r : rubric) :
  Forall (fun c => fst c = true) r -> satisfied r = length r.
Proof.
  unfold satisfied. induction 1 as [|[c n] r Hc _ IH]; simpl; [reflexivity |].
  simpl in Hc; subst c. simpl. lia.
Qed.

Lemma level_of_cases (n : nat) :
  (n < 2 -> level_of n = "low")
  /\ (2 <= n < 4 -> level_of n = "medium")
  /\ (4 <= n -> level_of n = "high").
Proof.
  unfold level_of. repeat split; intros H.
  - rewrite (proj2 (Nat.ltb_lt n 2)) by lia. reflexivity.
  - rewrite (proj2 (Nat.ltb_ge n 2)) by lia.
    rewrite (proj2 (Nat.ltb_lt n 4)) by lia. reflexivity.
  - rewrite (proj2 (Nat.ltb_ge n 2)) by lia.
    rewrite (proj2 (Nat.ltb_ge n 4)) by lia. reflexivity.
Qed.

(** C5. Both evaluators grade their five-criterion rubric: the score is
    the number of criteria met, the level is "low" below 2, "medium"
    below 4 and "high" from 4 on, and each criterion that is not met
    gives one note.  Five criteria met give score 5 and level "high";
    none or one gives level "low".  The analysis is a dictionary whose
    measured fields have a length. *)
Theorem quality_is_rubric_grade (d : Py.dict) (documentation : string) :
  sized_fields d ->
  let qa := grade (analysis_rubric d) in
  let qd := grade (documentation_rubric documentation) in
  _evaluate_analysis_quality (PDict d) = Returned qa
  /\ _evaluate_documentation_quality documentation = qd
  /\ Forall (fun q : quality =>
       quality_score q + length (quality_notes q) = 5
       /\ (quality_score q < 2 -> quality_level q = "low")
       /\ (2 <= quality_score q < 4 -> quality_level q = "medium")
       /\ (4 <= quality_score q -> quality_level q = "high")) [qa; qd]
  /\ (Forall (fun c => fst c = true) (analysis_rubric d) ->
        quality_score qa = 5 /\ quality_level qa = "high")
  /\ (Forall (fun c => fst c = true) (documentation_rubric documentation) ->
        quality_score qd = 5 /\ quality_level qd = "high").
Proof.
  intros Hsized qa qd.
  assert (Hgrade : forall r : rubric, length r = 5 ->
            quality_score (grade r) + length (quality_notes (grade r)) = 5
            /\ (quality_score (grade r) < 2 -> quality_level (grade r) = "low")
            /\ (2 <= quality_score (grade r) < 4 -> quality_level (grade r) = "medium")
            /\ (4 <= quality_score (grade r) -> quality_level (grade r) = "high")).
  { intros r Hr. simpl. rewrite satisfied_notes.
    split; [exact Hr | apply level_of_cases]. }
  assert (Hall : forall r : rubric, length r = 5 ->
            Forall (fun c => fst c = true) r ->
            quality_score (grade r) = 5 /\ quality_level (grade r) = "high").
  { intros r Hr Hforall. simpl. rewrite (satisfied_all r Hforall), Hr.
    split; reflexivity. }
  split; [apply analysis_quality_dict, Hsized |].
  split; [apply documentation_quality_grade |].
  split; [repeat constructor; apply Hgrade; reflexivity |].
  split; apply Hall; reflexivity.
Qed.

(* ===================================================================== *)
(** ** Strings *)
(* ===================================================================== *)

Lemma app_empty_r (s : string) : s +:+ "" = s.
Proof. induction s as [|a s IH]; simpl; [reflexivity | by rewrite IH]. Qed.

Lemma app_assoc_str (a b c : string) : (a +:+ b) +:+ c = a +:+ (b +:+ c).
Proof. induction a as [|x a IH]; simpl; [reflexivity | by rewrite IH]. Qed.

Lemma len_app (a b : string) : Str.len (a +:+ b) = Str.len a + Str.len b.
Proof. induction a as [|x a IH]; simpl; [reflexivity | by rewrite IH]. Qed.

Lemma len_zero (s : string) : Str.len s = 0 -> s = "".
Proof. destruct s; [reflexivity | discriminate]. Qed.

Lemma take_app_len (a b : string) : Str.take (Str.len a) (a +:+ b) = a.
Proof. induction a as [|x a IH]; simpl; [by destruct b | by rewrite IH]. Qed.

Lemma drop_app_len (a b : string) : Str.drop (Str.len a) (a +:+ b) = b.
Proof. induction a as [|x a IH]; simpl; [reflexivity | exact IH]. Qed.

Lemma take_drop (n : nat) (s : string) : Str.take n s +:+ Str.drop n s = s.
Proof.
  revert s; induction n as [|n IH]; intros [|a s]; simpl; try reflexivity.
  by rewrite IH.
Qed.

Lemma len_take (n : nat) (s : string) : n <= Str.len s -> Str.len (Str.take n s) = n.
Proof.
  revert s; induction n as [|n IH]; intros [|a s]; simpl; intros H; try reflexivity; try lia.
  rewrite IH; [reflexivity | lia].
Qed.

Lemma all_app (p : ascii -> bool) (a b : string) :
  Str.all p (a +:+ b) = Str.all p a && Str.all p b.
Proof.
  induction a as [|x a IH]; simpl; [reflexivity |].
  rewrite IH. by rewrite andb_assoc.
Qed.

Lemma app_inv_len (a b a' b' : string) :
  a +:+ b = a' +:+ b' -> Str.len a = Str.len a' -> a = a' /\ b = b'.
Proof.
  revert a'; induction a as [|x a IH]; intros [|x' a']; simpl; intros H Hl;
    try discriminate; [by split |].
  injection H as -> H. apply IH in H as [-> ->]; [by split | lia].
Qed.

(** Two ways of cutting one text: one cut is inside a part of the other. *)
Lemma app_eq_app (a b a' b' : string) :
  a +:+ b = a' +:+ b' ->
  (exists m, a' = a +:+ m /\ b = m +:+ b') \/ (exists m, a = a' +:+ m /\ b' = m +:+ b).
Proof.
  revert a'; induction a as [|x a IH]; intros a' H; simpl in *.
  - left. exists a'. by split.
  - destruct a' as [|x' a']; simpl in *.
    + right. exists (String x a). by split.
    + injection H as -> H. destruct (IH _ H) as [(m & -> & ->) | (m & -> & ->)].
      * left. by exists m.
      * right. by exists m.
Qed.

(* ===================================================================== *)
(** ** The matcher and what a pattern denotes *)
(* ===================================================================== *)

Section MatcherFacts.
Context {R : Type}.
Implicit Types (k : @Re.cont R) (s c rest : string) (g : Re.groups).

Lemma star_greedy_sound p k s : forall i g x,
  Re.star_greedy p k i s g = Some x ->
  exists c rest, s = c +:+ rest /\ Str.all p c = true /\ k (i + Str.len c) rest g = Some x.
Proof.
  induction s as [|a s IH]; simpl; intros i g x H.
  - exists "", "". repeat split; try done; at_pos H.
  - destruct (p a) eqn:Hp.
    + destruct (Re.star_greedy p k (S i) s g) as [y|] eqn:Hs.
      * injection H as ->. destruct (IH _ _ _ Hs) as (c & rest & -> & Hc & Hk).
        exists (String a c), rest. simpl. rewrite Hp, Hc.
        repeat split; try done; at_pos Hk.
      * exists "", (String a s). repeat split; try done; at_pos H.
    + exists "", (String a s). repeat split; try done; at_pos H.
Qed.

Lemma star_lazy_sound p k s : forall i g x,
  Re.star_lazy p k i s g = Some x ->
  exists c rest, s = c +:+ rest /\ Str.all p c = true /\ k (i + Str.len c) rest g = Some x
    /\ forall c' rest', s = c' +:+ rest' -> Str.len c' < Str.len c ->
         k (i + Str.len c') rest' g = None.
Proof.
  induction s as [|a s IH]; intros i g x H.
  - simpl in H. destruct (k i "" g) as [y|] eqn:Hk; [| discriminate].
    injection H as ->. exists "", "".
    repeat split; try done; [at_pos Hk |]. intros c' rest' _ Hlt. simpl in Hlt; lia.
  - simpl in H. destruct (k i (String a s) g) as [y|] eqn:Hk.
    + injection H as ->. exists "", (String a s).
      repeat split; try done; [at_pos Hk |]. intros c' rest' _ Hlt. simpl in Hlt; lia.
    + destruct (p a) eqn:Hp; [| discriminate].
      destruct (IH _ _ _ H) as (c & rest & -> & Hc & Hkc & Hmin).
      exists (String a c), rest. simpl. rewrite Hp, Hc.
      repeat split; try done; [at_pos Hkc |].
      intros [|a' c'] rest' Heq Hlt; simpl in Heq.
      * subst rest'. at_pos Hk.
      * injection Heq as <- Heq.
        assert (Hnone : k (S i + Str.len c') rest' g = None)
          by (apply Hmin; [exact Heq | simpl in Hlt; lia]).
        at_pos Hnone.
Qed.

Lemma star_greedy_here p k s i g x :
  k i s g = Some x -> exists y, Re.star_greedy p k i s g = Some y.
Proof.
  intros Hk. destruct s as [|a s]; simpl; [eauto |].
  destruct (p a); [| eauto].
  destruct (Re.star_greedy p k (S i) s g); eauto.
Qed.

Lemma star_greedy_complete p k c : forall i rest g x,
  Str.all p c = true -> k (i + Str.len c) rest g = Some x ->
  exists y, Re.star_greedy p k i (c +:+ rest) g = Some y.
Proof.
  induction c as [|a c IH]; simpl; intros i rest g x Hc Hk.
  - apply (star_greedy_here p k rest i g x). at_pos Hk.
  - apply andb_prop in Hc as [Hp Hc]. rewrite Hp.
    assert (Hk' : k (S i + Str.len c) rest g = Some x) by at_pos Hk.
    destruct (IH _ _ _ _ Hc Hk') as [y ->]. eauto.
Qed.

Lemma star_lazy_complete p k c : forall i rest g x,
  Str.all p c = true -> k (i + Str.len c) rest g = Some x ->
  exists y, Re.star_lazy p k i (c +:+ rest) g = Some y.
Proof.
  induction c as [|a c IH]; simpl; intros i rest g x Hc Hk.
  - assert (Hk' : k i rest g = Some x) by at_pos Hk.
    destruct rest; simpl; rewrite Hk'; eauto.
  - apply andb_prop in Hc as [Hp Hc]. rewrite Hp.
    assert (Hk' : k (S i + Str.len c) rest g = Some x) by at_pos Hk.
    destruct (k i (String a (c +:+ rest)) g); [eauto |].
    by eapply IH.
Qed.

End MatcherFacts.

(** Every match found by [exec] is one the pattern denotes. *)
Lemma exec_sound {R : Type} (r : Re.regex) : forall (k : @Re.cont R) i s g x,
  Re.exec r k i s g = Some x ->
  exists c rest g', s = c +:+ rest /\ sem r i c rest g g'
    /\ k (i + Str.len c) rest g' = Some x.
Proof.
  induction r as [|p|r1 IH1 r2 IH2|r1 IH1 r2 IH2|p|p|n r IH| |];
    intros k i s g x H; simpl in H.
  - exists "", s, g. split; [done |]. split; [constructor | at_pos H].
  - destruct s as [|a s]; [discriminate |]. destruct (p a) eqn:Hp; [| discriminate].
    exists (String a ""), s, g. split; [done |]. split; [by constructor | at_pos H].
  - destruct (IH1 _ _ _ _ _ H) as (c1 & rest1 & g1 & -> & H1 & H').
    destruct (IH2 _ _ _ _ _ H') as (c2 & rest & g2 & -> & H2 & Hk).
    exists (c1 +:+ c2), rest, g2. rewrite app_assoc_str, len_app.
    split; [done |]. split; [by econstructor | at_pos Hk].
  - destruct (Re.exec r1 k i s g) as [y|] eqn:H1.
    + injection H as ->. destruct (IH1 _ _ _ _ _ H1) as (c & rest & g' & -> & Hs & Hk).
      exists c, rest, g'. split; [done |]. split; [by apply sem_alt_l | done].
    + destruct (IH2 _ _ _ _ _ H) as (c & rest & g' & -> & Hs & Hk).
      exists c, rest, g'. split; [done |]. split; [by apply sem_alt_r | done].
  - destruct (star_greedy_sound _ _ _ _ _ _ H) as (c & rest & -> & Hc & Hk).
    exists c, rest, g. split; [done |]. split; [by constructor | done].
  - destruct (star_lazy_sound _ _ _ _ _ _ H) as (c & rest & -> & Hc & Hk & _).
    exists c, rest, g. split; [done |]. split; [by constructor | done].
  - destruct (IH _ _ _ _ _ H) as (c & rest & g' & -> & Hs & Hk).
    exists c, rest, ((n, c) :: g'). split; [done |]. split; [by constructor |].
    replace (i + Str.len c - i) with (Str.len c) in Hk by lia.
    by rewrite take_app_len in Hk.
  - destruct (Nat.eqb i 0) eqn:Hi; [| discriminate]. apply Nat.eqb_eq in Hi as ->.
    exists "", s, g. split; [done |]. split; [constructor | done].
  - exists "", s, g.
    destruct s as [|a [|b s]]; try discriminate.
    + split; [done |]. split; [constructor; by left | at_pos H].
    + destruct (Ascii.eqb a "010") eqn:Ha; [| discriminate].
      apply Ascii.eqb_eq in Ha as ->.
      split; [done |]. split; [constructor; by right | at_pos H].
Qed.

(** Every match the pattern denotes makes [exec] succeed, possibly on a
    match it tries earlier. *)
Lemma exec_complete {R : Type} (r : Re.regex) i c rest g g' :
  sem r i c rest g g' ->
  forall (k : @Re.cont R) x, k (i + Str.len c) rest g' = Some x ->
  exists y, Re.exec r k i (c +:+ rest) g = Some y.
Proof.
  induction 1 as [i rest g|p a i rest g Hp|r1 r2 i c1 c2 rest g g1 g2 _ IH1 _ IH2
                 |r1 r2 i c rest g g' _ IH|r1 r2 i c rest g g' _ IH
                 |p c i rest g Hc|p c i rest g Hc|n r i c rest g g' _ IH
                 |rest g|i rest g Hrest]; intros k x Hk; simpl.
  - exists x. at_pos Hk.
  - rewrite Hp. exists x. at_pos Hk.
  - rewrite len_app in Hk.
    assert (Hk' : k (i + Str.len c1 + Str.len c2) rest g2 = Some x) by at_pos Hk.
    destruct (IH2 _ _ Hk') as [y Hy].
    rewrite app_assoc_str. by eapply IH1.
  - destruct (IH _ _ Hk) as [y ->]. eauto.
  - destruct (Re.exec r1 k i (c +:+ rest) g); [eauto |]. by eapply IH.
  - by eapply star_greedy_complete.
  - by eapply star_lazy_complete.
  - eapply IH.
    replace (i + Str.len c - i) with (Str.len c) by lia.
    rewrite take_app_len. exact Hk.
  - eauto.
  - exists x. destruct Hrest as [-> | ->]; simpl; at_pos Hk.
Qed.

Lemma match_at_sound (r : Re.regex) (i : nat) (s : string) (m : Re.rmatch) :
  Re.match_at r i s = Some m ->
  exists c rest g, s = c +:+ rest /\ sem r i c rest [] g
    /\ m = Re.Match i (i + Str.len c) g.
Proof.
  intros H. destruct (exec_sound _ _ _ _ _ _ H) as (c & rest & g & -> & Hs & Hk).
  exists c, rest, g. injection Hk as <-. by repeat split.
Qed.

Lemma match_at_complete (r : Re.regex) (i : nat) (c rest : string) (g : Re.groups) :
  sem r i c rest [] g -> exists m, Re.match_at r i (c +:+ rest) = Some m.
Proof. intros Hs. by eapply (exec_complete _ _ _ _ _ _ Hs). Qed.

Lemma match_at_none (r : Re.regex) (i : nat) (s : string) :
  Re.match_at r i s = None -> ~ matches_prefix r i s.
Proof.
  intros H (c & rest & g & -> & Hs).
  destruct (match_at_complete _ _ _ _ _ Hs) as [m Hm]. congruence.
Qed.

(** [re.search] finds the match at the leftmost position that has one. *)
Lemma search_from_sound (r : Re.regex) (s : string) : forall i m,
  Re.search_from r i s = Some m ->
  exists pre suf, s = pre +:+ suf /\ Re.match_at r (i + Str.len pre) suf = Some m
    /\ forall pre' suf', s = pre' +:+ suf' -> Str.len pre' < Str.len pre ->
         Re.match_at r (i + Str.len pre') suf' = None.
Proof.
  induction s as [|a s IH]; intros i m H; simpl in H.
  - destruct (Re.match_at r i "") as [m'|] eqn:Hm; [| discriminate].
    injection H as ->. exists "", "". simpl. rewrite Nat.add_0_r.
    repeat split; try done. intros; lia.
  - destruct (Re.match_at r i (String a s)) as [m'|] eqn:Hm.
    + injection H as ->. exists "", (String a s). simpl. rewrite Nat.add_0_r.
      repeat split; try done. intros; lia.
    + destruct (IH _ _ H) as (pre & suf & -> & Hmatch & Hleft).
      exists (String a pre), suf. simpl.
      rewrite Nat.add_succ_r. repeat split; try done.
      intros [|a' pre'] suf' Heq Hlt; simpl in *.
      * subst suf'. by rewrite Nat.add_0_r.
      * injection Heq as <- Heq. rewrite Nat.add_succ_r.
        apply (Hleft pre' suf' Heq). lia.
Qed.

Lemma search_from_none (r : Re.regex) (s : string) : forall i,
  Re.search_from r i s = None ->
  forall pre suf, s = pre +:+ suf -> Re.match_at r (i + Str.len pre) suf = None.
Proof.
  induction s as [|a s IH]; intros i H pre suf Heq; simpl in H.
  - destruct pre; [| discriminate]. simpl in Heq; subst suf. simpl.
    rewrite Nat.add_0_r. by destruct (Re.match_at r i "").
  - destruct (Re.match_at r i (String a s)) as [m'|] eqn:Hm; [discriminate |].
    destruct pre as [|a' pre]; simpl in *.
    + subst suf. by rewrite Nat.add_0_r.
    + injection Heq as <- Heq. rewrite Nat.add_succ_r. by apply (IH (S i)).
Qed.

(** The matches of [re.finditer] are matches at positions of the text. *)
Lemma finditer_from_in (r : Re.regex) (s : string) : forall i skip m,
  In m (Re.finditer_from r i skip s) ->
  exists pre suf, s = pre +:+ suf /\ Re.match_at r (i + Str.len pre) suf = Some m.
Proof.
  induction s as [|a s IH]; intros i skip m H; simpl in H.
  - destruct skip; [| done]. destruct (Re.match_at r i "") as [m'|] eqn:Hm; [| done].
    destruct H as [<- | []]. exists "", "". simpl. by rewrite Nat.add_0_r.
  - assert (Hrec : forall n, In m (Re.finditer_from r (S i) n s) ->
              exists pre suf, String a s = pre +:+ suf
                /\ Re.match_at r (i + Str.len pre) suf = Some m).
    { intros n Hin. destruct (IH _ _ _ Hin) as (pre & suf & -> & Hm).
      exists (String a pre), suf. simpl. by rewrite Nat.add_succ_r. }
    destruct skip; [| by eapply Hrec].
    destruct (Re.match_at r i (String a s)) as [m'|] eqn:Hm; [| by eapply Hrec].
    destruct H as [<- | H]; [| by eapply Hrec].
    exists "", (String a s). simpl. by rewrite Nat.add_0_r.
Qed.

(* ===================================================================== *)
(** ** Reading a pattern *)
(* ===================================================================== *)

Lemma sem_eps_inv i c rest g g' :
  sem Re.Eps i c rest g g' -> c = "" /\ g' = g.
Proof. by inversion 1. Qed.

Lemma sem_chr_inv p i c rest g g' :
  sem (Re.Chr p) i c rest g g' -> exists a, c = String a "" /\ p a = true /\ g' = g.
Proof. inversion 1; subst. by eexists. Qed.

Lemma sem_seq_inv r1 r2 i c rest g g2 :
  sem (Re.Seq r1 r2) i c rest g g2 ->
  exists c1 c2 g1, c = c1 +:+ c2 /\ sem r1 i c1 (c2 +:+ rest) g g1
    /\ sem r2 (i + Str.len c1) c2 rest g1 g2.
Proof. inversion 1; subst. by do 3 eexists. Qed.

Lemma sem_alt_inv r1 r2 i c rest g g' :
  sem (Re.Alt r1 r2) i c rest g g' -> sem r1 i c rest g g' \/ sem r2 i c rest g g'.
Proof. inversion 1; subst; [by left | by right]. Qed.

Lemma sem_star_inv p i c rest g g' :
  sem (Re.Star p) i c rest g g' -> Str.all p c = true /\ g' = g.
Proof. by inversion 1. Qed.

Lemma sem_lazy_inv p i c rest g g' :
  sem (Re.LazyStar p) i c rest g g' -> Str.all p c = true /\ g' = g.
Proof. by inversion 1. Qed.

Lemma sem_group_inv n r i c rest g g' :
  sem (Re.Group n r) i c rest g g' -> exists g1, sem r i c rest g g1 /\ g' = (n, c) :: g1.
Proof. inversion 1; subst. by eexists. Qed.

Lemma sem_bol_inv i c rest g g' :
  sem Re.Bol i c rest g g' -> c = "" /\ i = 0 /\ g' = g.
Proof. by inversion 1. Qed.

Lemma sem_eol_inv i c rest g g' :
  sem Re.Eol i c rest g g' -> c = "" /\ (rest = "" \/ rest = nl) /\ g' = g.
Proof. by inversion 1. Qed.

Lemma sem_plus_inv p i c rest g g' :
  sem (Re.Plus p) i c rest g g' -> c <> "" /\ Str.all p c = true /\ g' = g.
Proof.
  intros H. apply sem_seq_inv in H as (c1 & c2 & g1 & -> & H1 & H2).
  apply sem_chr_inv in H1 as (a & -> & Hp & ->).
  apply sem_star_inv in H2 as (Hc & ->).
  simpl. rewrite Hp, Hc. by repeat split.
Qed.

Lemma sem_lit_inv p : forall i c rest g g',
  sem (Re.lit p) i c rest g g' -> c = p /\ g' = g.
Proof.
  induction p as [|x p IH]; intros i c rest g g' H; simpl in H.
  - by apply sem_eps_inv in H.
  - apply sem_seq_inv in H as (c1 & c2 & g1 & -> & H1 & H2).
    apply sem_chr_inv in H1 as (a & -> & Hp & ->).
    apply IH in H2 as (-> & ->).
    apply Ascii.eqb_eq in Hp as ->. by split.
Qed.

Lemma sem_lit_i_inv p : forall i c rest g g',
  sem (Re.lit_i p) i c rest g g' -> eq_i c p = true /\ g' = g.
Proof.
  induction p as [|x p IH]; intros i c rest g g' H; simpl in H.
  - by apply sem_eps_inv in H as [-> ->].
  - apply sem_seq_inv in H as (c1 & c2 & g1 & -> & H1 & H2).
    apply sem_chr_inv in H1 as (a & -> & Hp & ->).
    apply IH in H2 as (Hc & ->).
    simpl. unfold Char.exactly_i in Hp. rewrite Hp, Hc. by split.
Qed.

Lemma sem_lit p i rest g : sem (Re.lit p) i p rest g g.
Proof.
  revert i; induction p as [|x p IH]; intros i; simpl; [constructor |].
  apply (sem_seq _ _ _ (String x "") p rest g g g); [| apply IH].
  constructor. apply Ascii.eqb_refl.
Qed.

Lemma sem_lit_i p : forall c i rest g,
  eq_i c p = true -> sem (Re.lit_i p) i c rest g g.
Proof.
  induction p as [|x p IH]; intros [|a c] i rest g H; simpl in H; try discriminate.
  - constructor.
  - apply andb_prop in H as [Ha Hc]. simpl.
    apply (sem_seq _ _ _ (String a "") c rest g g g); [| by apply IH].
    by constructor.
Qed.

Lemma sem_plus p c i rest g :
  c <> "" -> Str.all p c = true -> sem (Re.Plus p) i c rest g g.
Proof.
  destruct c as [|a c]; [done |]. intros _ H. simpl in H.
  apply andb_prop in H as [Ha Hc].
  apply (sem_seq _ _ _ (String a "") c rest g g g); by constructor.
Qed.

(* ===================================================================== *)
(** ** Character classes and stripping *)
(* ===================================================================== *)

Lemma word_or_dash_not_space (c : ascii) :
  Char.is_word_or_dash c = true -> Char.is_space c = false.
Proof.
  destruct c as [[|] [|] [|] [|] [|] [|] [|] [|]]; vm_compute; congruence.
Qed.

Lemma lstrip_no_space (a : ascii) (s : string) :
  Char.is_space a = false -> Str.lstrip (String a s) = String a s.
Proof. intros H. simpl. by rewrite H. Qed.

Lemma rstrip_all (p : ascii -> bool) (s : string) :
  (forall c, p c = true -> Char.is_space c = false) ->
  Str.all p s = true -> Str.rstrip s = s.
Proof.
  intros Hp. induction s as [|a s IH]; simpl; [done |].
  intros H. apply andb_prop in H as [Ha Hs]. rewrite (IH Hs).
  destruct s; [by rewrite (Hp _ Ha) | done].
Qed.

Lemma strip_all (p : ascii -> bool) (s : string) :
  (forall c, p c = true -> Char.is_space c = false) ->
  Str.all p s = true -> Str.strip s = s.
Proof.
  intros Hp H. unfold Str.strip.
  destruct s as [|a s]; [done |].
  rewrite lstrip_no_space; [by eapply rstrip_all |].
  simpl in H. apply andb_prop in H as [Ha _]. by apply Hp.
Qed.

Lemma strip_name (s : string) : name_like s -> Str.strip s = s.
Proof. intros [_ H]. eapply strip_all; [apply word_or_dash_not_space | exact H]. Qed.

(* ===================================================================== *)
(** ** The heuristic pre-parse *)
(* ===================================================================== *)

(** What [program_id_pattern] denotes. *)
Lemma program_id_sem i c rest g :
  sem program_id_pattern i c rest [] g ->
  exists kw ws1 ws2 id,
    c = kw +:+ ws1 +:+ "." +:+ ws2 +:+ id
    /\ eq_i kw "PROGRAM-ID" = true /\ blank ws1 /\ blank ws2 /\ name_like id
    /\ g = [(1, id)].
Proof.
  unfold program_id_pattern. intros H.
  apply sem_seq_inv in H as (kw & c1 & g1 & -> & Hkw & H).
  apply sem_lit_i_inv in Hkw as (Hkw & ->).
  apply sem_seq_inv in H as (ws1 & c2 & g2 & -> & Hws1 & H).
  apply sem_star_inv in Hws1 as (Hws1 & ->).
  apply sem_seq_inv in H as (dot & c3 & g3 & -> & Hdot & H).
  apply sem_chr_inv in Hdot as (a & -> & Ha & ->).
  apply Ascii.eqb_eq in Ha as ->.
  apply sem_seq_inv in H as (ws2 & id & g4 & -> & Hws2 & H).
  apply sem_star_inv in Hws2 as (Hws2 & ->).
  apply sem_group_inv in H as (g5 & H & ->).
  apply sem_plus_inv in H as (Hne & Hid & ->).
  exists kw, ws1, ws2, id. by repeat split.
Qed.

(** What [division_pattern] denotes. *)
Lemma division_sem i c rest g :
  sem division_pattern i c rest [] g ->
  exists name ws kw,
    c = name +:+ ws +:+ kw
    /\ name_like name /\ ws <> "" /\ blank ws /\ eq_i kw "DIVISION" = true
    /\ g = [(1, name)].
Proof.
  unfold division_pattern. intros H.
  apply sem_seq_inv in H as (name & c1 & g1 & -> & Hname & H).
  apply sem_group_inv in Hname as (g0 & Hname & ->).
  apply sem_plus_inv in Hname as (Hne & Hname & ->).
  apply sem_seq_inv in H as (ws & kw & g2 & -> & Hws & H).
  apply sem_plus_inv in Hws as (Hwsne & Hws & ->).
  apply sem_lit_i_inv in H as (Hkw & ->).
  exists name, ws, kw. by repeat split.
Qed.

Lemma exec_seq {R : Type} (r1 r2 : Re.regex) (k : @Re.cont R) i s g :
  Re.exec (r1 >> r2) k i s g = Re.exec r1 (Re.exec r2 k) i s g.
Proof. reflexivity. Qed.

(** The longest name a text starts with. *)
Lemma name_run (s : string) :
  exists run rest,
    s = run +:+ rest /\ Str.all Char.is_word_or_dash run = true /\ ends_name rest.
Proof.
  induction s as [|a s IH]; [by exists "", "" |].
  destruct (Char.is_word_or_dash a) eqn:Ha.
  - destruct IH as (run & rest & -> & Hrun & Hrest).
    exists (String a run), rest. simpl. by rewrite Ha, Hrun.
  - by exists "", (String a s).
Qed.

Section GreedyRun.
Context {R : Type}.

(** A greedy star takes the whole run when what follows is accepted. *)
Lemma star_greedy_run (p : ascii -> bool) (k : @Re.cont R) (run : string) :
  forall t i g x,
    Str.all p run = true ->
    k (i + Str.len run) t g = Some x ->
    Re.star_greedy p k i (run +:+ t) g = Some x
    \/ (exists a t', t = String a t' /\ p a = true).
Proof.
  induction run as [|c run IH]; intros t i g x Hrun Hk.
  - cbn [String.append String.length] in *. rewrite Nat.add_0_r in Hk.
    destruct t as [|a t']; [by left |]. cbn [Re.star_greedy].
    destruct (p a) eqn:Ha; [right; by eexists _, _ | by left].
  - cbn [Str.all] in Hrun. apply andb_prop in Hrun as [Hc Hrun].
    cbn [String.append Re.star_greedy]. rewrite Hc.
    destruct (IH t (S i) g x Hrun) as [-> | Hnext]; [| by left | by right].
    by replace (S i + Str.len run) with (i + Str.len (String c run)) by (simpl; lia).
Qed.

Lemma exec_lit_i_app (p : string) : forall (k : @Re.cont R) kw i t g,
  eq_i kw p = true ->
  Re.exec (Re.lit_i p) k i (kw +:+ t) g = k (i + Str.len kw) t g.
Proof.
  induction p as [|x p IH]; intros k [|a kw] i t g H; simpl in H; try discriminate.
  - simpl. by rewrite Nat.add_0_r.
  - apply andb_prop in H as [Ha Hkw].
    cbn [Re.lit_i Re.exec String.append]. unfold Char.exactly_i. rewrite Ha.
    rewrite IH by done. f_equal. simpl. lia.
Qed.

End GreedyRun.

(** The match of [program_id_pattern] on a PROGRAM-ID paragraph whose
    name ends where the text says: the group is the whole name. *)
Lemma program_id_match (i : nat) (kw ws1 ws2 id rest : string) :
  eq_i kw "PROGRAM-ID" = true -> blank ws1 -> blank ws2 -> name_like id ->
  ends_name rest ->
  exists e,
    Re.match_at program_id_pattern i (kw +:+ ws1 +:+ "." +:+ ws2 +:+ id +:+ rest)
    = Some (Re.Match i e [(1, id)]).
Proof.
  intros Hkw Hws1 Hws2 [Hne Hid] Hrest.
  unfold Re.match_at, program_id_pattern.
  rewrite exec_seq, exec_lit_i_app by done. rewrite exec_seq.
  cbn [Re.exec].
  destruct id as [|a id]; [done |]. cbn [Str.all] in Hid.
  apply andb_prop in Hid as [Ha Hid].
  set (k3 := fun (i' : nat) (s' : string) (g' : Re.groups) =>
               Some (Re.Match i i'
                       ((1, Str.take (i' - (i + Str.len kw + Str.len ws1 + 1 + Str.len ws2))
                              (String a id +:+ rest)) :: g'))).
  assert (H3 : Re.star_greedy Char.is_word_or_dash k3
                 (S (i + Str.len kw + Str.len ws1 + 1 + Str.len ws2)) (id +:+ rest) []
               = Some (Re.Match i (S (i + Str.len kw + Str.len ws1 + 1 + Str.len ws2)
                                   + Str.len id) [(1, String a id)])).
  { destruct (star_greedy_run Char.is_word_or_dash k3 id rest
                (S (i + Str.len kw + Str.len ws1 + 1 + Str.len ws2)) []
                (Re.Match i (S (i + Str.len kw + Str.len ws1 + 1 + Str.len ws2)
                             + Str.len id) [(1, String a id)]) Hid)
      as [H | (b & t' & -> & Hb)]; [| done |].
    - unfold k3. do 3 f_equal.
      replace (S (i + Str.len kw + Str.len ws1 + 1 + Str.len ws2) + Str.len id
               - (i + Str.len kw + Str.len ws1 + 1 + Str.len ws2))
        with (Str.len (String a id)) by (simpl; lia).
      by rewrite take_app_len.
    - simpl in Hrest. congruence. }
  set (k2 := fun (i' : nat) (s' : string) (g' : Re.groups) =>
               match s' with
               | String c s'' =>
                   if Char.is_word_or_dash c
                   then Re.star_greedy Char.is_word_or_dash
                          (fun i'' t g'' =>
                             Some (Re.Match i i'' ((1, Str.take (i'' - i') s') :: g'')))
                          (S i') s'' g'
                   else None
               | "" => None
               end).
  assert (H2 : Re.star_greedy Char.is_space k2 (i + Str.len kw + Str.len ws1 + 1)
                 (ws2 +:+ String a id +:+ rest) []
               = Some (Re.Match i (S (i + Str.len kw + Str.len ws1 + 1 + Str.len ws2)
                                   + Str.len id) [(1, String a id)])).
  { destruct (star_greedy_run Char.is_space k2 ws2 (String a id +:+ rest)
                (i + Str.len kw + Str.len ws1 + 1) []
                (Re.Match i (S (i + Str.len kw + Str.len ws1 + 1 + Str.len ws2)
                             + Str.len id) [(1, String a id)]) Hws2)
      as [H | (b & t' & Hb & Hsp)]; [| done |].
    - unfold k2. cbn [String.append]. rewrite Ha. exact H3.
    - cbn [String.append] in Hb. injection Hb as <- _.
      by rewrite (word_or_dash_not_space _ Ha) in Hsp. }
  eexists.
  destruct (star_greedy_run Char.is_space
              (fun i' s' g' =>
                 match s' with
                 | String c s'' =>
                     if Char.exactly "." c then Re.star_greedy Char.is_space
                       (fun i2 s2 g2 =>
                          match s2 with
                          | String c2 s2' =>
                              if Char.is_word_or_dash c2
                              then Re.star_greedy Char.is_word_or_dash
                                     (fun i3 t g3 =>
                                        Some (Re.Match i i3
                                                ((1, Str.take (i3 - i2) s2) :: g3)))
                                     (S i2) s2' g2
                              else None
                          | "" => None
                          end) (S i') s'' g'
                     else None
                 | "" => None
                 end)
              ws1 ("." +:+ ws2 +:+ String a id +:+ rest) (i + Str.len kw) []
              (Re.Match i (S (i + Str.len kw + Str.len ws1 + 1 + Str.len ws2)
                           + Str.len id) [(1, String a id)]) Hws1)
    as [H | (b & t' & Hb & Hsp)].
  - cbn [String.append]. unfold Char.exactly. rewrite Ascii.eqb_refl.
    replace (S (i + Str.len kw + Str.len ws1))
      with (i + Str.len kw + Str.len ws1 + 1) by lia.
    exact H2.
  - exact H.
  - cbn [String.append] in Hb. injection Hb as <- _. discriminate Hsp.
Qed.

(** Where a PROGRAM-ID paragraph starts, the pattern matches, and its
    group is the whole name of the paragraph. *)
Lemma program_id_at_match (i : nat) (s : string) :
  program_id_at s ->
  exists kw ws1 ws2 id rest e,
    s = kw +:+ ws1 +:+ "." +:+ ws2 +:+ id +:+ rest
    /\ eq_i kw "PROGRAM-ID" = true /\ blank ws1 /\ blank ws2 /\ name_like id
    /\ ends_name rest
    /\ Re.match_at program_id_pattern i s = Some (Re.Match i e [(1, id)]).
Proof.
  intros (kw & ws1 & ws2 & id0 & rest0 & -> & Hkw & Hws1 & Hws2 & [Hne Hid0]).
  destruct (name_run rest0) as (run & rest & -> & Hrun & Hrest).
  assert (Hid : name_like (id0 +:+ run)).
  { split; [by destruct id0 | by rewrite all_app, Hid0, Hrun]. }
  destruct (program_id_match i kw ws1 ws2 (id0 +:+ run) rest Hkw Hws1 Hws2 Hid Hrest)
    as [e Hm].
  exists kw, ws1, ws2, (id0 +:+ run), rest, e.
  rewrite !app_assoc_str in Hm |- *. do 6 (split; [done |]). exact Hm.
Qed.

Lemma program_id_none (suf : string) (i : nat) :
  Re.match_at program_id_pattern i suf = None -> ~ program_id_at suf.
Proof.
  intros Hnone Hat.
  destruct (program_id_at_match i suf Hat) as (kw & ws1 & ws2 & id & rest & e & _ & Hm).
  destruct Hm as (_ & _ & _ & _ & _ & Hm). by rewrite Hnone in Hm.
Qed.

Lemma program_id_some (suf : string) (i : nat) (m : Re.rmatch) :
  Re.match_at program_id_pattern i suf = Some m -> program_id_at suf.
Proof.
  intros Hm.
  destruct (match_at_sound _ _ _ _ Hm) as (c & rest & g & -> & Hsem & _).
  destruct (program_id_sem _ _ _ _ Hsem)
    as (kw & ws1 & ws2 & id & -> & Hkw & Hws1 & Hws2 & Hid & _).
  exists kw, ws1, ws2, id, rest.
  split; [rewrite !app_assoc_str; simpl; by rewrite ?app_assoc_str | done].
Qed.

(** [_extract_program_id] returns on every text: the name of the first
    PROGRAM-ID paragraph, or "Unknown" when the text has none. *)
Lemma extract_program_id_cases (cobol_code : string) :
  exists program_id,
    _extract_program_id cobol_code = Returned program_id
    /\ program_id_of cobol_code program_id.
Proof.
  unfold _extract_program_id, Re.search.
  destruct (Re.search_from program_id_pattern 0 cobol_code) as [m|] eqn:Hsearch.
  - destruct (search_from_sound _ _ _ _ Hsearch) as (pre & suf & -> & Hm & Hmin).
    destruct (program_id_at_match (0 + Str.len pre) suf (program_id_some _ _ _ Hm))
      as (kw & ws1 & ws2 & id & rest & e & -> & Hkw & Hws1 & Hws2 & Hid & Hrest & Hm').
    rewrite Hm' in Hm. injection Hm as <-.
    exists id. unfold group_strip, Re.group. cbn [Re.m_groups Re.group_of Nat.eqb].
    rewrite (strip_name _ Hid). split; [done |]. right.
    exists pre, kw, ws1, ws2, rest. repeat split; try done; try by destruct Hid.
    intros pre' suf' Heq Hlt. eapply program_id_none. by apply (Hmin pre' suf').
  - exists "Unknown". split; [done |]. left. split; [done |].
    intros pre suf ->. eapply program_id_none.
    by apply (search_from_none _ _ _ Hsearch pre suf).
Qed.

(* ===================================================================== *)
(** ** The order and the number of the divisions *)
(* ===================================================================== *)

Lemma finditer_from_skip (r : Re.regex) (c : string) : forall i rest,
  Re.finditer_from r i (Str.len c) (c +:+ rest) = Re.finditer_from r (i + Str.len c) 0 rest.
Proof.
  induction c as [|a c IH]; intros i rest; simpl.
  - by rewrite Nat.add_0_r.
  - rewrite IH. f_equal. lia.
Qed.

Lemma search_from_start (r : Re.regex) (s : string) (i : nat) (m : Re.rmatch) :
  Re.search_from r i s = Some m -> i <= Re.m_start m.
Proof.
  intros H. destruct (search_from_sound _ _ _ _ H) as (pre & suf & -> & Hm & _).
  destruct (match_at_sound _ _ _ _ Hm) as (c & rest & g & -> & _ & ->). simpl. lia.
Qed.

(** The first match of [re.finditer] is the match of [re.search]; the
    scan goes on where that match ends. *)
Lemma finditer_from_first (r : Re.regex) (s : string) : forall i,
  match Re.search_from r i s with
  | None => Re.finditer_from r i 0 s = []
  | Some m =>
      forall pre c rest, s = pre +:+ c +:+ rest -> c <> "" ->
        Re.m_start m = i + Str.len pre -> Re.m_end m = i + Str.len pre + Str.len c ->
        Re.finditer_from r i 0 s = m :: Re.finditer_from r (Re.m_end m) 0 rest
  end.
Proof.
  induction s as [|a s IH]; intros i; simpl.
  - destruct (Re.match_at r i "") as [m|] eqn:Hm; [| done].
    intros [|? ?] [|? ?] rest Heq Hne; try discriminate; done.
  - destruct (Re.match_at r i (String a s)) as [m|] eqn:Hm.
    + intros pre c rest Heq Hne Hstart Hend.
      destruct (match_at_sound _ _ _ _ Hm) as (c0 & rest0 & g & _ & _ & ->).
      simpl in *. assert (pre = "") as -> by (apply len_zero; lia).
      destruct c as [|a' c]; [done |]. simpl in *. injection Heq as <- ->.
      f_equal. rewrite Hend.
      replace (i + 0 + S (Str.len c) - i - 1) with (Str.len c) by lia.
      rewrite finditer_from_skip. f_equal. lia.
    + specialize (IH (S i)).
      destruct (Re.search_from r (S i) s) as [m|] eqn:Hsearch; [| done].
      intros pre c rest Heq Hne Hstart Hend.
      pose proof (search_from_start _ _ _ _ Hsearch) as Hle.
      destruct pre as [|a' pre]; simpl in *; [lia |].
      injection Heq as <- ->.
      apply (IH pre c rest); [done | done | lia | lia].
Qed.

Lemma division_sem_intro i name ws kw rest :
  name_like name -> ws <> "" -> blank ws -> eq_i kw "DIVISION" = true ->
  sem division_pattern i (name +:+ ws +:+ kw) rest [] [(1, name)].
Proof.
  intros [Hne Hname] Hwsne Hws Hkw. unfold division_pattern.
  eapply sem_seq; [apply sem_group; by apply sem_plus |].
  eapply sem_seq; [by apply sem_plus | by apply sem_lit_i].
Qed.

Lemma division_at_matches (i : nat) (s : string) :
  division_at s -> matches_prefix division_pattern i s.
Proof.
  intros (name & ws & kw & rest & -> & Hname & Hne & Hws & Hkw).
  exists (name +:+ ws +:+ kw), rest, [(1, name)].
  rewrite !app_assoc_str. split; [done |]. by apply division_sem_intro.
Qed.

Lemma division_scan_from (n : nat) : forall s, Str.len s <= n ->
  forall i acc, exists names,
    append_divisions (Re.finditer_from division_pattern i 0 s) acc
      = Returned (acc ++ names)
    /\ division_scan s names.
Proof.
  induction n as [|n IH]; intros s Hlen i acc;
    pose proof (finditer_from_first division_pattern s i) as Hfirst;
    destruct (Re.search_from division_pattern i s) as [m|] eqn:Hsearch.
  all: try (rewrite Hfirst; exists []; simpl; rewrite app_nil_r; split; [done |];
            apply scan_none; intros pre suf -> Hat;
            eapply match_at_none;
              [by eapply search_from_none | by apply division_at_matches]).
  all: destruct (search_from_sound _ _ _ _ Hsearch) as (pre & suf & -> & Hm & Hleft);
    destruct (match_at_sound _ _ _ _ Hm) as (c & rest & g & -> & Hsem & ->);
    destruct (division_sem _ _ _ _ Hsem)
      as (name & ws & kw & -> & Hname & Hne & Hws & Hkw & ->).
  - destruct Hname as [Hnn _]. destruct name; [done |].
    rewrite len_app in Hlen. simpl in Hlen. lia.
  - rewrite (Hfirst pre (name +:+ ws +:+ kw) rest); simpl; try done.
    2: { destruct Hname as [Hnn _]. by destruct name. }
    unfold group_strip, Re.group; simpl. rewrite (strip_name _ Hname). simpl.
    destruct (IH rest) with (i := i + Str.len pre + Str.len (name +:+ ws +:+ kw))
                            (acc := acc ++ [name]) as (names & -> & Hscan).
    { rewrite !len_app in Hlen. destruct Hname as [Hnn _].
      destruct name; [done |]. simpl in Hlen. lia. }
    exists (name :: names). rewrite <- app_assoc. split; [done |].
    rewrite !app_assoc_str. apply scan_match; try done.
    intros pre' suf' Heq Hlt Hat.
    eapply match_at_none; [| by apply division_at_matches].
    apply (Hleft pre' suf'); [by rewrite !app_assoc_str | done].
Qed.

(** C7. The heuristic pre-parse returns on every text, the empty one
    included.  The program identifier is the identifier matched after
    the PROGRAM-ID marker, letters of the marker in either case: the
    whole name of the first PROGRAM-ID paragraph of the text; it is the
    literal "Unknown" exactly when no such paragraph starts anywhere in
    the text, or when that is the name.  The divisions are the names
    matched before a DIVISION marker, as a scan from the left finds
    them, possibly none.  On the empty text the skeleton is "Unknown"
    with no division. *)
Theorem heuristic_preparse_total (cobol_code : string) :
  exists program_id divisions,
    _extract_program_id cobol_code = Returned program_id
    /\ _identify_divisions cobol_code = Returned divisions
    /\ ((program_id = "Unknown" /\ no_program_id cobol_code)
        \/ first_program_id cobol_code program_id)
    /\ division_scan cobol_code divisions
    /\ _extract_program_id "" = Returned "Unknown"
    /\ _identify_divisions "" = Returned [].
Proof.
  destruct (extract_program_id_cases cobol_code) as (program_id & Hid & Hcases).
  destruct (division_scan_from (Str.len cobol_code) cobol_code (le_n _) 0 [])
    as (divisions & Hdiv & Hscan).
  exists program_id, divisions. repeat split; try done.
Qed.

(** C8, as the code has it.  The divisions are the names of the
    successive matches, in the order of the text; every match gives its
    name, and no duplicate is removed, adjacent or not. *)
Theorem identify_divisions_scan (cobol_code : string) :
  exists divisions,
    _identify_divisions cobol_code = Returned divisions
    /\ division_scan cobol_code divisions.
Proof.
  destruct (division_scan_from (Str.len cobol_code) cobol_code (le_n _) 0 [])
    as (names & Heq & Hscan).
  exists names. by split.
Qed.

(** C8, as the claim words it, fails: two equal names that follow each
    other are both kept. *)
Lemma identify_divisions_adjacent_duplicates :
  _identify_divisions "DATA DIVISION DATA DIVISION" = Returned ["DATA"; "DATA"]
  /\ ~ adjacent_distinct ["DATA"; "DATA"].
Proof.
  split; [vm_compute; reflexivity |].
  intros H. by apply (H 0 "DATA" "DATA").
Qed.

(* ===================================================================== *)
(** ** Thinking-process separation *)
(* ===================================================================== *)

Lemma line_start_sem i c rest g g' :
  sem (Re.Group 1 (Re.Alt Re.Bol (Re.Chr (Char.exactly newline)))) i c rest g g' ->
  line_start i c.
Proof.
  intros H. apply sem_group_inv in H as (g1 & H & ->).
  apply sem_alt_inv in H as [H | H].
  - apply sem_bol_inv in H as (-> & -> & ->). by left.
  - apply sem_chr_inv in H as (a & -> & Ha & ->).
    apply Ascii.eqb_eq in Ha as ->. by right.
Qed.

Lemma line_start_sem_intro i b rest g :
  line_start i b ->
  sem (Re.Group 1 (Re.Alt Re.Bol (Re.Chr (Char.exactly newline)))) i b rest g ((1, b) :: g).
Proof.
  intros [[-> ->] | ->]; apply sem_group.
  - apply sem_alt_l. constructor.
  - apply sem_alt_r. by constructor.
Qed.

Lemma heading_at_matches (i : nat) (s : string) :
  matches_prefix first_heading_pattern i s <-> heading_at i s.
Proof.
  unfold first_heading_pattern. split.
  - intros (c & rest & g & -> & H).
    apply sem_seq_inv in H as (b & c1 & g1 & -> & Hb & H).
    apply line_start_sem in Hb.
    apply sem_seq_inv in H as (h & ws & g2 & -> & Hh & H).
    apply sem_chr_inv in Hh as (a & -> & Ha & ->). apply Ascii.eqb_eq in Ha as ->.
    apply sem_plus_inv in H as (Hne & Hws & ->).
    exists b, ws, rest. rewrite !app_assoc_str. simpl. by repeat split.
  - intros (b & ws & rest & -> & Hb & Hne & Hws).
    exists (b +:+ "#" +:+ ws), rest, [(1, b)].
    rewrite !app_assoc_str. simpl. split; [done |].
    eapply sem_seq; [by apply line_start_sem_intro |].
    eapply (sem_seq _ _ _ "#" ws); [by constructor | by apply sem_plus].
Qed.

Lemma lower_newline (a : ascii) : Char.lower a = newline -> a = newline.
Proof.
  destruct a as [[|] [|] [|] [|] [|] [|] [|] [|]]; vm_compute; congruence.
Qed.

Lemma eq_i_dot (p : string) : forall c,
  eq_i c p = true -> Str.all Char.dot p = true -> Str.all Char.dot c = true.
Proof.
  induction p as [|x p IH]; intros [|a c] H Hp; simpl in *; try done.
  apply andb_prop in H as [Ha Hc]. apply andb_prop in Hp as [Hx Hp].
  rewrite (IH _ Hc Hp), andb_true_r.
  apply Ascii.eqb_eq in Ha. unfold Char.dot in *.
  destruct (Ascii.eqb a "010") eqn:Hnl; [| done].
  apply Ascii.eqb_eq in Hnl as ->.
  symmetry in Ha. apply lower_newline in Ha as ->. done.
Qed.

Lemma title_at_matches (i : nat) (s : string) :
  matches_prefix doc_title_pattern i s <-> title_at i s.
Proof.
  unfold doc_title_pattern. split.
  - intros (c & rest & g & -> & H).
    apply sem_seq_inv in H as (b & c1 & g1 & -> & Hb & H).
    apply line_start_sem in Hb.
    apply sem_seq_inv in H as (h & c2 & g2 & -> & Hh & H).
    apply sem_chr_inv in Hh as (a & -> & Ha & ->). apply Ascii.eqb_eq in Ha as ->.
    apply sem_seq_inv in H as (ws & c3 & g3 & -> & Hws & H).
    apply sem_plus_inv in Hws as (Hne & Hws & ->).
    apply sem_seq_inv in H as (t & e & g4 & -> & Ht & He).
    apply sem_group_inv in Ht as (g5 & Ht & ->).
    apply sem_group_inv in He as (g6 & He & ->).
    assert (Hend : exists rest', e +:+ rest = rest' /\ (rest' = "" \/ exists r, rest' = nl +:+ r)).
    { apply sem_alt_inv in He as [He | He].
      - apply sem_chr_inv in He as (a & -> & Ha & ->). apply Ascii.eqb_eq in Ha as ->.
        eexists; split; [done |]. right. by exists rest.
      - apply sem_eol_inv in He as (-> & [-> | ->] & ->);
          (eexists; split; [done |]); [by left | right; by exists ""]. }
    destruct Hend as (rest' & Hrest' & Hend).
    apply sem_alt_inv in Ht as [Ht | Ht];
      apply sem_seq_inv in Ht as (x & y & g7 & -> & Hx & Hy).
    + apply sem_lazy_inv in Hx as (Hx & ->). apply sem_lit_i_inv in Hy as (Hy & ->).
      exists b, ws, x, y, rest'. subst rest'. rewrite ?app_assoc_str. simpl.
      rewrite ?app_assoc_str. repeat split; try done. by left.
    + apply sem_lit_i_inv in Hx as (Hx & ->). apply sem_lazy_inv in Hy as (Hy & ->).
      exists b, ws, x, y, rest'. subst rest'. rewrite ?app_assoc_str. simpl.
      rewrite ?app_assoc_str. repeat split; try done. by right.
  - intros (b & ws & x & y & rest & -> & Hb & Hne & Hws & Hxy & Hend).
    assert (Hxy' : forall rest' g, sem
              (Re.Group 2 (Re.Alt (Re.LazyStar Char.dot >> Re.lit_i "Documentation")
                                  (Re.lit_i "Documentation for" >> Re.LazyStar Char.dot)))
              (Str.len b + 1 + Str.len ws + i) (x +:+ y) rest' g ((2, x +:+ y) :: g)).
    { intros rest' g. apply sem_group. destruct Hxy as [[Hx Hy] | [Hx Hy]].
      - apply sem_alt_l. eapply sem_seq; [by constructor | by apply sem_lit_i].
      - apply sem_alt_r. eapply sem_seq; [by apply sem_lit_i | by constructor]. }
    assert (Hpre : forall e rest' g3, 
              sem (Re.Group 3 (Re.Alt (Re.Chr (Char.exactly newline)) Re.Eol))
                  (i + Str.len b + 1 + Str.len ws + Str.len (x +:+ y)) e rest'
                  [(2, x +:+ y); (1, b)] g3 ->
              matches_prefix doc_title_pattern i
                (b +:+ "#" +:+ ws +:+ x +:+ y +:+ e +:+ rest')).
    { intros e rest' g3 He. exists (b +:+ "#" +:+ ws +:+ (x +:+ y) +:+ e), rest', g3.
      split; [rewrite !app_assoc_str; simpl; by rewrite ?app_assoc_str |].
      unfold doc_title_pattern.
      eapply sem_seq; [by apply line_start_sem_intro |].
      eapply (sem_seq _ _ _ "#" (ws +:+ (x +:+ y) +:+ e)); [by constructor |].
      eapply sem_seq; [by apply sem_plus |].
      eapply sem_seq.
      - specialize (Hxy' (e +:+ rest') [(1, b)]).
        replace (i + Str.len b + Str.len "#" + Str.len ws)
          with (Str.len b + 1 + Str.len ws + i) by (simpl; lia). exact Hxy'.
      - replace (i + Str.len b + Str.len "#" + Str.len ws + Str.len (x +:+ y))
          with (i + Str.len b + 1 + Str.len ws + Str.len (x +:+ y)) by (simpl; lia).
        exact He. }
    destruct Hend as [-> | [r ->]].
    + specialize (Hpre "" "" ((3, "") :: [(2, x +:+ y); (1, b)])).
      rewrite !app_empty_r in Hpre. rewrite !app_empty_r.
      apply Hpre. apply sem_group. apply sem_alt_r. constructor. by left.
    + apply (Hpre nl r ((3, nl) :: [(2, x +:+ y); (1, b)])).
      apply sem_group. apply sem_alt_l. by constructor.
Qed.

Lemma title_is_heading (i : nat) (s : string) : title_at i s -> heading_at i s.
Proof.
  intros (b & ws & x & y & rest & -> & Hb & Hne & Hws & _).
  by exists b, ws, (x +:+ y +:+ rest).
Qed.

Lemma split_at_heading_app (pre main : string) :
  split_at_heading (pre +:+ main) (Str.len pre)
  = if Str.truthy (Str.strip pre)
    then Str.strip main +:+ thinking_heading +:+ Str.strip pre
    else Str.strip main.
Proof. unfold split_at_heading. by rewrite take_app_len, drop_app_len. Qed.

Lemma truthy_cases (s : string) :
  (s = "" /\ Str.truthy s = false) \/ (s <> "" /\ Str.truthy s = true).
Proof. destruct s; [by left | by right]. Qed.

(** What [re.search] says about a property the pattern decides. *)
Lemma search_cases (r : Re.regex) (P : nat -> string -> Prop) (text : string) :
  (forall i s, matches_prefix r i s <-> P i s) ->
  match Re.search r text with
  | Some m =>
      exists pre main, text = pre +:+ main /\ Re.m_start m = Str.len pre
        /\ P (Str.len pre) main /\ leftmost P text pre
  | None => nowhere P text
  end.
Proof.
  intros HP. unfold Re.search.
  destruct (Re.search_from r 0 text) as [m|] eqn:Hsearch.
  - destruct (search_from_sound _ _ _ _ Hsearch) as (pre & suf & -> & Hm & Hleft).
    simpl in *. exists pre, suf.
    destruct (match_at_sound _ _ _ _ Hm) as (c & rest & g & -> & Hsem & ->).
    repeat split; try done.
    + apply HP. by exists c, rest, g.
    + intros pre' suf' Heq Hlt HP'. apply HP in HP'.
      by eapply match_at_none; [apply (Hleft pre' suf') |].
  - intros pre suf -> HP'. apply HP in HP'.
    eapply match_at_none; [| exact HP'].
    by apply (search_from_none _ _ _ Hsearch pre suf).
Qed.

(** C9, as the code has it.  A text with no top-level heading is
    returned as it is.  Otherwise the text is cut at the leftmost title
    heading, or at the leftmost top-level heading when there is no
    title; both parts are stripped, and a first part that is not blank
    is moved behind the second one under "# Thinking Process", while a
    blank first part leaves the stripped second part alone. *)
Theorem separate_thinking_process_cases (documentation : string) :
  (nowhere heading_at documentation
   /\ _separate_thinking_process documentation = documentation)
  \/ exists pre main,
       cut_point documentation pre main
       /\ ((Str.strip pre = ""
            /\ _separate_thinking_process documentation = Str.strip main)
           \/ (Str.strip pre <> ""
               /\ _separate_thinking_process documentation
                  = Str.strip main +:+ thinking_heading +:+ Str.strip pre)).
Proof.
  unfold _separate_thinking_process.
  pose proof (search_cases doc_title_pattern title_at documentation title_at_matches)
    as Htitle.
  pose proof (search_cases first_heading_pattern heading_at documentation
                heading_at_matches) as Hheading.
  assert (Hcut : forall pre main,
            Str.strip pre = "" /\ split_at_heading (pre +:+ main) (Str.len pre)
                                  = Str.strip main
            \/ Str.strip pre <> "" /\ split_at_heading (pre +:+ main) (Str.len pre)
                 = Str.strip main +:+ thinking_heading +:+ Str.strip pre).
  { intros pre main. rewrite split_at_heading_app.
    destruct (truthy_cases (Str.strip pre)) as [[H ->] | [H ->]]; [by left | by right]. }
  destruct (Re.search doc_title_pattern documentation) as [m|].
  - right. destruct Htitle as (pre & main & -> & -> & Hat & Hleft).
    exists pre, main. split; [| apply Hcut].
    split; [done |]. by left.
  - destruct (Re.search first_heading_pattern documentation) as [m|].
    + right. destruct Hheading as (pre & main & -> & -> & Hat & Hleft).
      exists pre, main. split; [| apply Hcut].
      split; [done |]. by right.
    + by left.
Qed.

(** C9, as the claim words it, fails: a text that starts with its title
    has nothing before the heading, and still is not returned as it
    is: the newline that ends it is stripped. *)
Lemma separate_thinking_process_strips :
  let documentation := "# Payroll Documentation" +:+ nl in
  heading_at 0 documentation
  /\ _separate_thinking_process documentation = "# Payroll Documentation"
  /\ _separate_thinking_process documentation <> documentation.
Proof.
  split; [| split; [vm_compute; reflexivity | vm_compute; discriminate]].
  exists "", " ", ("Payroll Documentation" +:+ nl).
  repeat split; try done. by left.
Qed.

(* ===================================================================== *)
(** ** The enhancement pass *)
(* ===================================================================== *)

(** C3, as the code has it.  The enhanced text is put through at most
    two correction passes and is accepted when it then holds at least
    one Mermaid fence, whatever the number of fences before: the pass
    returns the corrected enhanced text with a count of at least 1, or
    the text it was given. *)
Theorem enhancement_accepts_any_diagram (w : world) (self : agent) (documentation : string) :
  (enhancement_pass w self documentation = documentation
   \/ exists enhanced corrected,
        generate_with_groq w (EnhancePrompt documentation) (llm_model self)
          = Returned enhanced
        /\ correction_loop w max_attempts true enhanced = Returned corrected
        /\ 1 <= Str.count mermaid_marker corrected
        /\ enhancement_pass w self documentation = corrected)
  /\ (forall enhanced,
        correction_loop w max_attempts true enhanced
        = '(once, has_issues) ←
            Re.sub mermaid_pattern (check_and_fix_diagram w) enhanced false;
          if has_issues : bool
          then '(twice, _) ← Re.sub mermaid_pattern (check_and_fix_diagram w) once false;
               mret twice
          else mret once)
  /\ (forall enhanced corrected,
        Py.truthy (get_user_preference self "enhanced_diagrams" (PBool true)) = true ->
        Py.truthy (get_user_preference self "llm_provider" (PStr "groq")) = true ->
        generate_with_groq w (EnhancePrompt documentation) (llm_model self)
          = Returned enhanced ->
        Str.truthy enhanced = true ->
        correction_loop w max_attempts true enhanced = Returned corrected ->
        enhancement_pass w self documentation
        = if Nat.ltb 0 (Str.count mermaid_marker corrected)
          then corrected else documentation).
Proof.
  split; [| split].
  - unfold enhancement_pass, enhanced_or_original, mbind, outcome_bind, mret, outcome_ret.
    destruct (Py.truthy (get_user_preference self "enhanced_diagrams" (PBool true))
              && Py.truthy (get_user_preference self "llm_provider" (PStr "groq")));
      [| by left].
    destruct (generate_with_groq w (EnhancePrompt documentation) (llm_model self))
      as [enhanced|e] eqn:Hgroq; [| by left].
    destruct (Str.truthy enhanced); [| by left].
    destruct (correction_loop w max_attempts true enhanced) as [corrected|e] eqn:Hloop;
      [| by left].
    destruct (Nat.ltb 0 (Str.count mermaid_marker corrected)) eqn:Hcount; [| by left].
    right. exists enhanced, corrected. apply Nat.ltb_lt in Hcount. by repeat split.
  - intros enhanced. simpl.
    destruct (Re.sub mermaid_pattern (check_and_fix_diagram w) enhanced false)
      as [[once [|]]|e]; simpl; try done.
    all: by destruct (Re.sub mermaid_pattern (check_and_fix_diagram w) once false)
      as [[twice ?]|e].
  - intros enhanced corrected Hpref Hprovider Hgroq Htruthy Hloop.
    unfold enhancement_pass, enhanced_or_original, mbind, outcome_bind, mret, outcome_ret.
    rewrite Hpref, Hprovider, Hgroq, Htruthy, Hloop. simpl.
    by destruct (Nat.ltb 0 (Str.count mermaid_marker corrected)).
Qed.

Lemma enhancement_accepts_any_diagram_witness :
  enhancement_pass (online (Raised (External "unused")) (Returned one_diagram) sample_loads)
    init two_diagrams = one_diagram.
Proof.
  pose proof (enhancement_accepts_any_diagram
                (online (Raised (External "unused")) (Returned one_diagram) sample_loads)
                init two_diagrams) as (_ & _ & Haccept).
  rewrite (Haccept one_diagram one_diagram); reflexivity.
Defined.

(** C3, as the claim words it, fails: a text with two diagrams is
    replaced by an enhanced text with one. *)
Lemma enhancement_regresses_diagram_count :
  let w := online (Raised (External "unused")) (Returned one_diagram) sample_loads in
  let result := _enhance_with_diagrams w init two_diagrams (PDict []) in
  validation_pass w two_diagrams = Returned (two_diagrams, true)
  /\ result = one_diagram
  /\ Str.count mermaid_marker two_diagrams = 2
  /\ Str.count mermaid_marker result = 1.
Proof. repeat split; vm_compute; reflexivity. Qed.

(* ===================================================================== *)
(** ** Structure analysis *)
(* ===================================================================== *)

Lemma json_fence_group i c rest g :
  sem json_fence_pattern i c rest [] g -> exists b, g = [(1, b)].
Proof.
  unfold json_fence_pattern. intros H.
  apply sem_seq_inv in H as (c1 & c2 & g1 & -> & H1 & H).
  apply sem_lit_inv in H1 as (_ & ->).
  apply sem_seq_inv in H as (c3 & c4 & g2 & -> & H2 & H).
  assert (g2 = []) as ->.
  { apply sem_alt_inv in H2 as [H2 | H2].
    - by apply sem_lit_inv in H2 as (_ & ->).
    - by apply sem_eps_inv in H2 as (_ & ->). }
  apply sem_seq_inv in H as (c5 & c6 & g3 & -> & H3 & H).
  apply sem_star_inv in H3 as (_ & ->).
  apply sem_seq_inv in H as (b & c7 & g4 & -> & H4 & H).
  apply sem_group_inv in H4 as (g5 & H4 & ->).
  apply sem_lazy_inv in H4 as (_ & ->).
  apply sem_seq_inv in H as (c8 & c9 & g6 & -> & H5 & H).
  apply sem_star_inv in H5 as (_ & ->).
  apply sem_lit_inv in H as (_ & ->).
  by exists b.
Qed.

(** The payload of a reply is always found. *)
Lemma payload_total (result : string) : exists text, payload result = Returned text.
Proof.
  unfold payload.
  destruct (Re.search json_fence_pattern result) as [m|] eqn:Hsearch; [| by eexists].
  destruct (search_from_sound _ _ _ _ Hsearch) as (pre & suf & -> & Hm & _).
  destruct (match_at_sound _ _ _ _ Hm) as (c & rest & g & -> & Hsem & ->).
  destruct (json_fence_group _ _ _ _ Hsem) as (b & ->).
  by eexists.
Qed.

(** The pre-parse gives an identifier that is not empty. *)
Lemma preparse (cobol_code : string) :
  exists program_id divisions,
    _extract_program_id cobol_code = Returned program_id
    /\ _identify_divisions cobol_code = Returned divisions
    /\ program_id <> ""
    /\ program_id_of cobol_code program_id.
Proof.
  destruct (extract_program_id_cases cobol_code) as (program_id & Hid & Hcases).
  destruct (division_scan_from (Str.len cobol_code) cobol_code (le_n _) 0 [])
    as (divisions & Hdiv & _).
  exists program_id, divisions. repeat split; try done.
  destruct Hcases as [[-> _] | (? & ? & ? & ? & ? & _ & _ & _ & _ & [Hne _] & _)]; done.
Qed.

Lemma remember_and_score_dict (self : agent) (d : Py.dict) :
  sized_fields d ->
  remember_and_score self (PDict d)
  = (remember self "cobol_analysis"
       (PDict [("program_id", from_option id (PStr "Unknown") (Py.lookup "program_id" d));
               ("description",
                from_option id (PStr "No description available")
                  (Py.lookup "description" d))]),
     Returned (PDict d)).
Proof.
  intros Hsized. unfold remember_and_score.
  rewrite (analysis_quality_dict d Hsized). reflexivity.
Qed.

Section Analysis.
Variables (w : world) (self : agent) (cobol_code : string) (parsed_structure : pyval)
  (program_id : string) (divisions : list string).
Hypothesis Hid : _extract_program_id cobol_code = Returned program_id.
Hypothesis Hdiv : _identify_divisions cobol_code = Returned divisions.

Let current_provider := get_user_preference self "llm_provider" (PStr "groq").
Let current_model := get_user_preference self "llm_model" (PStr "llama-3.3-70b-versatile").
Let structure := used_structure parsed_structure program_id divisions.
Let analysis_prompt := AnalysisPrompt structure cobol_code (analysis_instructions self).

Lemma analyze_structure :
  (if negb (Py.truthy parsed_structure)
   then simplified_structure cobol_code
   else mret parsed_structure) = Returned structure.
Proof.
  unfold structure, used_structure, simplified_structure.
  destruct (Py.truthy parsed_structure); [done |].
  cbn [negb]. by rewrite Hid, Hdiv.
Qed.

(** An exception of the focus-area identification is the exception of
    the call. *)
Lemma analyze_focus_raises (e : exn) :
  _identify_focus_areas structure = Raised e ->
  analyze_cobol_structure w self cobol_code parsed_structure = (self, Raised e).
Proof.
  intros Hfocus. unfold analyze_cobol_structure.
  rewrite analyze_structure. cbn [mbind outcome_bind mret outcome_ret].
  by rewrite Hfocus.
Qed.

Variable focus_areas : list string.
Hypothesis Hfocus : _identify_focus_areas structure = Returned focus_areas.

Lemma analyze_start :
  analyze_cobol_structure w self cobol_code parsed_structure
  = if provider_available w current_provider then
      match
        result ← generate_text w analysis_prompt current_provider current_model;
        parse_reply w cobol_code result
      with
      | Raised e => (self, Raised e)
      | Returned structured_data => remember_and_score self structured_data
      end
    else if Py.eq_str current_provider "groq" && has_groq_key w then
      (self, analyze_cobol_with_groq w cobol_code current_model)
    else if has_groq_key w then
      (self, analyze_cobol_with_groq w cobol_code (PStr "llama-3.3-70b-versatile"))
    else (self, no_api_key_analysis cobol_code).
Proof.
  unfold analyze_cobol_structure.
  rewrite analyze_structure. cbn [mbind outcome_bind mret outcome_ret].
  rewrite Hfocus. reflexivity.
Qed.

Lemma analyze_no_key :
  provider_available w current_provider = false -> has_groq_key w = false ->
  analyze_cobol_structure w self cobol_code parsed_structure
  = (self, Returned (PDict [("program_id", PStr program_id);
                            ("description", PStr no_api_key_description);
                            ("divisions", PList (PStr <$> divisions));
                            ("variables", PDict []);
                            ("flow_diagram", PStr no_api_key_diagram)])).
Proof.
  intros Hp Hk. rewrite analyze_start, Hp, Hk, andb_false_r.
  unfold no_api_key_analysis. by rewrite Hid, Hdiv.
Qed.

Lemma analyze_provider_raises (e : exn) :
  provider_available w current_provider = true ->
  generate_text w analysis_prompt current_provider current_model = Raised e ->
  analyze_cobol_structure w self cobol_code parsed_structure = (self, Raised e).
Proof. intros Hp Hg. by rewrite analyze_start, Hp, Hg. Qed.

Lemma analyze_direct_groq :
  provider_available w current_provider = false -> has_groq_key w = true ->
  exists model,
    analyze_cobol_structure w self cobol_code parsed_structure
    = (self, analyze_cobol_with_groq w cobol_code model).
Proof.
  intros Hp Hk. rewrite analyze_start, Hp, Hk.
  destruct (Py.eq_str current_provider "groq"); by eexists.
Qed.

Lemma analyze_parse_failure (reply text : string) (e : exn) :
  provider_available w current_provider = true ->
  generate_text w analysis_prompt current_provider current_model = Returned reply ->
  payload reply = Returned text -> json_loads w text = Raised e ->
  analyze_cobol_structure w self cobol_code parsed_structure
  = (remember self "cobol_analysis"
       (PDict [("program_id", PStr program_id);
               ("description", PStr parse_failure_description)]),
     Returned (PDict [("program_id", PStr program_id);
                      ("description", PStr parse_failure_description);
                      ("divisions", PList (PStr <$> divisions))])).
Proof.
  intros Hp Hg Hpay Hj. rewrite analyze_start, Hp, Hg.
  cbn [mbind outcome_bind mret outcome_ret].
  unfold parse_reply. rewrite Hpay. cbn [mbind outcome_bind mret outcome_ret].
  rewrite Hj. cbn [try_except].
  unfold parse_failure_analysis. rewrite Hid, Hdiv.
  cbn [mbind outcome_bind mret outcome_ret].
  rewrite remember_and_score_dict; [done |].
  intros k v Hk Hv. simpl in Hk.
  destruct Hk as [<- | [<- | [<- | [<- | []]]]]; simpl in Hv; by simplify_eq.
Qed.


End Analysis.

(** C2, as the code has it.  Whatever structure the caller passes, the
    skeleton of the pre-parse standing in for an empty one: when no
    provider is registered for the preference and no Groq key is set,
    the call returns the fixed error analysis (its description is the
    fixed message, its flow diagram the two-node error diagram); when
    the reply of the provider cannot be parsed, it returns the fallback
    derived from the pre-parse.  An exception is logged and raised
    again to the caller: the one of the provider call, on the selector
    path and on the direct Groq path, and the one met when the
    divisions of the structure cannot be searched for the focus
    areas. *)
Theorem analyze_cobol_structure_outcomes (self : agent) (cobol_code : string)
    (parsed_structure : pyval) :
  exists program_id divisions,
    _extract_program_id cobol_code = Returned program_id
    /\ _identify_divisions cobol_code = Returned divisions
    /\ let structure := used_structure parsed_structure program_id divisions in
       (forall w e,
          _identify_focus_areas structure = Raised e ->
          analyze_cobol_structure w self cobol_code parsed_structure = (self, Raised e))
       /\ (forall focus_areas,
             _identify_focus_areas structure = Returned focus_areas ->
             (forall w,
                provider_available w (current_provider self) = false ->
                has_groq_key w = false ->
                analyze_cobol_structure w self cobol_code parsed_structure
                = (self, Returned (PDict (error_analysis program_id divisions))))
             /\ (forall w reply text e,
                   provider_available w (current_provider self) = true ->
                   generate_text w (analysis_prompt self cobol_code structure)
                     (current_provider self) (current_model self) = Returned reply ->
                   payload reply = Returned text -> json_loads w text = Raised e ->
                   snd (analyze_cobol_structure w self cobol_code parsed_structure)
                   = Returned (PDict (fallback_analysis program_id divisions)))
             /\ (forall w e,
                   provider_available w (current_provider self) = true ->
                   generate_text w (analysis_prompt self cobol_code structure)
                     (current_provider self) (current_model self) = Raised e ->
                   analyze_cobol_structure w self cobol_code parsed_structure
                   = (self, Raised e))
             /\ (forall w,
                   provider_available w (current_provider self) = false ->
                   has_groq_key w = true ->
                   exists model,
                     analyze_cobol_structure w self cobol_code parsed_structure
                     = (self, analyze_cobol_with_groq w cobol_code model))).
Proof.
  destruct (preparse cobol_code) as (program_id & divisions & Hid & Hdiv & _).
  exists program_id, divisions. split; [exact Hid |]. split; [exact Hdiv |].
  intros structure. split.
  - intros w e.
    by apply (analyze_focus_raises w self cobol_code parsed_structure program_id
                divisions Hid Hdiv).
  - intros focus_areas Hfocus. repeat split.
    + intros w.
      by apply (analyze_no_key w self cobol_code parsed_structure program_id divisions
                  Hid Hdiv focus_areas Hfocus).
    + intros w reply text e Hp Hg Hpay Hj.
      by rewrite (analyze_parse_failure w self cobol_code parsed_structure program_id
                    divisions Hid Hdiv focus_areas Hfocus reply text e Hp Hg Hpay Hj).
    + intros w e.
      by apply (analyze_provider_raises w self cobol_code parsed_structure program_id
                  divisions Hid Hdiv focus_areas Hfocus).
    + intros w.
      by apply (analyze_direct_groq w self cobol_code parsed_structure program_id
                  divisions Hid Hdiv focus_areas Hfocus).
Qed.

Lemma analyze_cobol_structure_outcomes_witness :
  analyze_cobol_structure offline init sample_source sample_structure
  = (init, Returned (PDict (error_analysis "PAYROLL" ["IDENTIFICATION"; "PROCEDURE"])))
  /\ analyze_cobol_structure offline init sample_source (PDict [("divisions", PNone)])
     = (init, Raised TypeError).
Proof.
  split.
  - destruct (analyze_cobol_structure_outcomes init sample_source sample_structure)
      as (program_id & divisions & Hid & Hdiv & _ & Hreturns).
    assert (program_id = "PAYROLL") as -> by (vm_compute in Hid; congruence).
    assert (divisions = ["IDENTIFICATION"; "PROCEDURE"]) as ->
      by (vm_compute in Hdiv; congruence).
    destruct (Hreturns ["data_structures"; "business_logic"; "program_purpose"] eq_refl)
      as (Hnokey & _).
    apply Hnokey; reflexivity.
  - destruct (analyze_cobol_structure_outcomes init sample_source
                (PDict [("divisions", PNone)]))
      as (program_id & divisions & _ & _ & Hraises & _).
    by apply Hraises.
Defined.

(** C2, as the claim words it, fails: when the provider call raises,
    so does [analyze_cobol_structure]. *)
Lemma analyze_cobol_structure_raises :
  analyze_cobol_structure
    (online (Raised (External "Request timed out")) (Raised (External "unused"))
       sample_loads)
    init sample_source PNone
  = (init, Raised (External "Request timed out")).
Proof. vm_compute. reflexivity. Qed.




Lemma quality_is_rubric_grade_witness :
  sized_fields sample_analysis
  /\ _evaluate_analysis_quality (PDict sample_analysis) = Returned (Quality 5 "high" [])
  /\ _evaluate_documentation_quality two_diagrams
     = Quality 2 "medium"
         ["Documentation is too short"; "Too few section headings";
          "Insufficient explanation text"].
Proof.
  assert (Hsized : sized_fields sample_analysis).
  { intros k v Hk Hv. simpl in Hk.
    destruct Hk as [<- | [<- | [<- | [<- | []]]]]; vm_compute in Hv;
      injection Hv as <-; reflexivity. }
  split; [exact Hsized |].
  destruct (quality_is_rubric_grade sample_analysis two_diagrams Hsized)
    as (Ha & Hd & _).
  split; [exact Ha | exact Hd].
Defined.

(* ===================================================================== *)
(** ** Substrings *)
(* ===================================================================== *)

Lemma startswith_iff (p s : string) :
  Str.startswith p s = true <-> exists rest, s = p +:+ rest.
Proof.
  revert s; induction p as [|x p IH]; intros s; simpl.
  - split; [by exists s | done].
  - destruct s as [|a s]; [split; [done | by intros [? ?]] |].
    rewrite andb_true_iff, IH. split.
    + intros [Hx [rest ->]]. apply Ascii.eqb_eq in Hx as ->. by exists rest.
    + intros [rest [= -> ->]]. split; [apply Ascii.eqb_refl | by exists rest].
Qed.

Lemma startswith_app (p rest : string) : Str.startswith p (p +:+ rest) = true.
Proof. apply startswith_iff. by exists rest. Qed.

Lemma contains_iff (m s : string) :
  Str.contains m s = true <-> exists a b, s = a +:+ m +:+ b.
Proof.
  induction s as [|c s IH]; simpl.
  - rewrite orb_false_r, startswith_iff. split.
    + intros [rest H]. by exists "", rest.
    + intros ([|? ?] & b & H); [by exists b | done].
  - rewrite orb_true_iff, startswith_iff, IH. split.
    + intros [[rest ->] | (a & b & ->)]; [by exists "", rest | by exists (String c a), b].
    + intros ([|x a] & b & H); simpl in H.
      * left. by exists b.
      * injection H as -> ->. right. by exists a, b.
Qed.

Lemma contains_app_l (m a b : string) :
  Str.contains m a = true -> Str.contains m (a +:+ b) = true.
Proof.
  rewrite !contains_iff. intros (x & y & ->). exists x, (y +:+ b).
  by rewrite !app_assoc_str.
Qed.

Lemma contains_app_r (m a b : string) :
  Str.contains m b = true -> Str.contains m (a +:+ b) = true.
Proof.
  rewrite !contains_iff. intros (x & y & ->). exists (a +:+ x), y.
  by rewrite !app_assoc_str.
Qed.

Lemma startswith_contains (m s : string) :
  Str.startswith m s = true -> Str.contains m s = true.
Proof. intros H. destruct s; simpl; by rewrite H. Qed.

Lemma contains_nonempty (m s : string) :
  m <> "" -> Str.contains m s = true -> s <> "".
Proof. intros Hm H ->. simpl in H. by destruct m. Qed.

Lemma count_from_contains (m s : string) : forall skip,
  0 < Str.count_from m skip s -> Str.contains m s = true.
Proof.
  induction s as [|c s IH]; intros skip H; simpl in H; [lia |].
  simpl. destruct skip as [|k].
  - destruct (Str.startswith m (String c s)); [done |].
    by rewrite (IH _ H), orb_true_r.
  - by rewrite (IH _ H), orb_true_r.
Qed.

Lemma lstrip_contains (m s : string) :
  solid m -> Str.contains m s = true -> Str.contains m (Str.lstrip s) = true.
Proof.
  intros [Hne Hm]. induction s as [|c s IH]; [done |].
  intros H. simpl. destruct (Char.is_space c) eqn:Hc; [| exact H].
  apply IH. simpl in H. apply orb_prop in H as [H | H]; [| done].
  destruct m as [|x m]; [done |]. simpl in H, Hm.
  apply andb_prop in H as [Hx _]. apply Ascii.eqb_eq in Hx as ->.
  by rewrite Hc in Hm.
Qed.

Lemma rstrip_startswith (m : string) : forall s,
  solid m -> Str.startswith m s = true -> Str.startswith m (Str.rstrip s) = true.
Proof.
  induction m as [|x m IH]; intros s [Hne Hm] H; [done |].
  destruct s as [|c s]; [done |]. simpl in *.
  apply andb_prop in H as [Hx Hs]. apply andb_prop in Hm as [Hxs Hm].
  apply Ascii.eqb_eq in Hx as <-.
  destruct m as [|y m].
  - destruct (Str.rstrip s); simpl; [| by rewrite Ascii.eqb_refl].
    destruct (Char.is_space x); [done |]. simpl. by rewrite Ascii.eqb_refl.
  - assert (Hrec : Str.startswith (String y m) (Str.rstrip s) = true)
      by (by apply IH).
    destruct (Str.rstrip s) as [|c' r]; [done |].
    simpl. rewrite Ascii.eqb_refl. exact Hrec.
Qed.

Lemma rstrip_contains (m s : string) :
  solid m -> Str.contains m s = true -> Str.contains m (Str.rstrip s) = true.
Proof.
  intros Hm. induction s as [|c s IH]; [done |].
  intros H. simpl in H. apply orb_prop in H as [H | H].
  - apply startswith_contains. by apply rstrip_startswith.
  - specialize (IH H).
    pose proof (contains_nonempty _ _ (proj1 Hm) IH) as Hne.
    simpl. destruct (Str.rstrip s) as [|c' r]; [done |].
    apply (contains_app_r _ (String c "")). exact IH.
Qed.

Lemma strip_contains (m s : string) :
  solid m -> Str.contains m s = true -> Str.contains m (Str.strip s) = true.
Proof. intros Hm H. unfold Str.strip. by apply rstrip_contains, lstrip_contains. Qed.

Lemma marker_solid : solid mermaid_marker.
Proof. split; [done | reflexivity]. Qed.

(* ===================================================================== *)
(** ** Mermaid fences under substitution *)
(* ===================================================================== *)

(** What [mermaid_pattern] denotes. *)
Lemma mermaid_sem i c rest g :
  sem mermaid_pattern i c rest [] g ->
  exists ws1 b ws2,
    c = mermaid_marker +:+ ws1 +:+ b +:+ ws2 +:+ fence
    /\ blank ws1 /\ blank ws2 /\ g = [(1, b)].
Proof.
  unfold mermaid_pattern. intros H.
  apply sem_seq_inv in H as (c1 & c2 & g1 & -> & H1 & H).
  apply sem_lit_inv in H1 as (-> & ->).
  apply sem_seq_inv in H as (ws1 & c3 & g2 & -> & Hws1 & H).
  apply sem_star_inv in Hws1 as (Hws1 & ->).
  apply sem_seq_inv in H as (b & c4 & g3 & -> & Hb & H).
  apply sem_group_inv in Hb as (g4 & Hb & ->).
  apply sem_lazy_inv in Hb as (_ & ->).
  apply sem_seq_inv in H as (ws2 & c5 & g5 & -> & Hws2 & H).
  apply sem_star_inv in Hws2 as (Hws2 & ->).
  apply sem_lit_inv in H as (-> & ->).
  by exists ws1, b, ws2.
Qed.

Lemma mermaid_match (i : nat) (s : string) (m : Re.rmatch) :
  Re.match_at mermaid_pattern i s = Some m ->
  exists ws1 b ws2 rest,
    s = mermaid_marker +:+ ws1 +:+ b +:+ ws2 +:+ fence +:+ rest
    /\ blank ws1 /\ blank ws2
    /\ m = Re.Match i (i + Str.len (mermaid_marker +:+ ws1 +:+ b +:+ ws2 +:+ fence))
             [(1, b)].
Proof.
  intros H. destruct (match_at_sound _ _ _ _ H) as (c & rest & g & -> & Hsem & ->).
  destruct (mermaid_sem _ _ _ _ Hsem) as (ws1 & b & ws2 & -> & H1 & H2 & ->).
  exists ws1, b, ws2, rest. rewrite !app_assoc_str. by repeat split.
Qed.

Lemma mermaid_match_startswith (i : nat) (s : string) (m : Re.rmatch) :
  Re.match_at mermaid_pattern i s = Some m -> Str.startswith mermaid_marker s = true.
Proof.
  intros H. destruct (mermaid_match _ _ _ H) as (ws1 & b & ws2 & rest & -> & _).
  apply startswith_app.
Qed.

Lemma drop_next (j : nat) : forall s x t,
  Str.drop j s = String x t -> Str.drop (S j) s = t.
Proof.
  induction j as [|j IH]; intros [|a s] x t H; simpl in *; try done.
  - by injection H as _ ->.
  - by apply (IH _ x).
Qed.

(** No proper suffix of the marker starts a text that starts with the
    marker. *)
Lemma marker_suffix_conflict (j : nat) (s : string) :
  Str.startswith mermaid_marker s = true ->
  Str.startswith (Str.drop j mermaid_marker) s = true ->
  j = 0 \/ Str.drop j mermaid_marker = "".
Proof.
  intros H1 H2. apply startswith_iff in H1 as [r1 ->].
  destruct j as [|[|[|[|[|[|[|[|[|[|j]]]]]]]]]]; [by left | .. | right; simpl; by destruct j].
  all: exfalso; apply startswith_iff in H2 as [r2 H2]; simpl in H2; discriminate.
Qed.

Section FencedSub.
Context {St : Type} (f : Re.rmatch -> St -> outcome (string * St)).
Hypothesis Hf : fenced_replacer f.

(** A suffix of the marker that starts the text starts the result. *)
Lemma sub_keeps_marker_suffix (s : string) : forall i st out st' j,
  Re.sub_from mermaid_pattern f i 0 s st = Returned (out, st') ->
  Str.startswith (Str.drop j mermaid_marker) s = true ->
  Str.startswith (Str.drop j mermaid_marker) out = true.
Proof.
  induction s as [|c s IH]; intros i st out st' j H Hj; simpl in H.
  - destruct (Re.match_at mermaid_pattern i "") as [m|] eqn:Hm.
    + by apply mermaid_match_startswith in Hm.
    + by injection H as <- _.
  - destruct (Re.match_at mermaid_pattern i (String c s)) as [m|] eqn:Hm.
    + apply mermaid_match_startswith in Hm.
      destruct (marker_suffix_conflict j _ Hm Hj) as [-> | ->]; [| done].
      destruct (f m st) as [[rep st1]|e] eqn:Hrep; simpl in H; [| done].
      apply Hf in Hrep. apply startswith_iff in Hrep as [rest ->].
      destruct (Nat.eqb (Re.m_end m) i);
        [destruct (Re.sub_from mermaid_pattern f (S i) 0 s st1) as [[o s2]|e]
        |destruct (Re.sub_from mermaid_pattern f (S i) (Re.m_end m - i - 1) s st1)
           as [[o s2]|e]];
        simpl in H; try done; injection H as <- _; reflexivity.
    + destruct (Re.sub_from mermaid_pattern f (S i) 0 s st) as [[o s1]|e] eqn:Hsub;
        simpl in H; [| done].
      injection H as <- <-.
      destruct (Str.drop j mermaid_marker) as [|x t] eqn:Hdrop; [done |].
      simpl in Hj. apply andb_prop in Hj as [Hx Ht].
      simpl. rewrite Hx. simpl.
      rewrite <- (drop_next _ _ _ _ Hdrop) in Ht |- *.
      by eapply IH.
Qed.

(** A Mermaid fence of the text is still in the result. *)
Lemma sub_keeps_marker (s : string) : forall i skip st out st',
  Re.sub_from mermaid_pattern f i skip s st = Returned (out, st') ->
  Str.contains mermaid_marker (Str.drop skip s) = true ->
  Str.contains mermaid_marker out = true.
Proof.
  induction s as [|c s IH]; intros i skip st out st' H Hc.
  - by destruct skip.
  - destruct skip as [|n]; [| by eapply (IH (S i) n)].
    pose proof (sub_keeps_marker_suffix (String c s) i st out st' 0 H) as Hstart.
    simpl in H.
    destruct (Re.match_at mermaid_pattern i (String c s)) as [m|] eqn:Hm.
    + apply startswith_contains, Hstart. by eapply mermaid_match_startswith.
    + destruct (Re.sub_from mermaid_pattern f (S i) 0 s st) as [[o s1]|e] eqn:Hsub;
        simpl in H; [| done].
      injection H as <- <-.
      change (Str.drop 0 (String c s)) with (String c s) in Hc.
      simpl in Hc. apply orb_prop in Hc as [Hc | Hc].
      * apply startswith_contains. by apply Hstart.
      * apply (contains_app_r _ (String c "")). by eapply (IH (S i) 0).
Qed.

End FencedSub.

Lemma mermaid_block_startswith (code : string) :
  Str.startswith mermaid_marker (mermaid_block code) = true.
Proof. unfold mermaid_block. apply startswith_app. Qed.

Lemma validate_diagram_fenced (w : world) : fenced_replacer (validate_diagram w).
Proof.
  intros m st rep st' H. unfold validate_diagram in H.
  destruct (group_strip m 1) as [code|]; simpl in H; [| done].
  destruct (negb (Str.truthy code)).
  - injection H as <- _. apply mermaid_block_startswith.
  - destruct (validate_mermaid_syntax w code) as [[[v corrected] msg]|]; simpl in H;
      [| done].
    injection H as <- _. apply mermaid_block_startswith.
Qed.

Lemma check_and_fix_diagram_fenced (w : world) :
  fenced_replacer (check_and_fix_diagram w).
Proof.
  intros m st rep st' H. unfold check_and_fix_diagram in H.
  destruct (group_strip m 1) as [code|]; simpl in H; [| done].
  destruct (negb (Str.truthy code)).
  - injection H as <- _. apply mermaid_block_startswith.
  - destruct (validate_mermaid_syntax w code) as [[[v corrected] msg]|]; simpl in H;
      [| done].
    injection H as <- _. apply mermaid_block_startswith.
Qed.

(** The enhancement pass returns a text with a Mermaid fence when it is
    given one. *)
Lemma enhancement_pass_keeps_marker (w : world) (self : agent) (documentation : string) :
  Str.contains mermaid_marker documentation = true ->
  Str.contains mermaid_marker (enhancement_pass w self documentation) = true.
Proof.
  intros H.
  unfold enhancement_pass, enhanced_or_original, mbind, outcome_bind, mret, outcome_ret.
  destruct (Py.truthy (get_user_preference self "enhanced_diagrams" (PBool true))
            && Py.truthy (get_user_preference self "llm_provider" (PStr "groq")));
    [| done].
  destruct (generate_with_groq w (EnhancePrompt documentation) (llm_model self))
    as [enhanced|e]; [| done].
  destruct (Str.truthy enhanced); [| done].
  destruct (correction_loop w max_attempts true enhanced) as [corrected|e]; [| done].
  destruct (Nat.ltb 0 (Str.count mermaid_marker corrected)) eqn:Hcount; [| done].
  apply Nat.ltb_lt in Hcount. by eapply count_from_contains.
Qed.

(** [_enhance_with_diagrams] returns a text with a Mermaid fence when
    the analysis is a dictionary. *)
Lemma enhance_with_diagrams_marker (w : world) (self : agent) (documentation : string)
    (d : Py.dict) :
  Str.contains mermaid_marker (_enhance_with_diagrams w self documentation (PDict d))
  = true.
Proof.
  unfold _enhance_with_diagrams, validation_pass.
  destruct (Str.contains mermaid_marker documentation) eqn:Hdoc.
  - destruct (Re.sub mermaid_pattern (validate_diagram w) documentation false)
      as [[validated has_valid]|e] eqn:Hsub; [| done].
    assert (Hval : Str.contains mermaid_marker validated = true).
    { eapply (sub_keeps_marker _ (validate_diagram_fenced w)); [exact Hsub | done]. }
    unfold fallback_diagram. rewrite Hval, andb_false_r.
    by apply enhancement_pass_keeps_marker.
  - cbn [mret outcome_ret]. unfold fallback_diagram. rewrite Hdoc.
    cbn [negb andb Py.get mbind outcome_bind mret outcome_ret].
    apply enhancement_pass_keeps_marker, contains_app_r. reflexivity.
Qed.

Lemma contains_cut (m pre rest : string) (c : ascii) :
  Str.all (fun x => negb (Ascii.eqb x c)) m = true ->
  Str.contains m (pre +:+ String c rest) = true ->
  Str.contains m pre = true \/ Str.contains m (String c rest) = true.
Proof.
  intros Hm H. apply contains_iff in H as (a & b & H).
  destruct (app_eq_app _ _ _ _ H) as [(k & -> & Hk) | (k & -> & Hk)].
  - right. apply contains_iff. by exists k, b.
  - left. symmetry in Hk.
    destruct (app_eq_app _ _ _ _ Hk) as [(k2 & -> & Hk2) | (k2 & -> & Hk2)].
    + destruct k2 as [|c' k2].
      * rewrite app_empty_r. apply contains_iff. exists a, "". by rewrite app_empty_r.
      * simpl in Hk2. injection Hk2 as -> _.
        rewrite all_app in Hm. simpl in Hm. rewrite Ascii.eqb_refl in Hm.
        simpl in Hm. by rewrite andb_false_r in Hm.
    + apply contains_iff. by exists a, k2.
Qed.

Lemma split_at_heading_keeps_marker (pre main : string) :
  heading_at (Str.len pre) main ->
  Str.contains mermaid_marker (pre +:+ main) = true ->
  Str.contains mermaid_marker (split_at_heading (pre +:+ main) (Str.len pre)) = true.
Proof.
  intros (b & ws & rest & -> & Hb & _) H. rewrite split_at_heading_app.
  assert (Hcases : Str.contains mermaid_marker pre = true
                   \/ Str.contains mermaid_marker (b +:+ "#" +:+ ws +:+ rest) = true).
  { destruct Hb as [[-> Hpre] | ->].
    - apply len_zero in Hpre as ->. by right.
    - by apply (contains_cut mermaid_marker pre _ newline). }
  destruct Hcases as [Hpre | Hmain].
  - apply (strip_contains _ _ marker_solid) in Hpre.
    destruct (truthy_cases (Str.strip pre)) as [[Hs _] | [_ ->]].
    + rewrite Hs in Hpre. done.
    + by apply contains_app_r, contains_app_r.
  - apply (strip_contains _ _ marker_solid) in Hmain.
    destruct (Str.truthy (Str.strip pre)); [by apply contains_app_l | done].
Qed.

Lemma separate_thinking_process_keeps_marker (documentation : string) :
  Str.contains mermaid_marker documentation = true ->
  Str.contains mermaid_marker (_separate_thinking_process documentation) = true.
Proof.
  intros H. unfold _separate_thinking_process.
  pose proof (search_cases doc_title_pattern title_at documentation title_at_matches)
    as Htitle.
  pose proof (search_cases first_heading_pattern heading_at documentation
                heading_at_matches) as Hheading.
  destruct (Re.search doc_title_pattern documentation) as [m|].
  - destruct Htitle as (pre & main & -> & -> & Hat & _).
    by apply split_at_heading_keeps_marker; [apply title_is_heading |].
  - destruct (Re.search first_heading_pattern documentation) as [m|]; [| done].
    destruct Hheading as (pre & main & -> & -> & Hat & _).
    by apply split_at_heading_keeps_marker.
Qed.

Lemma add_mcp_explanations_keeps_marker (w : world) (documentation : string)
    (structured_data : pyval) :
  Str.contains mermaid_marker documentation = true ->
  Str.contains mermaid_marker (_add_mcp_explanations w documentation structured_data)
  = true.
Proof.
  intros H. unfold _add_mcp_explanations.
  destruct (mcp_section w structured_data); [by apply contains_app_l | done].
Qed.

Lemma post_process_marker (w : world) (self : agent) (d : Py.dict)
    (audience_type : pyval) (documentation result : string) :
  tabs_additive w ->
  post_process w self (PDict d) audience_type documentation = Returned result ->
  Str.contains mermaid_marker result = true.
Proof.
  intros Htabs. unfold post_process.
  set (diagrams := if _ : bool then _ else documentation).
  assert (H1 : Str.contains mermaid_marker diagrams = true).
  { subst diagrams.
    destruct (Str.contains mermaid_marker documentation) eqn:Hdoc; simpl;
      [| apply enhance_with_diagrams_marker].
    destruct (Py.truthy _); [apply enhance_with_diagrams_marker | done]. }
  clearbody diagrams.
  destruct (if negb (Py.eq_str audience_type "technical")
            then Py.contains "construct_explanations" (PDict d)
            else mret false) as [with_explanations|e]; simpl; [| done].
  set (explained := if with_explanations then _ else diagrams).
  assert (H2 : Str.contains mermaid_marker explained = true).
  { subst explained. destruct with_explanations; [| done].
    by apply add_mcp_explanations_keeps_marker. }
  clearbody explained.
  apply separate_thinking_process_keeps_marker in H2.
  destruct (enhance_markdown_with_tabs w (_separate_thinking_process explained))
    as [tabbed|e] eqn:Htab; intros [= <-]; [| done].
  by eapply Htabs.
Qed.

Lemma enriched_dict (w : world) (d : Py.dict) (audience_type : pyval) :
  exists d', enriched w (PDict d) audience_type = PDict d'.
Proof.
  unfold enriched.
  destruct (enrich_cobol_documentation w (PDict d) audience_type) as [[]|];
    by eexists.
Qed.

(** C1, as the code has it.  Every documentation text returned by
    [generate_documentation] holds at least one Mermaid fence, the
    tabbed view keeping the fences of its input: the provider's text has
    one (and is then left as it is unless enhanced diagrams are asked
    for), or [_enhance_with_diagrams] validates, appends or accepts
    one, and the later steps keep it.  The fixed document for a missing
    key carries its own diagram block. *)
Theorem generated_documentation_has_fence (w : world) (self self' : agent)
    (structured_data : pyval) (documentation : string) :
  tabs_additive w ->
  generate_documentation w self structured_data = (self', Returned documentation) ->
  Str.contains mermaid_marker documentation = true
  /\ Str.contains (mermaid_block no_api_key_diagram) api_key_missing_document = true.
Proof.
  intros Htabs Hrun. split; [| reflexivity].
  unfold generate_documentation in Hrun.
  destruct structured_data as [| | | | |d]; try by (simpl in Hrun; injection Hrun).
  cbn [Py.get mbind outcome_bind mret outcome_ret] in Hrun.
  destruct (enriched_dict w d (get_user_preference self "audience" (PStr "technical")))
    as [d' Hd'].
  rewrite Hd' in Hrun.
  do 4 (lazymatch type of Hrun with
        | context [mbind ?f ?c] =>
            destruct c eqn:?; cbn [mbind outcome_bind mret outcome_ret] in Hrun;
            [| by injection Hrun]
        end).
  lazymatch type of Hrun with
  | context [post_process ?a ?b ?c ?e ?t] =>
      destruct (post_process a b c e t) as [result|e'] eqn:Hpost
  end; cbn [Py.get mbind outcome_bind mret outcome_ret] in Hrun; [| by injection Hrun].
  injection Hrun as _ <-.
  by eapply post_process_marker.
Qed.

Lemma generated_documentation_has_fence_witness :
  exists documentation,
    snd (generate_documentation offline init (PDict sample_analysis))
    = Returned documentation
    /\ Str.contains mermaid_marker documentation = true.
Proof.
  destruct (generate_documentation offline init (PDict sample_analysis))
    as [self' [documentation|e]] eqn:Hrun; [| vm_compute in Hrun; discriminate].
  exists documentation. split; [reflexivity |].
  apply (generated_documentation_has_fence offline init self' (PDict sample_analysis)
           documentation); [| exact Hrun].
  intros d tabbed [= <-] Hd. exact Hd.
Defined.

Lemma has_closed_block_app (a s : string) :
  has_closed_block s = true -> has_closed_block (a +:+ s) = true.
Proof.
  intros H. induction a as [|c a IH]; [done |].
  simpl. rewrite IH. apply orb_true_r.
Qed.

(** A text with a valid fenced block has a closed block. *)
Lemma valid_block_closed (w : world) (text : string) :
  has_valid_block w text -> has_closed_block text = true.
Proof.
  intros (before & ws1 & code & ws2 & after & -> & _).
  apply has_closed_block_app.
  assert (H : Str.startswith mermaid_marker
                (mermaid_marker +:+ ws1 +:+ code +:+ ws2 +:+ fence +:+ after)
              && Str.contains fence
                   (Str.drop (Str.len mermaid_marker)
                      (mermaid_marker +:+ ws1 +:+ code +:+ ws2 +:+ fence +:+ after))
              = true).
  { rewrite startswith_app, drop_app_len. simpl.
    apply contains_iff. exists (ws1 +:+ code +:+ ws2), after.
    by rewrite !app_assoc_str. }
  destruct (mermaid_marker +:+ ws1 +:+ code +:+ ws2 +:+ fence +:+ after);
    simpl in *; by rewrite H.
Qed.

(** C1, as the claim words it, fails: the provider's text opens a
    Mermaid fence and is cut short before the fence is closed; with the
    fence present the validation is skipped, and the text comes back
    with no fenced block at all. *)
Lemma generated_documentation_without_block :
  let w := online (Returned truncated_reply) (Raised (External "unused")) sample_loads in
  snd (generate_documentation w init (PDict sample_analysis)) = Returned truncated_reply
  /\ ~ has_valid_block w truncated_reply.
Proof.
  split; [vm_compute; reflexivity |].
  intros H. apply valid_block_closed in H. vm_compute in H. discriminate.
Qed.

(* ===================================================================== *)
(** ** The validation pass on a text with an empty block *)
(* ===================================================================== *)

Lemma app_inv_head_str (a x y : string) : a +:+ x = a +:+ y -> x = y.
Proof. induction a as [|c a IH]; simpl; [done |]. intros [= H]. by apply IH. Qed.

Lemma exec_lit_app {R : Type} (p : string) : forall (k : @Re.cont R) i t g,
  Re.exec (Re.lit p) k i (p +:+ t) g = k (i + Str.len p) t g.
Proof.
  induction p as [|x p IH]; intros k i t g; simpl.
  - by rewrite Nat.add_0_r.
  - unfold Char.exactly. rewrite Ascii.eqb_refl, IH. f_equal. lia.
Qed.

Lemma strip_blank (s : string) : blank s -> Str.strip s = "".
Proof.
  unfold blank, Str.strip. induction s as [|c s IH]; simpl; [done |].
  intros H. apply andb_prop in H as [Hc Hs]. rewrite Hc. by apply IH.
Qed.


(** A text that starts with a fence once a non-empty [k] is put before
    it has a fence within [k] and two more characters. *)
Lemma fence_overlap (k r r' : string) :
  k <> "" -> k +:+ fence +:+ r = fence +:+ r' -> Str.startswith fence (k +:+ "``") = true.
Proof.
  intros Hk H. unfold fence in H.
  destruct k as [|c1 [|c2 [|c3 k]]]; [done | ..];
    cbn [String.append] in H; simplify_eq; reflexivity.
Qed.

Lemma blank_no_backtick (ws k r : string) :
  blank ws -> ws = k +:+ r -> k = "" \/ ~ Str.startswith "`" k = true.
Proof.
  intros Hws ->. destruct k as [|c k]; [by left |]. right.
  unfold blank in Hws. cbn [String.append Str.all] in Hws.
  apply andb_prop in Hws as [Hc _].
  cbn [Str.startswith]. destruct (Ascii.eqb "`" c) eqn:E; [| done].
  apply Ascii.eqb_eq in E as <-. done.
Qed.

Lemma all_any (s : string) : Str.all Char.any s = true.
Proof.
  induction s as [|c s IH]; [done |]. simpl. rewrite IH.
  unfold Char.any. by rewrite orb_negb_r.
Qed.

Lemma exec_group_lazy {R : Type} (n : nat) (p : ascii -> bool) (r : Re.regex)
    (k : @Re.cont R) i s g :
  Re.exec (Re.Group n (Re.LazyStar p) >> r) k i s g
  = Re.star_lazy p (fun i' s' g' => Re.exec r k i' s' ((n, Str.take (i' - i) s) :: g'))
      i s g.
Proof. reflexivity. Qed.

Lemma closing_fence_sem i ws rest g :
  blank ws -> sem (Re.Star Char.is_space >> Re.lit fence) i (ws +:+ fence) rest g g.
Proof. intros H. eapply sem_seq; [by constructor | apply sem_lit]. Qed.

(** The closing part of the pattern matches a text that starts with a
    fence. *)
Lemma closing_fence_matches {R : Type} (k : @Re.cont R) i rest g :
  (forall e s g', exists x, k e s g' = Some x) ->
  exists y, Re.exec (Re.Star Char.is_space >> Re.lit fence) k i (fence +:+ rest) g = Some y.
Proof.
  intros Hk.
  destruct (Hk (i + Str.len ("" +:+ fence)) rest g) as [x Hx].
  apply (exec_complete _ _ _ _ _ _ (closing_fence_sem i "" rest g eq_refl) k x Hx).
Qed.

(** A blank text has no backtick. *)
Lemma blank_backtick (x k r r' : string) :
  blank (x +:+ k) -> k +:+ r = fence +:+ r' -> k = "".
Proof.
  intros Hws H. destruct k as [|c k]; [done |]. exfalso.
  unfold blank in Hws. rewrite all_app in Hws. apply andb_prop in Hws as [_ Hk].
  unfold fence in H. cbn [String.append Str.all] in H, Hk. simplify_eq.
  all: by apply andb_prop in Hk as [Hc _].
Qed.

Lemma block_match (i : nat) (body rest : string) :
  fence_free body ->
  exists ws1 b ws2,
    body = ws1 +:+ b +:+ ws2 /\ blank ws1 /\ blank ws2
    /\ Re.match_at mermaid_pattern i (mermaid_marker +:+ body +:+ fence +:+ rest)
       = Some (Re.Match i (i + Str.len (mermaid_marker +:+ body +:+ fence)) [(1, b)]).
Proof.
  intros Hfree.
  assert (Hex : exists m,
             Re.match_at mermaid_pattern i (mermaid_marker +:+ body +:+ fence +:+ rest)
             = Some m).
  { replace (mermaid_marker +:+ body +:+ fence +:+ rest)
      with ((mermaid_marker +:+ "" +:+ body +:+ "" +:+ fence) +:+ rest)
      by (by rewrite !app_assoc_str).
    eapply match_at_complete. unfold mermaid_pattern.
    eapply sem_seq; [apply sem_lit |].
    eapply sem_seq; [by constructor |].
    eapply sem_seq; [apply sem_group; constructor; apply all_any |].
    by apply closing_fence_sem. }
  destruct Hex as [m Hm]. pose proof Hm as H.
  unfold Re.match_at, mermaid_pattern in H.
  rewrite exec_seq, exec_lit_app, exec_seq in H.
  apply star_greedy_sound in H as (ws1 & t1 & Ht & Hws1 & H).
  rewrite exec_group_lazy in H.
  apply star_lazy_sound in H as (b & t2 & -> & _ & H & Hmin).
  apply exec_sound in H as (c & rest' & g' & -> & Hc & Hk).
  apply sem_seq_inv in Hc as (ws2 & f & g1 & -> & Hws2 & Hf).
  apply sem_star_inv in Hws2 as (Hws2 & ->).
  apply sem_lit_inv in Hf as (-> & ->).
  replace (i + Str.len mermaid_marker + Str.len ws1 + Str.len b
           - (i + Str.len mermaid_marker + Str.len ws1)) with (Str.len b) in Hk by lia.
  rewrite take_app_len in Hk. injection Hk as Hk.
  assert (Hmin' : forall b' t2', b +:+ (ws2 +:+ fence) +:+ rest' = b' +:+ t2' ->
            Str.len b' < Str.len b -> t2' <> fence +:+ rest).
  { intros b' t2' Heq Hlt ->.
    specialize (Hmin b' (fence +:+ rest) Heq Hlt). cbv beta in Hmin.
    match type of Hmin with
    | Re.exec _ ?k ?j _ ?g = None =>
        destruct (closing_fence_matches k j rest g) as [y Hy]; [by eexists |]
    end.
    discriminate (eq_trans (eq_sym Hy) Hmin). }
  clear Hmin. change "```" with fence in *.
  rewrite !app_assoc_str in Ht, Hmin'.
  assert (Hbody : body = ws1 +:+ b +:+ ws2 /\ rest' = rest).
  { destruct (app_eq_app _ _ _ _ Ht) as [(k & -> & Hk1) | (k1 & -> & Hk1)].
    - (* the blanks in front end where the body ends *)
      symmetry in Hk1. pose proof (blank_backtick _ _ _ _ Hws1 Hk1) as ->.
      cbn [String.append] in Hk1. rewrite app_empty_r.
      destruct b as [|c b].
      + cbn [String.append] in Hk1. pose proof (blank_backtick "" _ _ _ Hws2 Hk1) as ->.
        cbn [String.append] in Hk1. apply app_inv_head_str in Hk1 as ->. by rewrite app_empty_r.
      + exfalso. apply (Hmin' "" (String c b +:+ ws2 +:+ fence +:+ rest'));
          [done | simpl; lia | done].
    - symmetry in Hk1.
      destruct (app_eq_app _ _ _ _ Hk1) as [(k2 & -> & Hk2) | (k2 & -> & Hk2)].
      + (* the body ends inside the group *)
        symmetry in Hk2. destruct k2 as [|c k2].
        * cbn [String.append] in Hk2. rewrite app_empty_r.
          pose proof (blank_backtick "" _ _ _ Hws2 Hk2) as ->.
          cbn [String.append] in Hk2. apply app_inv_head_str in Hk2 as ->. by rewrite app_empty_r.
        * exfalso.
          apply (Hmin' k1 (String c k2 +:+ ws2 +:+ fence +:+ rest'));
            [by rewrite !app_assoc_str | rewrite len_app; simpl; lia | done].
      + destruct (app_eq_app _ _ _ _ Hk2) as [(k3 & -> & Hk3) | (k3 & -> & Hk3)].
        * (* the match ends before the body does *)
          symmetry in Hk3. destruct k3 as [|c k3].
          { cbn [String.append] in Hk3. apply app_inv_head_str in Hk3 as ->.
            by rewrite !app_empty_r. }
          exfalso.
          assert (Hover : Str.startswith fence (String c k3 +:+ "``") = true)
            by (by eapply fence_overlap).
          unfold fence_free in Hfree. rewrite !app_assoc_str in Hfree.
          rewrite contains_app_r in Hfree; [done |].
          rewrite contains_app_r; [done |].
          rewrite contains_app_r; [done |].
          by apply startswith_contains.
        * (* the body ends inside the blanks behind *)
          symmetry in Hk3. pose proof (blank_backtick _ _ _ _ Hws2 Hk3) as ->.
          cbn [String.append] in Hk3. apply app_inv_head_str in Hk3 as ->.
          by rewrite !app_empty_r. }
  destruct Hbody as [-> ->].
  exists ws1, b, ws2. repeat split; try done.
  rewrite Hm. f_equal. rewrite <- Hk. f_equal. rewrite !len_app. simpl. lia.
Qed.

Section SubFacts.
Context {St : Type} (r : Re.regex) (f : Re.rmatch -> St -> outcome (string * St)).

Lemma sub_from_skip (c : string) : forall i rest st,
  Re.sub_from r f i (Str.len c) (c +:+ rest) st = Re.sub_from r f (i + Str.len c) 0 rest st.
Proof.
  induction c as [|a c IH]; intros i rest st; simpl.
  - by rewrite Nat.add_0_r.
  - rewrite IH. f_equal. lia.
Qed.

(** Text in which the pattern matches nowhere is copied. *)
Lemma sub_from_gap (gap : string) : forall i rest st,
  (forall g1 g2, gap = g1 +:+ g2 -> g2 <> "" ->
     Re.match_at r (i + Str.len g1) (g2 +:+ rest) = None) ->
  Re.sub_from r f i 0 (gap +:+ rest) st
  = '(out, st') ← Re.sub_from r f (i + Str.len gap) 0 rest st;
    mret (gap +:+ out, st').
Proof.
  induction gap as [|c gap IH]; intros i rest st Hnone.
  - simpl. rewrite Nat.add_0_r.
    by destruct (Re.sub_from r f i 0 rest st) as [[out st']|e].
  - pose proof (Hnone "" (String c gap) eq_refl ltac:(done)) as H0.
    simpl in H0. rewrite Nat.add_0_r in H0.
    cbn [String.append Re.sub_from]. rewrite H0.
    rewrite (IH (S i)).
    + replace (S i + Str.len gap) with (i + Str.len (String c gap)) by (simpl; lia).
      by destruct (Re.sub_from r f (i + Str.len (String c gap)) 0 rest st)
        as [[out st']|e].
    + intros g1 g2 -> Hne.
      specialize (Hnone (String c g1) g2 eq_refl Hne).
      by replace (S i + Str.len g1) with (i + Str.len (String c g1)) by (simpl; lia).
Qed.

(** A match is replaced, and the substitution goes on behind it. *)
Lemma sub_from_match (c rest : string) (i : nat) (m : Re.rmatch) (st : St) :
  c <> "" ->
  Re.match_at r i (c +:+ rest) = Some m -> Re.m_end m = i + Str.len c ->
  Re.sub_from r f i 0 (c +:+ rest) st
  = '(rep, st1) ← f m st;
    '(out, st2) ← Re.sub_from r f (i + Str.len c) 0 rest st1;
    mret (rep +:+ out, st2).
Proof.
  intros Hne Hm Hend. destruct c as [|a c]; [done |].
  cbn [String.append Re.sub_from] in *. rewrite Hm.
  destruct (f m st) as [[rep st1]|e]; [| done]. simpl.
  rewrite Hend. cbn [String.length].
  replace (Nat.eqb (i + S (Str.len c)) i) with false
    by (symmetry; apply Nat.eqb_neq; lia).
  replace (i + S (Str.len c) - i - 1) with (Str.len c) by lia.
  rewrite sub_from_skip.
  by replace (S i + Str.len c) with (i + S (Str.len c)) by lia.
Qed.

End SubFacts.

(** A Mermaid fence cannot start in text without one, even when a fence
    follows the text. *)
Lemma no_straddle (gap g1 g2 X : string) :
  Str.contains mermaid_marker gap = false ->
  gap = g1 +:+ g2 -> g2 <> "" ->
  X = "" \/ Str.startswith mermaid_marker X = true ->
  Str.startswith mermaid_marker (g2 +:+ X) = false.
Proof.
  intros Hgap -> Hne HX.
  destruct (Str.startswith mermaid_marker (g2 +:+ X)) eqn:H; [exfalso | done].
  assert (Hin : forall k, g2 = mermaid_marker +:+ k -> False).
  { intros k ->. rewrite contains_app_r in Hgap; [done |].
    apply startswith_contains, startswith_app. }
  apply startswith_iff in H as [rest H].
  destruct (app_eq_app _ _ _ _ H) as [(k & Hk & HX') | (k & Hk & _)];
    [| by eapply Hin].
  destruct HX as [-> | HX].
  - destruct k; [| done]. apply (Hin ""). rewrite app_empty_r.
    rewrite Hk. by rewrite app_empty_r.
  - assert (Hdrop : Str.drop (Str.len g2) mermaid_marker = k)
      by (by rewrite Hk, drop_app_len).
    assert (Hstart : Str.startswith (Str.drop (Str.len g2) mermaid_marker) X = true)
      by (rewrite Hdrop, HX'; apply startswith_app).
    destruct (marker_suffix_conflict _ _ HX Hstart) as [H0 | H0].
    + by apply len_zero in H0.
    + rewrite Hdrop in H0. clear Hdrop Hstart. subst k. rewrite app_empty_r in Hk.
      apply (Hin ""). by rewrite app_empty_r.
Qed.

Lemma gap_no_match (gap X : string) (i : nat) :
  Str.contains mermaid_marker gap = false ->
  X = "" \/ Str.startswith mermaid_marker X = true ->
  forall g1 g2, gap = g1 +:+ g2 -> g2 <> "" ->
    Re.match_at mermaid_pattern (i + Str.len g1) (g2 +:+ X) = None.
Proof.
  intros Hgap HX g1 g2 Heq Hne.
  destruct (Re.match_at mermaid_pattern (i + Str.len g1) (g2 +:+ X)) as [m|] eqn:Hm;
    [| done].
  apply mermaid_match_startswith in Hm.
  by rewrite (no_straddle gap g1 g2 X) in Hm.
Qed.


Lemma lstrip_blank_app (ws s : string) : blank ws -> Str.lstrip (ws +:+ s) = Str.lstrip s.
Proof.
  unfold blank. induction ws as [|c ws IH]; [done |]. simpl.
  intros H. apply andb_prop in H as [Hc Hws]. rewrite Hc. by apply IH.
Qed.

Lemma rstrip_app_blank (s ws : string) : blank ws -> Str.rstrip (s +:+ ws) = Str.rstrip s.
Proof.
  intros Hws. induction s as [|c s IH]; simpl.
  - assert (H := strip_blank ws Hws). unfold Str.strip in H.
    unfold blank in Hws. clear H. induction ws as [|c ws IH]; [done |]. simpl in *.
    apply andb_prop in Hws as [Hc Hws]. by rewrite (IH Hws), Hc.
  - by rewrite IH.
Qed.

Lemma strip_blank_around (ws1 b ws2 : string) :
  blank ws1 -> blank ws2 -> Str.strip (ws1 +:+ b +:+ ws2) = Str.strip b.
Proof.
  intros H1 H2. unfold Str.strip. rewrite (lstrip_blank_app _ _ H1).
  induction b as [|c b IH]; simpl.
  - apply (strip_blank ws2 H2).
  - destruct (Char.is_space c); [exact IH |].
    apply (rstrip_app_blank (String c b) ws2 H2).
Qed.

(** On a complete block the match ends with the block and its stripped
    group is the stripped body. *)
Lemma block_match_strip (i : nat) (body rest : string) :
  fence_free body ->
  exists m,
    Re.match_at mermaid_pattern i (mermaid_marker +:+ body +:+ fence +:+ rest) = Some m
    /\ Re.m_end m = i + Str.len (mermaid_marker +:+ body +:+ fence)
    /\ group_strip m 1 = Returned (Str.strip body).
Proof.
  intros Hfree.
  destruct (block_match i body rest Hfree) as (ws1 & b & ws2 & -> & H1 & H2 & Hm).
  eexists. split; [exact Hm |]. split; [done |].
  unfold group_strip, Re.group. simpl. by rewrite strip_blank_around.
Qed.

Section ClosedSub.
Context {St : Type} (h : string -> St -> outcome (string * St)).

(** A callable that looks at the stripped diagram only. *)
Let f (m : Re.rmatch) (st : St) : outcome (string * St) :=
  mermaid_code ← group_strip m 1; h mermaid_code st.

Lemma sub_from_end (i : nat) (st : St) :
  Re.sub_from mermaid_pattern f i 0 "" st = Returned ("", st).
Proof.
  simpl. destruct (Re.match_at mermaid_pattern i "") as [m|] eqn:Hm; [| done].
  by apply mermaid_match_startswith in Hm.
Qed.

(** The substitution on a complete block that other text follows. *)
Lemma sub_from_block (i : nat) (body rest : string) (st : St) :
  fence_free body ->
  Re.sub_from mermaid_pattern f i 0 (mermaid_marker +:+ body +:+ fence +:+ rest) st
  = '(rep, st1) ← h (Str.strip body) st;
    '(out, st2) ← Re.sub_from mermaid_pattern f
                    (i + Str.len (mermaid_marker +:+ body +:+ fence)) 0 rest st1;
    mret (rep +:+ out, st2).
Proof.
  intros Hfree.
  destruct (block_match_strip i body rest Hfree) as (m & Hm & Hend & Hgroup).
  replace (mermaid_marker +:+ body +:+ fence +:+ rest)
    with ((mermaid_marker +:+ body +:+ fence) +:+ rest) in *
    by (by rewrite !app_assoc_str).
  assert (Hne : mermaid_marker +:+ body +:+ fence <> "") by done.
  rewrite (sub_from_match _ f _ _ _ m st Hne Hm Hend).
  assert (Hf : f m st = h (Str.strip body) st) by (unfold f; by rewrite Hgroup).
  by rewrite Hf.
Qed.


End ClosedSub.

Section SubTotal.
Context {St : Type} (r : Re.regex) (f : Re.rmatch -> St -> outcome (string * St)).
Hypothesis f_answers : forall i s m st,
  Re.match_at r i s = Some m -> exists rep st', f m st = Returned (rep, st').


End SubTotal.

Section EmptyBlock.
Context {St : Type} (h : string -> St -> outcome (string * St)).
Hypothesis h_answers : forall code st, exists rep st', h code st = Returned (rep, st').

Let f (m : Re.rmatch) (st : St) : outcome (string * St) :=
  mermaid_code ← group_strip m 1; h mermaid_code st.



End EmptyBlock.






(* ===================================================================== *)
(** * Further properties of the agent *)
(* ===================================================================== *)

(* ===================================================================== *)
(** ** The agent's memory *)
(* ===================================================================== *)



Lemma remember_preferences (self : agent) (item_type : string) (content : pyval) :
  user_preferences (remember self item_type content) = user_preferences self.
Proof. reflexivity. Qed.

Lemma remember_length (self : agent) (item_type : string) (content : pyval) :
  length (memory self) <= max_memory_items ->
  length (memory (remember self item_type content)) <= max_memory_items.
Proof.
  intros Hlen. unfold remember. cbn [memory]. rewrite length_app. cbn [length].
  destruct (Nat.ltb_spec max_memory_items (length (memory self) + 1)) as [Hlt | Hge].
  - destruct (memory self); cbn [app tail length] in *; [lia |].
    rewrite length_app. cbn [length]. lia.
  - rewrite length_app. cbn [length]. lia.
Qed.

Lemma analyze_remembers (w : world) (self : agent) (cobol_code : string)
    (parsed_structure : pyval) :
  fst (analyze_cobol_structure w self cobol_code parsed_structure) = self
  \/ exists content,
       fst (analyze_cobol_structure w self cobol_code parsed_structure)
       = remember self "cobol_analysis" content.
Proof.
  unfold analyze_cobol_structure, remember_and_score.
  repeat case_match; simpl; eauto.
Qed.

Lemma generate_remembers (w : world) (self : agent) (structured_data : pyval) :
  match snd (generate_documentation w self structured_data) with
  | Returned documentation =>
      exists program_id,
        fst (generate_documentation w self structured_data)
        = remember self "documentation"
            (PDict [("program_id", program_id);
                    ("doc_preview", PStr (Str.take 200 documentation +:+ "..."))])
  | Raised e => fst (generate_documentation w self structured_data) = self
  end.
Proof.
  unfold generate_documentation.
  match goal with
  | |- context [match ?c with Returned _ => _ | Raised _ => _ end] =>
      destruct c as [[documentation content]|e] eqn:Hrun; [| reflexivity]
  end.
  cbn [fst snd].
  destruct structured_data as [| | | | |d]; try discriminate Hrun.
  cbn [Py.get mbind outcome_bind mret outcome_ret] in Hrun.
  destruct (enriched_dict w d (get_user_preference self "audience" (PStr "technical")))
    as [d' Hd'].
  rewrite Hd' in Hrun.
  do 5 run Hrun.
  cbn [Py.get mbind outcome_bind mret outcome_ret] in Hrun.
  injection Hrun as <- <-. by eexists.
Qed.



(* ===================================================================== *)
(** ** Focus areas and planned sections *)
(* ===================================================================== *)

Lemma contains_names (k : string) (names : list string) :
  existsb (fun x => Py.eq_str x k) (PStr <$> names) = bool_decide (k ∈ names).
Proof.
  induction names as [|n names IH]; [done |].
  cbn [fmap list_fmap existsb Py.eq_str]. rewrite IH.
  destruct (String.eqb_spec n k) as [-> | Hne].
  - simpl. symmetry. apply bool_decide_eq_true_2. by left.
  - simpl. apply bool_decide_ext. rewrite elem_of_cons.
    split; [by right | intros [Hk | ?]; [by subst | done]].
Qed.

(** X3.  The focus areas.  For the structure the agent derives from a
    source text, "data_structures" is a focus exactly when a division
    named DATA (in capitals) was identified, "business_logic" exactly
    when one named PROCEDURE was, and "program_purpose" always closes
    the list.  A dictionary without divisions gives the program purpose
    alone; one whose divisions are a number or [None] cannot be
    searched, and the function raises a [TypeError]. *)
Theorem focus_areas_follow_divisions (cobol_code : string) :
  (exists divisions parsed_structure,
     _identify_divisions cobol_code = Returned divisions
     /\ simplified_structure cobol_code = Returned parsed_structure
     /\ _identify_focus_areas parsed_structure
        = Returned ((if bool_decide ("DATA" ∈ divisions) then ["data_structures"] else [])
                    ++ (if bool_decide ("PROCEDURE" ∈ divisions)
                        then ["business_logic"] else [])
                    ++ ["program_purpose"]))
  /\ (forall d, Py.lookup "divisions" d = None ->
        _identify_focus_areas (PDict d) = Returned ["program_purpose"])
  /\ (forall d v, Py.lookup "divisions" d = Some v ->
        v = PNone \/ (exists z, v = PNum z) ->
        _identify_focus_areas (PDict d) = Raised TypeError).
Proof.
  split.
  - destruct (preparse cobol_code) as (program_id & divisions & Hid & Hdiv & _).
    exists divisions. eexists. split; [exact Hdiv |].
    unfold simplified_structure. rewrite Hid, Hdiv.
    cbn [mbind outcome_bind mret outcome_ret]. split; [reflexivity |].
    unfold _identify_focus_areas, nested_contains.
    cbn [Py.contains Py.getitem Py.lookup String.eqb Ascii.eqb Bool.eqb
         mbind outcome_bind mret outcome_ret].
    rewrite !contains_names. cbn [mbind outcome_bind mret outcome_ret].
    by destruct (bool_decide ("DATA" ∈ divisions)),
         (bool_decide ("PROCEDURE" ∈ divisions)).
  - split.
    + intros d Hd. unfold _identify_focus_areas, nested_contains.
      cbn [Py.contains]. by rewrite Hd.
    + intros d v Hd Hv. unfold _identify_focus_areas, nested_contains.
      cbn [Py.contains Py.getitem]. rewrite Hd.
      by destruct Hv as [-> | [z ->]].
Qed.

Lemma focus_areas_follow_divisions_witness :
  _identify_focus_areas (PDict [("divisions", PNone)]) = Raised TypeError
  /\ _identify_focus_areas (PDict [("program_id", PStr "PAYROLL")])
     = Returned ["program_purpose"].
Proof.
  destruct (focus_areas_follow_divisions sample_source) as (_ & Hnone & Hraise).
  split.
  - apply (Hraise _ PNone); [reflexivity | by left].
  - by apply Hnone.
Defined.

(** X4.  The planned sections.  For an analysis whose divisions are a
    dictionary or a list of names and whose variables have a length,
    the plan opens with "Introduction" and "Program Overview", has one
    "<name> Division" section per division in the order of the
    analysis, then "Variables and Data Structures" when there is at
    least one variable, then "Program Flow" when a flow diagram is
    present, and closes with "Summary". *)
Theorem planned_sections (w : world) (d : Py.dict) (names : list string) :
  divisions_named d names ->
  (forall v, Py.lookup "variables" d = Some v -> sized v = true) ->
  _plan_documentation_sections w (PDict d)
  = Returned (["Introduction"; "Program Overview"]
              ++ ((fun name => name +:+ " Division") <$> names)
              ++ (if longer_than d "variables" 0
                  then ["Variables and Data Structures"] else [])
              ++ match Py.lookup "flow_diagram" d with
                 | Some _ => ["Program Flow"]
                 | None => []
                 end
              ++ ["Summary"]).
Proof.
  intros Hnames Hvars. unfold _plan_documentation_sections.
  rewrite (present_and_longer_dict d "variables" (PDict []) 0 Hvars).
  assert (Hdivs :
    (has_divisions ← Py.contains "divisions" (PDict d);
     if has_divisions : bool then
       divisions ← Py.get (PDict d) "divisions" (PDict []);
       names ← iterate divisions;
       mret (["Introduction"; "Program Overview"]
             ++ ((fun division => fmt w division +:+ " Division") <$> names))
     else mret ["Introduction"; "Program Overview"])
    = Returned (["Introduction"; "Program Overview"]
                ++ ((fun name => name +:+ " Division") <$> names))).
  { unfold divisions_named in Hnames. cbn [Py.contains Py.get].
    destruct (Py.lookup "divisions" d) as [[| | | |l|dv]|]; try done;
      cbn [mbind outcome_bind mret outcome_ret from_option id iterate]; subst.
    - by rewrite <- list_fmap_compose.
    - by rewrite <- !list_fmap_compose.
    - done. }
  cbn [Py.contains] in Hdivs |- *.
  cbn [mbind outcome_bind mret outcome_ret] in Hdivs |- *.
  destruct (Py.lookup "divisions" d) as [v|];
    cbn [mbind outcome_bind mret outcome_ret] in Hdivs |- *.
  - rewrite Hdivs. cbn [mbind outcome_bind mret outcome_ret].
    destruct (longer_than d "variables" 0), (Py.lookup "flow_diagram" d);
      by rewrite <- ?app_assoc.
  - injection Hdivs as Hdivs. rewrite <- Hdivs.
    destruct (longer_than d "variables" 0), (Py.lookup "flow_diagram" d);
      by rewrite <- ?app_assoc.
Qed.

Lemma planned_sections_witness :
  _plan_documentation_sections offline (PDict sample_analysis)
  = Returned ["Introduction"; "Program Overview"; "PROCEDURE Division";
              "Variables and Data Structures"; "Program Flow"; "Summary"].
Proof.
  by rewrite (planned_sections offline sample_analysis ["PROCEDURE"]);
    [| reflexivity | intros v [= <-]].
Defined.

(* ===================================================================== *)
(** ** Replies that parse, but not to an analysis *)
(* ===================================================================== *)

(** X5.  When the provider's reply parses to a JSON value that is not
    an object, [analyze_cobol_structure] raises an [AttributeError] and
    remembers nothing: the value has no [get].  When it parses to an
    object one of whose measured fields has no length (a number, a
    boolean, [null]), the analysis is remembered first and the quality
    evaluation then raises a [TypeError]. *)
Theorem analysis_reply_must_be_object (self : agent) (cobol_code : string)
    (parsed_structure : pyval) :
  exists program_id divisions,
    _extract_program_id cobol_code = Returned program_id
    /\ _identify_divisions cobol_code = Returned divisions
    /\ forall w reply text structured_data focus_areas,
         _identify_focus_areas (used_structure parsed_structure program_id divisions)
         = Returned focus_areas ->
         provider_available w (current_provider self) = true ->
         generate_text w
           (analysis_prompt self cobol_code
              (used_structure parsed_structure program_id divisions))
           (current_provider self) (current_model self) = Returned reply ->
         payload reply = Returned text ->
         json_loads w text = Returned structured_data ->
         ((forall d, structured_data <> PDict d) ->
            analyze_cobol_structure w self cobol_code parsed_structure
            = (self, Raised AttributeError))
         /\ (forall d k v,
               structured_data = PDict d ->
               (forall k' v', In k' ["description"; "divisions"; "variables"; "flow_diagram"] ->
                  Py.lookup k' d = Some v' -> k' <> k -> sized v' = true) ->
               In k ["description"; "divisions"; "variables"; "flow_diagram"] ->
               Py.lookup k d = Some v -> sized v = false ->
               exists content,
                 analyze_cobol_structure w self cobol_code parsed_structure
                 = (remember self "cobol_analysis" content, Raised TypeError)).
Proof.
  destruct (preparse cobol_code) as (program_id & divisions & Hid & Hdiv & _).
  exists program_id, divisions. split; [exact Hid |]. split; [exact Hdiv |].
  intros w reply text structured_data focus_areas Hfocus Hp Hg Hpay Hj.
  unfold current_provider, current_model, analysis_prompt in *.
  rewrite (analyze_start w self cobol_code parsed_structure program_id divisions
             Hid Hdiv focus_areas Hfocus), Hp, Hg.
  cbn [mbind outcome_bind mret outcome_ret].
  unfold parse_reply. rewrite Hpay. cbn [mbind outcome_bind mret outcome_ret].
  rewrite Hj. cbn [try_except]. split.
  - intros Hnot. unfold remember_and_score.
    destruct structured_data as [| | | | |d]; try reflexivity. by destruct (Hnot d).
  - intros d k v -> Hothers Hk Hv Hsized. unfold remember_and_score.
    cbn [Py.get mbind outcome_bind mret outcome_ret]. eexists. f_equal.
    unfold _evaluate_analysis_quality.
    assert (Hhas : exists c, has_program_id (PDict d) = Returned c).
    { unfold has_program_id. cbn [Py.contains Py.getitem].
      destruct (Py.lookup "program_id" d); by eexists. }
    destruct Hhas as [c1 ->]. cbn [mbind outcome_bind mret outcome_ret].
    assert (Hbad : forall dflt bound,
              present_and_longer (PDict d) k dflt bound = Raised TypeError).
    { intros dflt bound. unfold present_and_longer. cbn [Py.contains Py.get].
      rewrite Hv. cbn [mbind outcome_bind mret outcome_ret from_option id].
      by destruct v. }
    assert (Hgood : forall k' dflt bound,
              In k' ["description"; "divisions"; "variables"; "flow_diagram"] ->
              k' <> k ->
              present_and_longer (PDict d) k' dflt bound
              = Returned (longer_than d k' bound)).
    { intros k' dflt bound Hin Hne. apply present_and_longer_dict.
      intros v' Hv'. by apply (Hothers k' v'). }
    destruct (String.eqb_spec "description" k) as [<- | H1];
      [by rewrite Hbad |].
    rewrite (Hgood "description") by (simpl; tauto || done).
    cbn [mbind outcome_bind mret outcome_ret].
    destruct (String.eqb_spec "divisions" k) as [<- | H2];
      [by rewrite Hbad |].
    rewrite (Hgood "divisions") by (simpl; tauto || done).
    cbn [mbind outcome_bind mret outcome_ret].
    destruct (String.eqb_spec "variables" k) as [<- | H3];
      [by rewrite Hbad |].
    rewrite (Hgood "variables") by (simpl; tauto || done).
    cbn [mbind outcome_bind mret outcome_ret].
    destruct (String.eqb_spec "flow_diagram" k) as [<- | H4];
      [by rewrite Hbad |].
    exfalso. simpl in Hk. intuition congruence.
Qed.

Lemma analysis_reply_must_be_object_witness :
  analyze_cobol_structure (online (Returned "[]") (Raised (External "unused")) array_loads)
    init sample_source PNone
  = (init, Raised AttributeError).
Proof.
  destruct (analysis_reply_must_be_object init sample_source PNone)
    as (program_id & divisions & Hid & Hdiv & H).
  vm_compute in Hid. injection Hid as <-.
  vm_compute in Hdiv. injection Hdiv as <-.
  apply (H (online (Returned "[]") (Raised (External "unused")) array_loads)
           "[]" "[]" (PList []) ["business_logic"; "program_purpose"]); try reflexivity.
  intros d. discriminate.
Defined.

(* ===================================================================== *)
(** ** Documentation generation: failures and degraded documents *)
(* ===================================================================== *)

(** What a returning run of [generate_documentation] went through. *)
Lemma generate_documentation_inv (w : world) (self self' : agent)
    (structured_data : pyval) (documentation : string) :
  generate_documentation w self structured_data = (self', Returned documentation) ->
  exists d d' doc_prompt text,
    structured_data = PDict d
    /\ enriched w structured_data (get_user_preference self "audience" (PStr "technical"))
       = PDict d'
    /\ provider_documentation w self doc_prompt (documentation_instructions self)
       = Returned text
    /\ post_process w self (PDict d')
         (get_user_preference self "audience" (PStr "technical")) text
       = Returned documentation.
Proof.
  unfold generate_documentation.
  match goal with
  | |- context [match ?c with Returned _ => _ | Raised _ => _ end] =>
      destruct c as [[documentation' content]|e] eqn:Hrun; [| by intros [= _ ?]]
  end.
  intros [= _ ->].
  destruct structured_data as [| | | | |d]; try discriminate Hrun.
  cbn [Py.get mbind outcome_bind mret outcome_ret] in Hrun.
  destruct (enriched_dict w d (get_user_preference self "audience" (PStr "technical")))
    as [d' Hd'].
  rewrite Hd' in Hrun.
  do 5 run Hrun.
  cbn [Py.get mbind outcome_bind mret outcome_ret] in Hrun.
  injection Hrun as <- _. by eexists d, d', _, _.
Qed.

(** X6.  [generate_documentation] recovers from a failing Groq client,
    not from a failing registered provider: when the preferred provider
    is registered and its call raises, whatever the prompt, the call
    raises as well and the agent is left as it was; an analysis that is
    not a dictionary raises an [AttributeError]. *)
Theorem generation_raises_with_provider (w : world) (self : agent) :
  (forall structured_data,
     (forall d, structured_data <> PDict d) ->
     generate_documentation w self structured_data = (self, Raised AttributeError))
  /\ (forall structured_data,
        provider_available w (current_provider self) = true ->
        (forall doc_prompt, exists e,
           generate_text w doc_prompt (current_provider self) (current_model self)
           = Raised e) ->
        exists e, generate_documentation w self structured_data = (self, Raised e)).
Proof.
  split.
  - intros structured_data Hnot.
    destruct structured_data as [| | | | |d]; try reflexivity. by destruct (Hnot d).
  - intros structured_data Hp Hraise.
    destruct (generate_documentation w self structured_data) as [self' [doc|e]] eqn:Hrun.
    + exfalso.
      destruct (generate_documentation_inv _ _ _ _ _ Hrun)
        as (d & d' & doc_prompt & text & _ & _ & Htext & _).
      unfold provider_documentation in Htext.
      unfold current_provider, current_model in Hp, Hraise.
      rewrite Hp in Htext. destruct (Hraise doc_prompt) as [e He].
      by rewrite He in Htext.
    + exists e. f_equal.
      pose proof (generate_remembers w self structured_data) as H.
      by rewrite Hrun in H.
Qed.

Lemma generation_raises_with_provider_witness :
  exists e,
    generate_documentation
      (online (Raised (External "rate limit")) (Raised (External "unused")) sample_loads)
      init (PDict sample_analysis)
    = (init, Raised e).
Proof.
  apply generation_raises_with_provider; [reflexivity |].
  intros doc_prompt. by eexists.
Defined.

Lemma fallback_without_key (w : world) (doc_prompt : prompt) (custom_instructions : string) :
  has_groq_key w = false ->
  _fallback_to_groq_for_documentation w doc_prompt custom_instructions
  = api_key_missing_document.
Proof. intros Hk. unfold _fallback_to_groq_for_documentation. by rewrite Hk. Qed.

(** X7.  The document for a missing key.  With no provider registered
    for the preference and no Groq key, for a technical audience and
    without a request for enhanced diagrams, a returning
    [generate_documentation] gives the fixed key-missing document,
    stripped of the blank lines around it, in its tabbed view: its
    diagram block is taken as it is, no thinking-process section is
    added and no provider is called. *)
Theorem documentation_without_key (w : world) (self self' : agent)
    (structured_data : pyval) (documentation : string) :
  provider_available w (current_provider self) = false ->
  has_groq_key w = false ->
  Py.truthy (get_user_preference self "enhanced_diagrams" (PBool false)) = false ->
  Py.eq_str (get_user_preference self "audience" (PStr "technical")) "technical" = true ->
  generate_documentation w self structured_data = (self', Returned documentation) ->
  documentation = tabbed w (Str.strip api_key_missing_document).
Proof.
  intros Hp Hk Henh Haud Hrun.
  destruct (generate_documentation_inv _ _ _ _ _ Hrun)
    as (d & d' & doc_prompt & text & _ & _ & Htext & Hpost).
  unfold provider_documentation in Htext. unfold current_provider in Hp.
  rewrite Hp, Hk, andb_false_r, fallback_without_key in Htext by done.
  injection Htext as <-.
  unfold post_process in Hpost. rewrite Henh, Haud in Hpost.
  replace (Str.contains mermaid_marker api_key_missing_document) with true in Hpost
    by (by vm_compute).
  cbn [negb orb mbind outcome_bind mret outcome_ret] in Hpost.
  replace (_separate_thinking_process api_key_missing_document)
    with (Str.strip api_key_missing_document) in Hpost by (by vm_compute).
  by injection Hpost as <-.
Qed.

Lemma documentation_without_key_witness :
  snd (generate_documentation offline init (PDict sample_analysis))
  = Returned (Str.strip api_key_missing_document).
Proof.
  destruct (generate_documentation offline init (PDict sample_analysis))
    as [self' [documentation|e]] eqn:Hrun; [| vm_compute in Hrun; discriminate].
  cbn [snd]. f_equal.
  by rewrite (documentation_without_key offline init self' (PDict sample_analysis)
                documentation).
Defined.

(** A text that starts with its title has no thinking process: it is
    stripped and nothing else. *)
Lemma separate_at_title (documentation : string) :
  title_at 0 documentation ->
  _separate_thinking_process documentation = Str.strip documentation.
Proof.
  intros Htitle. unfold _separate_thinking_process, Re.search.
  destruct (Re.match_at doc_title_pattern 0 documentation) as [m|] eqn:Hm.
  - assert (Hs : Re.search_from doc_title_pattern 0 documentation = Some m)
      by (destruct documentation; cbn [Re.search_from]; by rewrite Hm).
    rewrite Hs.
    destruct (match_at_sound _ _ _ _ Hm) as (c & rest & g & _ & _ & ->).
    unfold split_at_heading. cbn [Re.m_start].
    by destruct documentation.
  - apply match_at_none in Hm. destruct Hm. by apply title_at_matches.
Qed.

Lemma error_document_title (groq_error : exn) (after : string) :
  title_at 0 (groq_error_document groq_error +:+ after).
Proof.
  exists nl, " ", "COBOL Program ", "Documentation".
  eexists. split; [unfold groq_error_document; rewrite !app_assoc_str; reflexivity |].
  split; [by right |]. split; [done |]. split; [reflexivity |].
  split; [by left |]. right. by eexists.
Qed.

Lemma enhance_adds_basic_diagram (w : world) (self : agent) (documentation : string)
    (d : Py.dict) :
  Str.contains mermaid_marker documentation = false ->
  (forall p m, exists e, generate_with_groq w p m = Raised e) ->
  _enhance_with_diagrams w self documentation (PDict d)
  = documentation +:+ basic_diagram_section.
Proof.
  intros Hnone Hraise. unfold _enhance_with_diagrams, validation_pass, fallback_diagram.
  rewrite Hnone. cbn [mret outcome_ret negb andb Py.get mbind outcome_bind].
  rewrite Hnone. cbn [mret outcome_ret negb andb Py.get mbind outcome_bind].
  unfold enhancement_pass, enhanced_or_original.
  destruct (Hraise (EnhancePrompt (documentation +:+ basic_diagram_section))
              (llm_model self)) as [e ->].
  cbn [mbind outcome_bind]. by destruct (_ && _).
Qed.

(** X8.  The document for a failing Groq client.  With no provider
    registered for the preference, a Groq key and a Groq client that
    raises [groq_error] on every call, for a technical audience, a
    returning [generate_documentation] gives the Groq-error document,
    which quotes the error, followed by the basic flow diagram section,
    the whole stripped and in its tabbed view. *)
Theorem documentation_with_failing_groq (w : world) (self self' : agent)
    (structured_data : pyval) (documentation : string) (groq_error : exn) :
  provider_available w (current_provider self) = false ->
  has_groq_key w = true ->
  (forall p m, generate_with_groq w p m = Raised groq_error) ->
  Str.contains mermaid_marker (groq_error_document groq_error) = false ->
  Py.eq_str (get_user_preference self "audience" (PStr "technical")) "technical" = true ->
  generate_documentation w self structured_data = (self', Returned documentation) ->
  documentation
  = tabbed w (Str.strip (groq_error_document groq_error +:+ basic_diagram_section)).
Proof.
  intros Hp Hk Hraise Hnone Haud Hrun.
  destruct (generate_documentation_inv _ _ _ _ _ Hrun)
    as (d & d' & doc_prompt & text & _ & _ & Htext & Hpost).
  assert (Hfall : forall instructions,
            _fallback_to_groq_for_documentation w doc_prompt instructions
            = groq_error_document groq_error).
  { intros instructions. unfold _fallback_to_groq_for_documentation.
    by rewrite Hk, Hraise. }
  unfold provider_documentation in Htext. unfold current_provider in Hp.
  rewrite Hp, Hk, andb_true_r, Hraise, Hfall in Htext.
  assert (text = groq_error_document groq_error) as ->.
  { match type of Htext with
    | (if ?c then _ else _) = _ => destruct c
    end; by injection Htext. }
  unfold post_process in Hpost. rewrite Hnone, Haud in Hpost.
  cbn [negb orb mbind outcome_bind mret outcome_ret] in Hpost.
  rewrite enhance_adds_basic_diagram in Hpost by (done || by eexists).
  rewrite separate_at_title in Hpost by apply error_document_title.
  by injection Hpost as <-.
Qed.

Lemma documentation_with_failing_groq_witness :
  snd (generate_documentation (failing_groq (External "timeout")) init
         (PDict sample_analysis))
  = Returned (Str.strip (groq_error_document (External "timeout")
                         +:+ basic_diagram_section)).
Proof.
  destruct (generate_documentation (failing_groq (External "timeout")) init
              (PDict sample_analysis))
    as [self' [documentation|e]] eqn:Hrun; [| vm_compute in Hrun; discriminate].
  cbn [snd]. f_equal.
  by rewrite (documentation_with_failing_groq (failing_groq (External "timeout")) init
                self' (PDict sample_analysis) documentation (External "timeout")).
Defined.

(* ===================================================================== *)
(** ** The validation pass, block by block *)
(* ===================================================================== *)

Section Blockwise.
Context {St : Type} (h : string -> St -> outcome (string * St)).

Let f (m : Re.rmatch) (st : St) : outcome (string * St) :=
  mermaid_code ← group_strip m 1; h mermaid_code st.

Lemma sub_from_tail (tail : string) (i : nat) (st : St) :
  Str.contains mermaid_marker tail = false ->
  Re.sub_from mermaid_pattern f i 0 tail st = Returned (tail, st).
Proof.
  intros Htail. rewrite <- (app_empty_r tail).
  rewrite sub_from_gap by (by apply gap_no_match; [| left]).
  fold f. rewrite (sub_from_end h). simpl. by rewrite !app_empty_r.
Qed.

Lemma sub_from_document (blocks : list (string * string)) (tail : string) :
  well_fenced blocks tail ->
  forall i st,
    Re.sub_from mermaid_pattern f i 0 (document blocks tail) st
    = replace_blocks h blocks tail st.
Proof.
  intros [Hblocks Htail].
  induction Hblocks as [|[gap body] blocks [Hgap Hbody] _ IH]; intros i st.
  - by apply sub_from_tail.
  - cbn [document replace_blocks fst snd] in *.
    rewrite sub_from_gap
      by (apply gap_no_match; [done | right; apply startswith_app]).
    fold f. rewrite (sub_from_block h) by done.
    destruct (h (Str.strip body) st) as [[rep st1]|e]; [| done].
    cbn [mbind outcome_bind mret outcome_ret].
    rewrite IH. by destruct (replace_blocks h blocks tail st1) as [[out st2]|e].
Qed.

End Blockwise.

Lemma document_marker (gap body : string) (blocks : list (string * string))
    (tail : string) :
  Str.contains mermaid_marker (document ((gap, body) :: blocks) tail) = true.
Proof. apply contains_iff. by eexists gap, _. Qed.

Lemma validation_pass_document (w : world) (blocks : list (string * string))
    (tail : string) :
  well_fenced blocks tail ->
  validation_pass w (document blocks tail)
  = replace_blocks (validated_block w) blocks tail false.
Proof.
  intros Hwf. unfold validation_pass. destruct blocks as [|[gap body] blocks].
  - destruct Hwf as [_ Htail]. cbn [document replace_blocks]. by rewrite Htail.
  - rewrite document_marker.
    exact (sub_from_document (validated_block w) _ tail Hwf 0 false).
Qed.

(** X9.  The validation pass is a block-by-block replacement.  On a
    text whose Mermaid fences are all closed, the pass of
    [_enhance_with_diagrams] and the pass of its correction loop leave
    the text outside the blocks as it is and replace every block, from
    left to right, by the block of what the validator gives for its
    stripped diagram, or by the placeholder block when the diagram is
    blank; the first exception of the validator ends the pass. *)
Theorem validation_is_blockwise (w : world) (blocks : list (string * string))
    (tail : string) :
  well_fenced blocks tail ->
  validation_pass w (document blocks tail)
  = replace_blocks (validated_block w) blocks tail false
  /\ Re.sub mermaid_pattern (check_and_fix_diagram w) (document blocks tail) false
     = replace_blocks (checked_block w) blocks tail false.
Proof.
  intros Hwf. split.
  - by apply validation_pass_document.
  - exact (sub_from_document (checked_block w) _ tail Hwf 0 false).
Qed.

Lemma validation_is_blockwise_witness :
  validation_pass offline
    (document [("# Payroll" +:+ nl, nl +:+ diagram_ab +:+ nl); (nl, nl)] "The end.")
  = Returned ("# Payroll" +:+ nl +:+ mermaid_block diagram_ab +:+ nl
              +:+ mermaid_block default_diagram +:+ "The end.", true).
Proof.
  destruct (validation_is_blockwise offline
              [("# Payroll" +:+ nl, nl +:+ diagram_ab +:+ nl); (nl, nl)] "The end.")
    as [H _].
  - split; [| reflexivity]. repeat constructor.
  - rewrite H. reflexivity.
Defined.

Lemma strip_fenced (code : string) : Str.strip (nl +:+ code +:+ nl) = Str.strip code.
Proof. by apply strip_blank_around. Qed.

Section Settling.
Context {St : Type} (w : world) (h : string -> St -> outcome (string * St)).
Hypothesis h_block : forall code st rep st1,
  h code st = Returned (rep, st1) -> exists c, rep = mermaid_block c /\ settled w c.
Hypothesis h_settled : forall c st,
  settled w c -> exists st1, h c st = Returned (mermaid_block c, st1).

(** After one pass the blocks are settled, and a second pass gives the
    same text. *)
Lemma replace_blocks_settles (blocks : list (string * string)) (tail : string) :
  Str.contains mermaid_marker tail = false ->
  Forall (fun block => Str.contains mermaid_marker (fst block) = false) blocks ->
  forall st text st',
    replace_blocks h blocks tail st = Returned (text, st') ->
    exists blocks',
      text = document blocks' tail
      /\ well_fenced blocks' tail
      /\ forall st0, exists st0',
           replace_blocks h blocks' tail st0 = Returned (text, st0').
Proof.
  intros Htail Hgaps.
  induction Hgaps as [|[gap body] blocks Hgap _ IH]; intros st text st' Hrun.
  - injection Hrun as <- <-. exists []. repeat split; [done.. |]. by eexists.
  - cbn [replace_blocks fst] in Hrun, Hgap.
    destruct (h (Str.strip body) st) as [[rep st1]|e] eqn:Hrep; [| done].
    destruct (h_block _ _ _ _ Hrep) as (code & -> & Hsettled).
    cbn [mbind outcome_bind mret outcome_ret] in Hrun.
    destruct (replace_blocks h blocks tail st1) as [[out st2]|e] eqn:Hrest; [| done].
    cbn [mbind outcome_bind mret outcome_ret] in Hrun. injection Hrun as <- <-.
    destruct (IH _ _ _ Hrest) as (blocks' & -> & [Hwf Htail'] & Hagain).
    exists ((gap, nl +:+ code +:+ nl) :: blocks').
    split; [unfold mermaid_block, fence; cbn [document]; by rewrite !app_assoc_str |].
    split; [split; [constructor; [split; [done | apply Hsettled] | done] | done] |].
    intros st0. cbn [replace_blocks].
    destruct Hsettled as (Hne & Hstrip & Hfree & Hv).
    rewrite strip_fenced, Hstrip.
    destruct (h_settled code st0) as [st1' ->]; [done |].
    cbn [mbind outcome_bind mret outcome_ret].
    destruct (Hagain st1') as [st0' ->]. by eexists.
Qed.

End Settling.

Section SettledValidator.
Context (w : world).
Hypothesis Hdefault : settled w default_diagram.
Hypothesis Hvalidator : forall code is_valid corrected_code message,
  validate_mermaid_syntax w code = Returned (is_valid, corrected_code, message) ->
  settled w corrected_code.

Lemma validated_block_gives_block (code : string) (st : bool) (rep : string) (st1 : bool) :
  validated_block w code st = Returned (rep, st1) ->
  exists c, rep = mermaid_block c /\ settled w c.
Proof.
  unfold validated_block. destruct (negb (Str.truthy code)).
  - intros [= <- _]. by eexists.
  - destruct (validate_mermaid_syntax w code) as [[[is_valid corrected] message]|e] eqn:Hv;
      [| done].
    intros [= <- _]. eexists. split; [done |]. by eapply Hvalidator.
Qed.

Lemma validated_block_settled (c : string) (st : bool) :
  settled w c -> exists st1, validated_block w c st = Returned (mermaid_block c, st1).
Proof.
  intros (Hne & _ & _ & is_valid & message & Hv). unfold validated_block, Str.truthy.
  destruct (String.eqb_spec c "") as [-> | _]; [done |].
  cbn [negb]. rewrite Hv. by eexists.
Qed.

Lemma checked_block_gives_block (code : string) (st : bool) (rep : string) (st1 : bool) :
  checked_block w code st = Returned (rep, st1) ->
  exists c, rep = mermaid_block c /\ settled w c.
Proof.
  unfold checked_block. destruct (negb (Str.truthy code)).
  - intros [= <- _]. by eexists.
  - destruct (validate_mermaid_syntax w code) as [[[is_valid corrected] message]|e] eqn:Hv;
      [| done].
    intros [= <- _]. eexists. split; [done |]. by eapply Hvalidator.
Qed.

Lemma checked_block_settled (c : string) (st : bool) :
  settled w c -> exists st1, checked_block w c st = Returned (mermaid_block c, st1).
Proof.
  intros (Hne & _ & _ & is_valid & message & Hv). unfold checked_block, Str.truthy.
  destruct (String.eqb_spec c "") as [-> | _]; [done |].
  cbn [negb]. rewrite Hv. by eexists.
Qed.

End SettledValidator.

(** X10.  The validation pass settles in one step.  When the validator
    gives back settled diagrams (stripped, without a fence inside, and
    left as they are by a second validation) and the placeholder is
    one, the text the pass returns on a text with closed blocks is left
    as it is by a second pass. *)
Theorem validation_pass_idempotent (w : world) (blocks : list (string * string))
    (tail text : string) (has_valid_diagrams : bool) :
  well_fenced blocks tail ->
  settled w default_diagram ->
  (forall code is_valid corrected_code message,
     validate_mermaid_syntax w code = Returned (is_valid, corrected_code, message) ->
     settled w corrected_code) ->
  validation_pass w (document blocks tail) = Returned (text, has_valid_diagrams) ->
  exists has_valid_diagrams', validation_pass w text = Returned (text, has_valid_diagrams').
Proof.
  intros Hwf Hdefault Hvalidator Hrun.
  rewrite validation_pass_document in Hrun by done.
  destruct Hwf as [Hblocks Htail].
  destruct (replace_blocks_settles w (validated_block w)
              (validated_block_gives_block w Hdefault Hvalidator)
              (validated_block_settled w) blocks tail Htail)
    with (st := false) (text := text) (st' := has_valid_diagrams)
    as (blocks' & -> & Hwf' & Hagain); [| done |].
  - eapply Forall_impl; [exact Hblocks | by intros block [H _]].
  - destruct (Hagain false) as [st' Hst']. exists st'.
    by rewrite validation_pass_document.
Qed.

Lemma strict_settles (code : string) (is_valid : bool) (corrected_code message : string) :
  strict_validator code = Returned (is_valid, corrected_code, message) ->
  settled strict corrected_code.
Proof.
  assert (Hab : settled strict diagram_ab).
  { split; [done |]. split; [reflexivity |]. split; [reflexivity |]. by eexists _, _. }
  assert (Hdefault : settled strict default_diagram).
  { split; [done |]. split; [reflexivity |]. split; [reflexivity |]. by eexists _, _. }
  unfold strict_validator.
  destruct (String.eqb_spec code diagram_ab) as [-> | _];
    [by intros [= <- <- <-] |].
  destruct (String.eqb_spec code default_diagram) as [-> | _];
    by intros [= <- <- <-].
Qed.

Lemma validation_pass_idempotent_witness :
  let text := "# Payroll" +:+ nl +:+ mermaid_block default_diagram +:+ nl
              +:+ mermaid_block diagram_ab in
  exists has_valid_diagrams, validation_pass strict text = Returned (text, has_valid_diagrams).
Proof.
  intros text.
  apply (validation_pass_idempotent strict
           [("# Payroll" +:+ nl, "graph LR"); (nl, "  " +:+ diagram_ab)] "" text true).
  - split; [| reflexivity]. repeat constructor.
  - by apply (strict_settles default_diagram true default_diagram "Valid").
  - apply strict_settles.
  - reflexivity.
Defined.

Lemma check_and_fix_document (w : world) (blocks : list (string * string))
    (tail : string) (i : nat) (has_issues : bool) :
  well_fenced blocks tail ->
  Re.sub_from mermaid_pattern (check_and_fix_diagram w) i 0 (document blocks tail)
    has_issues
  = replace_blocks (checked_block w) blocks tail has_issues.
Proof. intros Hwf. exact (sub_from_document (checked_block w) _ tail Hwf i has_issues). Qed.

(** X11.  Two attempts are enough for the correction loop.  With a
    validator that gives back settled diagrams, on a text with closed
    blocks the loop of [_enhance_with_diagrams] returns what its first
    pass returns: a second pass, made when the first one changed a
    block, changes nothing more. *)
Theorem correction_loop_is_one_pass (w : world) (blocks : list (string * string))
    (tail : string) :
  well_fenced blocks tail ->
  settled w default_diagram ->
  (forall code is_valid corrected_code message,
     validate_mermaid_syntax w code = Returned (is_valid, corrected_code, message) ->
     settled w corrected_code) ->
  correction_loop w max_attempts true (document blocks tail)
  = '(text, has_issues) ← replace_blocks (checked_block w) blocks tail false;
    mret text.
Proof.
  intros Hwf Hdefault Hvalidator.
  unfold max_attempts. cbn [correction_loop]. unfold Re.sub.
  rewrite check_and_fix_document by done.
  destruct (replace_blocks (checked_block w) blocks tail false)
    as [[text has_issues]|e] eqn:Hrun; [| done].
  cbn [mbind outcome_bind mret outcome_ret].
  destruct has_issues; [| done].
  destruct Hwf as [Hblocks Htail].
  destruct (replace_blocks_settles w (checked_block w)
              (checked_block_gives_block w Hdefault Hvalidator)
              (checked_block_settled w) blocks tail Htail)
    with (st := false) (text := text) (st' := true)
    as (blocks' & -> & Hwf' & Hagain); [| done |].
  - eapply Forall_impl; [exact Hblocks | by intros block [H _]].
  - rewrite check_and_fix_document by done.
    by destruct (Hagain false) as [st' ->].
Qed.

Lemma correction_loop_is_one_pass_witness :
  correction_loop strict max_attempts true
    (document [("# Payroll" +:+ nl, "graph LR"); (nl, "  " +:+ diagram_ab)] "")
  = Returned ("# Payroll" +:+ nl +:+ mermaid_block default_diagram +:+ nl
              +:+ mermaid_block diagram_ab).
Proof.
  rewrite correction_loop_is_one_pass; [reflexivity | | |].
  - split; [| reflexivity]. repeat constructor.
  - by apply (strict_settles default_diagram true default_diagram "Valid").
  - apply strict_settles.
Defined.

(* ===================================================================== *)
(** ** The payload of a reply *)
(* ===================================================================== *)





(* ===================================================================== *)
(** ** The program identifier that is found *)
(* ===================================================================== *)

Lemma search_from_leftmost (r : Re.regex) (suf : string) (m : Re.rmatch) (pre : string) :
  forall i,
    (forall pre' suf', pre +:+ suf = pre' +:+ suf' -> Str.len pre' < Str.len pre ->
       Re.match_at r (i + Str.len pre') suf' = None) ->
    Re.match_at r (i + Str.len pre) suf = Some m ->
    Re.search_from r i (pre +:+ suf) = Some m.
Proof.
  induction pre as [|c pre IH]; intros i Hmin Hm.
  - cbn [String.append String.length] in *. rewrite Nat.add_0_r in Hm.
    destruct suf; cbn [Re.search_from]; by rewrite Hm.
  - cbn [String.append Re.search_from].
    pose proof (Hmin "" (String c pre +:+ suf) eq_refl ltac:(simpl; lia)) as H0.
    cbn [String.length] in H0. rewrite Nat.add_0_r in H0.
    cbn [String.append] in H0. rewrite H0.
    apply IH.
    + intros pre' suf' Heq Hlen.
      specialize (Hmin (String c pre') suf').
      cbn [String.append String.length] in Hmin.
      replace (S i + Str.len pre') with (i + S (Str.len pre')) by lia.
      apply Hmin; [by rewrite Heq | lia].
    + by replace (S i + Str.len pre) with (i + Str.len (String c pre)) by (simpl; lia).
Qed.

Lemma program_id_absent (suf : string) (i : nat) :
  ~ program_id_at suf -> Re.match_at program_id_pattern i suf = None.
Proof.
  intros Hnot. destruct (Re.match_at program_id_pattern i suf) as [m|] eqn:Hm; [| done].
  destruct Hnot. by eapply program_id_some.
Qed.

(** No PROGRAM-ID paragraph starts in a text without the letter P. *)
Lemma no_paragraph_before (pre suf : string) :
  Str.all (fun c => negb (Char.exactly_i "P" c)) pre = true ->
  forall pre' suf', pre +:+ suf = pre' +:+ suf' -> Str.len pre' < Str.len pre ->
    ~ program_id_at suf'.
Proof.
  revert suf. induction pre as [|c pre IH]; intros suf Hpre pre' suf' Heq Hlen;
    [simpl in Hlen; lia |].
  cbn [Str.all] in Hpre. apply andb_prop in Hpre as [Hc Hpre].
  destruct pre' as [|c' pre'].
  - cbn [String.append] in Heq. subst suf'.
    intros (kw & ws1 & ws2 & id & rest & Heq & Hkw & _).
    destruct kw as [|a kw]; [discriminate Hkw |].
    cbn [String.append] in Heq. injection Heq as <- _.
    simpl in Hkw. apply andb_prop in Hkw as [Ha _].
    unfold Char.exactly_i in Hc. by rewrite Ha in Hc.
  - cbn [String.append] in Heq. injection Heq as _ Heq.
    apply (IH suf Hpre pre' suf' Heq). simpl in Hlen. lia.
Qed.

(** X13.  The program identifier that is found.  A text in which no
    PROGRAM-ID paragraph starts gives "Unknown".  Otherwise the first
    paragraph of the text decides: the identifier is the name that
    follows its full stop, taken up to the first character that is
    neither a word character nor a dash. *)
Theorem extract_program_id_first (cobol_code : string) :
  ((forall pre suf, cobol_code = pre +:+ suf -> ~ program_id_at suf) ->
     _extract_program_id cobol_code = Returned "Unknown")
  /\ (forall pre kw ws1 ws2 id rest,
        cobol_code = pre +:+ kw +:+ ws1 +:+ "." +:+ ws2 +:+ id +:+ rest ->
        eq_i kw "PROGRAM-ID" = true -> blank ws1 -> blank ws2 -> name_like id ->
        ends_name rest ->
        (forall pre' suf', cobol_code = pre' +:+ suf' -> Str.len pre' < Str.len pre ->
           ~ program_id_at suf') ->
        _extract_program_id cobol_code = Returned id).
Proof.
  unfold _extract_program_id, Re.search. split.
  - intros Hnone.
    destruct (Re.search_from program_id_pattern 0 cobol_code) as [m|] eqn:Hs; [| done].
    destruct (search_from_sound _ _ _ _ Hs) as (pre & suf & -> & Hm & _).
    by rewrite (program_id_absent suf _ (Hnone pre suf eq_refl)) in Hm.
  - intros pre kw ws1 ws2 id rest -> Hkw Hws1 Hws2 Hid Hrest Hfirst.
    destruct (program_id_match (0 + Str.len pre) kw ws1 ws2 id rest Hkw Hws1 Hws2 Hid Hrest)
      as [e Hm].
    rewrite (search_from_leftmost _ _ _ pre 0
               (fun pre' suf' Heq Hlen => program_id_absent suf' _ (Hfirst pre' suf' Heq Hlen))
               Hm).
    unfold group_strip, Re.group. cbn [Re.m_groups Re.group_of Nat.eqb].
    by rewrite (strip_name _ Hid).
Qed.

Lemma extract_program_id_first_witness :
  _extract_program_id
    ("IDENTIFICATION DIVISION." +:+ nl +:+ "program-id.  PAY-ROLL." +:+ nl
     +:+ "PROGRAM-ID. OTHER.")
  = Returned "PAY-ROLL".
Proof.
  destruct (extract_program_id_first
              ("IDENTIFICATION DIVISION." +:+ nl +:+ "program-id.  PAY-ROLL." +:+ nl
               +:+ "PROGRAM-ID. OTHER.")) as [_ H].
  apply (H ("IDENTIFICATION DIVISION." +:+ nl) "program-id" "" "  " "PAY-ROLL"
           ("." +:+ nl +:+ "PROGRAM-ID. OTHER.")); try done.
  apply (no_paragraph_before ("IDENTIFICATION DIVISION." +:+ nl)). reflexivity.
Defined.

(* ===================================================================== *)
(** ** What every agent satisfies *)
(* ===================================================================== *)

(** X14.  Whatever methods are called on a new agent, in whatever
    order, its memory never holds more than [max_memory_items] items,
    and its [llm_model] attribute stays the default model: setting the
    "llm_model" preference changes what [get_user_preference] returns,
    not the model the diagram enhancement is asked with. *)
Theorem reachable_invariant (self : agent) :
  reachable self ->
  length (memory self) <= max_memory_items
  /\ llm_model self = PStr "llama-3.3-70b-versatile"
  /\ forall model,
       llm_model (set_user_preference self "llm_model" model)
       = PStr "llama-3.3-70b-versatile"
       /\ get_user_preference (set_user_preference self "llm_model" model) "llm_model"
            (PStr "llama-3.3-70b-versatile") = model.
Proof.
  intros Hreach.
  assert (H : length (memory self) <= max_memory_items
              /\ llm_model self = PStr "llama-3.3-70b-versatile").
  { induction Hreach as [| self key value _ [IH1 IH2]
                          | self item_type content _ [IH1 IH2]
                          | w self cobol_code parsed_structure _ [IH1 IH2]
                          | w self structured_data _ [IH1 IH2]].
    - split; [simpl; unfold max_memory_items; lia | reflexivity].
    - by split.
    - split; [by apply remember_length | done].
    - destruct (analyze_remembers w self cobol_code parsed_structure)
        as [-> | [content ->]]; [by split |].
      split; [by apply remember_length | done].
    - pose proof (generate_remembers w self structured_data) as H.
      destruct (snd (generate_documentation w self structured_data)).
      + destruct H as [program_id ->]. split; [by apply remember_length | done].
      + rewrite H. by split.  }
  destruct H as [Hlen Hmodel]. split; [done |]. split; [done |].
  intros model. split; [exact Hmodel |].
  unfold get_user_preference, set_user_preference. cbn [user_preferences].
  by rewrite lookup_insert.
Qed.

Lemma reachable_invariant_witness :
  llm_model (fst (generate_documentation offline
                    (set_user_preference init "llm_model" (PStr "mixtral-8x7b"))
                    (PDict sample_analysis)))
  = PStr "llama-3.3-70b-versatile".
Proof.
  destruct (reachable_invariant
              (fst (generate_documentation offline
                      (set_user_preference init "llm_model" (PStr "mixtral-8x7b"))
                      (PDict sample_analysis)))) as (_ & H & _); [| exact H].
  apply (reach_generate offline (set_user_preference init "llm_model" (PStr "mixtral-8x7b"))).
  apply (reach_set init). apply reach_init.
Defined.

(* ===================================================================== *)
(** ** The simplified explanations *)
(* ===================================================================== *)






(* ===================================================================== *)
(** ** The quality of the agent's own analyses *)
(* ===================================================================== *)

Lemma own_analysis_sized (program_id description : string) (divisions : list string)
    (more : Py.dict) :
  (forall k v, Py.lookup k more = Some v -> sized v = true) ->
  sized_fields ([("program_id", PStr program_id); ("description", PStr description);
                 ("divisions", PList (PStr <$> divisions))] ++ more).
Proof.
  intros Hmore k v Hk Hv.
  destruct Hk as [<- | [<- | [<- | [<- | []]]]];
    cbn [app Py.lookup String.eqb Ascii.eqb Bool.eqb] in Hv;
    try (injection Hv as <-; reflexivity); by eapply Hmore.
Qed.

Lemma fallback_rubric (program_id : string) (divisions : list string) :
  analysis_rubric (fallback_analysis program_id divisions)
  = [ (negb (String.eqb program_id "Unknown"), "Missing program ID");
      (true, "Description missing or too short");
      (Nat.ltb 0 (length divisions), "No divisions identified");
      (false, "No variables identified");
      (false, "Flow diagram missing or incomplete") ].
Proof.
  unfold analysis_rubric, longer_than, fallback_analysis.
  cbn [Py.lookup String.eqb Ascii.eqb Bool.eqb size Py.eq_str].
  by rewrite length_fmap.
Qed.

(** X16.  How the agent rates the analysis it falls back on.  The
    analysis used when the reply cannot be parsed, which the agent
    evaluates like any other, scores one point for its description,
    one more when a program identifier was found and one more when a
    division was: it is never rated "high", and its notes always miss
    the variables and the flow diagram. *)
Theorem fallback_analysis_quality (program_id : string) (divisions : list string) :
  let found := (if String.eqb program_id "Unknown" then 0 else 1)
               + (match divisions with [] => 0 | _ => 1 end) in
  exists q,
    _evaluate_analysis_quality (PDict (fallback_analysis program_id divisions))
    = Returned q
    /\ quality_score q = 1 + found
    /\ quality_level q <> "high"
    /\ In "No variables identified" (quality_notes q)
    /\ In "Flow diagram missing or incomplete" (quality_notes q).
Proof.
  intros found. eexists. split.
  - apply (analysis_quality_dict (fallback_analysis program_id divisions)).
    apply (own_analysis_sized program_id parse_failure_description divisions []).
    intros k v Hv. discriminate Hv.
  - rewrite fallback_rubric. subst found. unfold grade, satisfied, unmet_notes.
    destruct (String.eqb program_id "Unknown"), divisions;
      cbn [negb length Nat.ltb Nat.leb List.filter fst snd fmap list_fmap
           quality_score quality_level quality_notes level_of Nat.add In];
      (split; [reflexivity |]); (split; [discriminate |]); tauto.
Qed.
